(** * The normalization engine of [src/normalizer.py]

    A shallow embedding of [normalize_date], [normalize_merchant],
    [normalize_amount], [normalize_transaction] and
    [get_normalization_stats], with the parts of Python's [str], [re],
    [decimal] and [datetime] they call; and of the code around them:
    [format_currency], [truncate_string] and [CATEGORY_DISPLAY_NAMES] of
    [src/utils.py], the loop of [parse_transactions_csv] and the header
    check of [src/parser.py], the counts of [SpendingAnalyzer] in
    [src/analyzer.py], and the normalization and cleaning steps of
    [process_transactions] in [main.py].

    Conventions.
    - A Python [str] is a list of Unicode code points ([char := N]).
    - A function that can raise returns an [outcome]; [try]/[except] is
      [try_except].
    - [None] is [option]'s [None]; a function argument of any Python type
      is a [value].
    - Calls to [logger.warning] only write a diagnostic and are left out. *)

From Stdlib Require Import ZArith NArith QArith List String Ascii Bool Lia Sorted.
From Stdlib Require Import PrimFloat Uint63.
From stdpp Require Import gmap.

Import ListNotations.
Local Open Scope bool_scope.
Local Open Scope list_scope.

(** ** Python strings *)

Module PyStr.

Local Open Scope N_scope.

Definition char := N.
Definition str := list char.

Definition chr (a : ascii) : char := N_of_ascii a.
Arguments chr : simpl never.

(** [u "abc"] is the Python literal ["abc"] (ASCII literals only). *)
Definition u (s : string) : str := List.map chr (list_ascii_of_string s).

Definition char_eqb (a b : char) : bool := N.eqb a b.

Fixpoint str_eqb (a b : str) : bool :=
  match a, b with
  | [], [] => true
  | x :: a', y :: b' => char_eqb x y && str_eqb a' b'
  | _, _ => false
  end.

Definition between (lo hi c : char) : bool := (lo <=? c) && (c <=? hi).

(** [str.isspace] on one character, which is also [\s] of [re] on [str]
    patterns and the set [str.strip] removes: the code points CPython's
    [_PyUnicode_IsWhitespace] accepts. *)
Definition isspace (c : char) : bool :=
  between 9 13 c || between 28 32 c || char_eqb c 133 || char_eqb c 160
  || char_eqb c 5760 || between 8192 8202 c || char_eqb c 8232
  || char_eqb c 8233 || char_eqb c 8239 || char_eqb c 8287
  || char_eqb c 12288.

Fixpoint lstrip (s : str) : str :=
  match s with
  | [] => []
  | c :: r => if isspace c then lstrip r else s
  end.

Definition rstrip (s : str) : str := rev (lstrip (rev s)).

(** [s.strip()] *)
Definition strip (s : str) : str := rstrip (lstrip s).

(** [s.startswith(c)] for a one-character prefix. *)
Definition startswith_char (c : char) (s : str) : bool :=
  match s with
  | [] => false
  | x :: _ => char_eqb x c
  end.

(** [c in s] for a one-character [c]. *)
Definition contains_char (c : char) (s : str) : bool :=
  existsb (fun x => char_eqb x c) s.

(** [s.replace(c, '')] for a one-character [c]; also [re.sub] of a
    one-character pattern by the empty string. *)
Definition remove_char (c : char) (s : str) : str :=
  List.filter (fun x => negb (char_eqb x c)) s.

Definition is_ascii (c : char) : bool := c <? 128.
Definition is_ascii_upper (c : char) : bool := between 65 90 c.
Definition is_ascii_lower (c : char) : bool := between 97 122 c.
Definition is_ascii_alpha (c : char) : bool := is_ascii_upper c || is_ascii_lower c.
Definition is_ascii_digit (c : char) : bool := between 48 57 c.

Definition ascii_lower_char (c : char) : char :=
  if is_ascii_upper c then c + 32 else c.
Definition ascii_upper_char (c : char) : char :=
  if is_ascii_lower c then c - 32 else c.

(** The characters on which the casing methods are written out here:
    ASCII, and white space (uncased, so left alone by every method). *)
Definition plain_cased (c : char) : bool := is_ascii c || isspace c.

(** [str.title] on such characters: a letter that follows a cased
    character is lower-cased, any other letter is upper-cased. *)
Fixpoint title_from (previous_is_cased : bool) (s : str) : str :=
  match s with
  | [] => []
  | c :: r =>
      (if previous_is_cased then ascii_lower_char c else ascii_upper_char c)
        :: title_from (is_ascii_alpha c) r
  end.

(** [s[:n]] for [n >= 0]. *)
Definition slice_to (n : nat) (s : str) : str := firstn n s.

(** Truth value of a [str]. *)
Definition nonempty (s : str) : bool :=
  match s with [] => false | _ :: _ => true end.

End PyStr.

Export PyStr.

(** ** Exceptions and argument values *)

Inductive exn : Type :=
| ValueError
| OverflowError
| InvalidOperation
| TypeError.

Inductive outcome (A : Type) : Type :=
| Returns (a : A)
| Raises (e : exn).

Arguments Returns {A} a.
Arguments Raises {A} e.

Definition bind {A B} (m : outcome A) (k : A -> outcome B) : outcome B :=
  match m with
  | Returns a => k a
  | Raises e => Raises e
  end.

Notation "'let!' x ':=' m 'in' k" := (bind m (fun x => k))
  (at level 10, x name, m at level 200, k at level 200).

(** [try: body except classes: handler] *)
Definition try_except {A} (body : outcome A) (caught : exn -> bool)
    (handler : outcome A) : outcome A :=
  match body with
  | Returns a => Returns a
  | Raises e => if caught e then handler else Raises e
  end.

(** What a caller can pass where the signature says [str]: [None], a
    string, or an object of another type, given by its truth value and
    by the text [format] gives it in an f-string. *)
Inductive value : Type :=
| VNone
| VStr (s : str)
| VOther (truth : bool) (text : str).

(** [bool(v)] *)
Definition truthy (v : value) : bool :=
  match v with
  | VNone => false
  | VStr s => nonempty s
  | VOther b _ => b
  end.

(** [isinstance(v, str)] *)
Definition isinstance_str (v : value) : bool :=
  match v with
  | VStr _ => true
  | _ => false
  end.

(** [f"{v}"] *)
Definition format (v : value) : str :=
  match v with
  | VNone => u "None"
  | VStr s => s
  | VOther _ t => t
  end.

(** ** [decimal.Decimal]

    A finite decimal is a sign, a coefficient and an exponent; its value
    is [(-1)^sign * coeff * 10^exp]. *)

Module PyDecimal.

Local Open Scope Z_scope.

Record Decimal : Type := mkDecimal {
  dsign : bool;      (* true: negative *)
  dcoeff : N;
  dexp : Z
}.

(** Default context: [prec=28], [rounding=ROUND_HALF_EVEN],
    [Emax=999999]. *)
Definition prec : Z := 28.
Definition Emax : Z := 999999.

Fixpoint ndigits_fuel (fuel : nat) (n : N) : nat :=
  match fuel with
  | O => 1%nat
  | S f => if (n <? 10)%N then 1%nat else S (ndigits_fuel f (n / 10)%N)
  end.

(** [len(d._int)]: the number of decimal digits of the coefficient
    (1 for zero). *)
Definition ndigits (n : N) : nat := ndigits_fuel (N.to_nat (N.size n)) n.

(** [d.adjusted()] *)
Definition adjusted (d : Decimal) : Z :=
  Z.of_nat (ndigits (dcoeff d)) + dexp d - 1.

(** Rounding [n / 10^k] to an integer, ties to even. *)
Definition round_half_even (n : N) (k : Z) : N :=
  let p := Z.to_N (10 ^ k) in
  let q := (n / p)%N in
  let r := (n mod p)%N in
  match (2 * r ?= p)%N with
  | Lt => q
  | Gt => (q + 1)%N
  | Eq => if N.even q then q else (q + 1)%N
  end.

(** [d._rescale(e, ROUND_HALF_EVEN)]: the same number with exponent [e],
    rounded when digits are dropped. *)
Definition rescale (d : Decimal) (e : Z) : Decimal :=
  if (dcoeff d =? 0)%N then mkDecimal (dsign d) 0 e
  else if e <=? dexp d
  then mkDecimal (dsign d) (dcoeff d * Z.to_N (10 ^ (dexp d - e)))%N e
  else mkDecimal (dsign d) (round_half_even (dcoeff d) (e - dexp d)) e.

(** [d.quantize(Decimal('0.01'))] in the default context. *)
Definition quantize_cents (d : Decimal) : outcome Decimal :=
  if (dcoeff d =? 0)%N then Returns (mkDecimal (dsign d) 0 (-2))
  else if Emax <? adjusted d then Raises InvalidOperation
  else if prec <? adjusted d - (-2) + 1 then Raises InvalidOperation
  else
    let ans := rescale d (-2) in
    if Emax <? adjusted ans then Raises InvalidOperation
    else if prec <? Z.of_nat (ndigits (dcoeff ans)) then Raises InvalidOperation
    else Returns ans.

(** The coefficient with its sign. *)
Definition signed_coeff (d : Decimal) : Z :=
  if dsign d then - Z.of_N (dcoeff d) else Z.of_N (dcoeff d).

(** [a < b] and [a > b]: both sides are brought to the smaller exponent
    and compared as integers. *)
Definition scaled (d : Decimal) (e : Z) : Z :=
  signed_coeff d * 10 ^ (dexp d - e).

Definition lt (a b : Decimal) : bool :=
  let e := Z.min (dexp a) (dexp b) in scaled a e <? scaled b e.

Definition gt (a b : Decimal) : bool := lt b a.

(** [Decimal(n)] for an integer literal. *)
Definition of_Z (z : Z) : Decimal :=
  mkDecimal (z <? 0) (Z.to_N (Z.abs z)) 0.

End PyDecimal.

Export PyDecimal.

(** ** [datetime] *)

Module PyDatetime.

Local Open Scope Z_scope.

(** A [datetime] at midnight. *)
Record datetime : Type := mkDate { year : Z; month : Z; day : Z }.

Definition is_leap (y : Z) : bool :=
  (y mod 4 =? 0) && (negb (y mod 100 =? 0) || (y mod 400 =? 0)).

Definition days_in_month (y m : Z) : Z :=
  if m =? 2 then (if is_leap y then 29 else 28)
  else if (m =? 4) || (m =? 6) || (m =? 9) || (m =? 11) then 30
  else 31.

(** The calendar dates a [datetime] can hold. *)
Definition valid_date (y m d : Z) : bool :=
  (1 <=? y) && (y <=? 9999) && (1 <=? m) && (m <=? 12)
  && (1 <=? d) && (d <=? days_in_month y m).

(** [datetime(y, m, d)]: the constructor checks its fields. *)
Definition make_datetime (y m d : Z) : outcome datetime :=
  if valid_date y m d then Returns (mkDate y m d) else Raises ValueError.

Definition digit_char (n : Z) : char := Z.to_N (48 + n mod 10).
Arguments digit_char : simpl never.

(** [d.strftime("%Y-%m-%d")], for a year of four digits. *)
Definition strftime_iso (d : datetime) : str :=
  [digit_char (year d / 1000); digit_char (year d / 100);
   digit_char (year d / 10); digit_char (year d)]
  ++ chr "-" :: [digit_char (month d / 10); digit_char (month d)]
  ++ chr "-" :: [digit_char (day d / 10); digit_char (day d)].

End PyDatetime.

Export PyDatetime.

(** ** [dateutil.parser] on dates of three numbers

    [dateutil] is a third-party package and is not under src/. What
    [normalize_date] needs of it on purely numeric dates is written out
    in this module from section 4.1 of the specification; on every other
    string the parser stays a parameter of the development. *)

Module DateUtil.

Local Open Scope Z_scope.

(** Modelled from the spec: a numeric token of [dateutil.parser] (not
    under src/), the longest prefix of ASCII digits, and what follows
    it. *)
Fixpoint span_ascii_digits (s : str) : str * str :=
  match s with
  | [] => ([], [])
  | c :: r =>
      if is_ascii_digit c
      then let (ds, rest) := span_ascii_digits r in (c :: ds, rest)
      else ([], s)
  end.

(** Modelled from the spec: the number a token of [dateutil.parser]
    (not under src/) shows. *)
Definition int_of_ascii_digits (ds : str) : Z :=
  fold_left (fun acc c => 10 * acc + (Z.of_N c - 48)) ds 0.

(** Modelled from the spec: the tokens of [dateutil.parser] (not under
    src/) that are a day, a month or a year and nothing longer. *)
Definition short_token (t : str) : bool :=
  (1 <=? length t)%nat && (length t <=? 4)%nat.

(** Modelled from the spec: the dates of three numbers that
    [dateutil.parser] (not under src/) accepts in the ISO, US and
    hyphenated forms: one to four digits each, with the same separator,
    [-] or [/], between them. *)
Definition numeric_tokens (s : str) : option (str * str * str) :=
  let (t1, r1) := span_ascii_digits s in
  match r1 with
  | sep :: r1' =>
      if char_eqb sep (chr "-") || char_eqb sep (chr "/") then
        let (t2, r2) := span_ascii_digits r1' in
        match r2 with
        | sep' :: r2' =>
            if char_eqb sep' sep then
              let (t3, r3) := span_ascii_digits r2' in
              match r3 with
              | [] =>
                  if short_token t1 && short_token t2 && short_token t3
                  then Some (t1, t2, t3) else None
              | _ :: _ => None
              end
            else None
        | [] => None
        end
      else None
  | [] => None
  end.

(** Modelled from the spec: the numbers [dateutil.parser] (not under
    src/) has read so far. A token of more than two digits is a year
    written with its century, and there can be one only. *)
Record ymd : Type := mkYmd {
  values : list Z;
  century_specified : bool;
  ystridx : option nat
}.

(** Modelled from the spec: one more number read by [dateutil.parser]
    (not under src/); a second year with its century is an error. *)
Definition ymd_append (y : ymd) (token : str) : outcome ymd :=
  let v := int_of_ascii_digits token in
  if (2 <? length token)%nat then
    match ystridx y with
    | Some _ => Raises ValueError
    | None => Returns (mkYmd (values y ++ [v]) true (Some (length (values y))))
    end
  else Returns (mkYmd (values y ++ [v]) (century_specified y) (ystridx y)).

(** Modelled from the spec: the ambiguity policy of [dateutil.parser]
    (not under src/), which of three numbers is the year, the month and
    the day. A first number that is a year with its century, or above
    31, is the year; otherwise the first number is the month, unless it
    is above 12 (or [dayfirst] is asked for), which makes it the day. The
    result is (year, month, day). *)
Definition resolve_ymd (y : ymd) (yearfirst dayfirst : bool) : outcome (Z * Z * Z) :=
  match values y with
  | [a; b; c] =>
      if (31 <? a) || bool_decide (ystridx y = Some 0%nat)
         || (yearfirst && (b <=? 12) && (c <=? 31))
      then (if dayfirst && (c <=? 12) then Returns (a, c, b) else Returns (a, b, c))
      else if (12 <? a) || (dayfirst && (b <=? 12)) then Returns (c, b, a)
      else Returns (c, a, b)
  | _ => Raises ValueError
  end.

(** Modelled from the spec: the two-digit years of [dateutil.parser]
    (not under src/), taken within fifty years of [this_year]. *)
Definition convertyear (this_year y : Z) (century : bool) : Z :=
  if (y <? 100) && negb century then
    let y := y + this_year / 100 * 100 in
    if this_year + 50 <=? y then y - 100
    else if y <? this_year - 50 then y + 100
    else y
  else y.

(** Modelled from the spec: [dateutil.parser.parse], a third-party
    function that is not under src/, on the dates of three numbers (ISO
    [YYYY-MM-DD], US [MM/DD/YYYY], hyphenated numeric, two-digit years).
    Following section 4.1: a year written first is read year-month-day;
    otherwise the first number is the month unless it is above 12, which
    makes it the day; the calendar validity of the result is checked, and
    a string that fails is a [ValueError]. The result is [None] on a
    string that is not such a date. *)
Definition parse_numeric (this_year : Z) (s : str) (dayfirst : bool)
    : option (outcome datetime) :=
  match numeric_tokens s with
  | None => None
  | Some (t1, t2, t3) =>
      Some (let! y := ymd_append (mkYmd [] false None) t1 in
            let! y := ymd_append y t2 in
            let! y := ymd_append y t3 in
            let! r := resolve_ymd y false dayfirst in
            match r with
            | (yr, mo, dy) =>
                make_datetime (convertyear this_year yr (century_specified y)) mo dy
            end)
  end.

End DateUtil.

(** ** Sample parameters

    Simple stand-ins for the Unicode tables and the two third-party
    functions, on which the examples at the end run. *)

Module Sample.

(** No decimal digit outside ASCII. *)
Definition decimal : char -> option N := fun _ => None.

(** Casing leaves non-ASCII text alone. *)
Definition casing : str -> str := fun s => s.

(** A score of 100 for a key equal to the keyword, 0 otherwise. *)
Definition ratio (key keyword : str) : Q :=
  if str_eqb key keyword then 100 else 0.

(** Every string other than a date of three numbers is refused. *)
Definition parse : str -> outcome datetime := fun _ => Raises ValueError.

Definition this_year : Z := 2026.

(** A parser that raises [e] on every string it is handed. *)
Definition parse_raising (e : exn) : str -> outcome datetime := fun _ => Raises e.

End Sample.

(** ** The normalizers *)

Section Normalizer.

Set Default Proof Using "Type".
Local Open Scope N_scope.

(** Python's Unicode database, outside the characters written out in
    [PyStr]: the value of a non-ASCII decimal digit (category Nd), and
    [str.lower] and [str.title] on a string with other characters than
    ASCII and white space. *)
Variable unicode_decimal : char -> option N.
Variable unicode_lower : str -> str.
Variable unicode_title : str -> str.

(** [rapidfuzz.fuzz.partial_ratio], a third-party function that returns
    a score between 0 and 100. *)
Variable partial_ratio : str -> str -> Q.

(** [Py_UNICODE_TODECIMAL]: the value of a decimal digit. *)
Definition digit_value (c : char) : option N :=
  if is_ascii c then (if is_ascii_digit c then Some (c - 48) else None)
  else unicode_decimal c.

(** [\d] of [re] on [str] patterns. *)
Definition is_decimal_digit (c : char) : bool :=
  match digit_value c with Some _ => true | None => false end.

(** The longest prefix of decimal digits, and what follows it. *)
Fixpoint span_digits (s : str) : str * str :=
  match s with
  | [] => ([], [])
  | c :: r =>
      if is_decimal_digit c
      then let (ds, rest) := span_digits r in (c :: ds, rest)
      else ([], s)
  end.

(** [int(ds)] for a string of decimal digits. *)
Definition int_of_digits (ds : str) : N :=
  fold_left (fun acc c => 10 * acc + default 0 (digit_value c)) ds 0.

(** [Decimal(s)] for the spellings [sign? digits* (. digits* )?] with at
    least one digit. The spellings with an exponent, the infinities and
    NaN have a letter, a second sign or white space, which no string
    [normalize_amount] builds has; they are not written out and end in
    the same [InvalidOperation] as a malformed string. *)
Definition Decimal_of_str (s : str) : outcome Decimal :=
  let (negative, body) :=
    match s with
    | c :: r =>
        if char_eqb c (chr "-") then (true, r)
        else if char_eqb c (chr "+") then (false, r)
        else (false, s)
    | [] => (false, [])
    end in
  let (intpart, rest) := span_digits body in
  let (fracpart, rest') :=
    match rest with
    | c :: r => if char_eqb c (chr ".") then span_digits r else ([], rest)
    | [] => ([], [])
    end in
  match rest', intpart ++ fracpart with
  | [], _ :: _ =>
      Returns (mkDecimal negative (int_of_digits (intpart ++ fracpart))
                 (- Z.of_nat (length fracpart)))
  | _, _ => Raises InvalidOperation
  end.

(** [re.sub(r'[€¥£]', '', s)] *)
Definition sub_symbols (s : str) : str :=
  List.filter (fun c => negb (char_eqb c 8364 || char_eqb c 165 || char_eqb c 163)) s.

(** One letter of a pattern under [re.IGNORECASE]: [l] is the lower-case
    letter; the long s (U+017F) is the one other character that matches
    a letter of the four codes. *)
Definition matches_letter (l : ascii) (c : char) : bool :=
  char_eqb c (chr l) || char_eqb c (chr l - 32)
  || (char_eqb (chr l) (chr "s") && char_eqb c 383).

(** Whether [USD|EUR|GBP|JPY] matches the three characters. *)
Definition currency_code (a b c : char) : bool :=
  (matches_letter "u" a && matches_letter "s" b && matches_letter "d" c)
  || (matches_letter "e" a && matches_letter "u" b && matches_letter "r" c)
  || (matches_letter "g" a && matches_letter "b" b && matches_letter "p" c)
  || (matches_letter "j" a && matches_letter "p" b && matches_letter "y" c).

(** [re.sub(r'USD|EUR|GBP|JPY', '', s, flags=re.IGNORECASE)]: one pass
    from the left, each match removed and the scan resumed after it. *)
Fixpoint sub_codes (s : str) : str :=
  match s with
  | a :: t =>
      match t with
      | b :: c :: r => if currency_code a b c then sub_codes r else a :: sub_codes t
      | _ => s
      end
  | [] => []
  end.

(** [re.search(r'(\d+\.?\d* )', s)]: the match starts at the first
    decimal digit and takes the digits, then a point if one follows,
    then the digits after it. *)
Fixpoint search_number (s : str) : option str :=
  match s with
  | [] => None
  | c :: r =>
      if is_decimal_digit c then
        let (intpart, rest) := span_digits s in
        Some (match rest with
              | d :: r' =>
                  if char_eqb d (chr ".")
                  then intpart ++ d :: fst (span_digits r')
                  else intpart
              | [] => intpart
              end)
      else search_number r
  end.

(** Lines 167-186 of [normalize_amount]: the trimmed input without
    currency symbols and codes, trimmed again. *)
Definition unmarked (amount_string : str) : str :=
  let cleaned := strip amount_string in
  let cleaned := sub_symbols cleaned in
  let cleaned := remove_char (chr "$") cleaned in
  let cleaned := sub_codes cleaned in
  strip cleaned.

(** Lines 178 and 189-190: the sign. *)
Definition is_negative (amount_string : str) : bool :=
  let is_negative := startswith_char (chr "-") (strip amount_string) in
  if contains_char (chr "-") (unmarked amount_string) then true else is_negative.

(** Lines 189-194: the text handed to [re.search]. *)
Definition cleaned_amount (amount_string : str) : str :=
  let cleaned := unmarked amount_string in
  let cleaned :=
    if contains_char (chr "-") cleaned then remove_char (chr "-") cleaned
    else cleaned in
  remove_char (chr ",") cleaned.

(** Lines 210-226: the [try] block and its handler. *)
Definition convert_amount (numeric_string : str) : outcome (option Decimal) :=
  try_except
    (let! amount := Decimal_of_str numeric_string in
     let! amount := quantize_cents amount in
     if PyDecimal.lt amount (of_Z (-1000000)) || PyDecimal.gt amount (of_Z 1000000)
     then Returns None
     else Returns (Some amount))
    (fun e => match e with InvalidOperation | ValueError => true | _ => false end)
    (Returns None).

Definition normalize_amount (amount_string : value) : outcome (option Decimal) :=
  if negb (truthy amount_string) || negb (isinstance_str amount_string)
  then Returns None
  else
    match amount_string with
    | VStr s =>
        if negb (nonempty (strip s)) then Returns None
        else
          match search_number (cleaned_amount s) with
          | None => Returns None
          | Some numeric_string =>
              let numeric_string :=
                if is_negative s then chr "-" :: numeric_string
                else numeric_string in
              convert_amount numeric_string
          end
    | _ => Returns None
    end.

(** *** Merchants *)

(** [MERCHANT_CATEGORIES]; a [dict] is iterated in the order of its
    display. *)
Definition MERCHANT_CATEGORIES : list (str * list str) :=
  [ (u "uber", [u "uber"; u "uber trip"; u "uber eats"; u "uber technologies"]);
    (u "amazon", [u "amazon"; u "amzn"; u "amazon prime"; u "amazon mktplace"]);
    (u "starbucks", [u "starbucks"; u "sbux"; u "starbucks coffee"]);
    (u "target", [u "target"; u "tgt"]);
    (u "mcdonalds", [u "mcdonald"; u "mcd"]);
    (u "gas_station", [u "shell"; u "chevron"; u "bp"; u "exxon"; u "exxonmobil"]);
    (u "grocery", [u "whole foods"; u "trader joe"; u "safeway"; u "trader joes"]);
    (u "restaurant", [u "chipotle"; u "panera"; u "in-n-out"; u "in n out"]);
    (u "utility", [u "pg&e"; u "pge"; u "pacific gas"; u "comcast"; u "at&t"; u "att"]);
    (u "entertainment", [u "netflix"; u "spotify"; u "amc"]) ].

Definition FUZZY_MATCH_THRESHOLD : Q := 85.

(** [s.lower()] and [s.title()] *)
Definition lower (s : str) : str :=
  if forallb plain_cased s then List.map ascii_lower_char s else unicode_lower s.

Definition title (s : str) : str :=
  if forallb plain_cased s then title_from false s else unicode_title s.

(** [re.sub(r'[^a-zA-Z0-9\s]', '', s)] *)
Definition sub_special (s : str) : str :=
  List.filter (fun c => is_ascii_alpha c || is_ascii_digit c || isspace c) s.

(** [re.sub(r'\s+', ' ', s)]: [in_run] says that the previous character
    was white space, already replaced. *)
Fixpoint sub_spaces_from (in_run : bool) (s : str) : str :=
  match s with
  | [] => []
  | c :: r =>
      if isspace c
      then (if in_run then sub_spaces_from true r
            else chr " " :: sub_spaces_from true r)
      else c :: sub_spaces_from false r
  end.

Definition sub_spaces (s : str) : str := sub_spaces_from false s.

(** Lines 114-115: the comparison key of a trimmed merchant name. *)
Definition comparison_name (cleaned : str) : str :=
  strip (sub_spaces (lower (sub_special cleaned))).

(** The three variables of the matching loop. *)
Record best_match : Type := mkBest {
  best_match_category : option str;
  best_match_score : Q;
  best_match_name : option str
}.

Definition Qgt_bool (x y : Q) : bool := negb (Qle_bool x y).

(** Lines 125-130: the body of the inner loop. *)
Definition consider (comparison : str) (category : str) (b : best_match)
    (keyword : str) : best_match :=
  let score := partial_ratio comparison (lower keyword) in
  if Qgt_bool score (best_match_score b) && Qle_bool FUZZY_MATCH_THRESHOLD score
  then mkBest (Some category) score (Some (title keyword))
  else b.

(** Lines 118-130: both loops. *)
Definition match_merchant (comparison : str) : best_match :=
  fold_left
    (fun b (entry : str * list str) =>
       let (category, keywords) := entry in
       fold_left (consider comparison category) keywords b)
    MERCHANT_CATEGORIES
    (mkBest None 0 None).

(** Line 138: the display name of a merchant that matched nothing. *)
Definition unmatched_name (cleaned : str) : str :=
  if (length cleaned <? 50)%nat then title cleaned
  else slice_to 50 cleaned ++ u "...".

Definition normalize_merchant (merchant_name : value) : str * str :=
  if negb (truthy merchant_name) || negb (isinstance_str merchant_name)
  then (u "Unknown", u "other")
  else
    match merchant_name with
    | VStr s =>
        let cleaned := strip s in
        if negb (nonempty cleaned) then (u "Unknown", u "other")
        else
          let b := match_merchant (comparison_name cleaned) in
          match best_match_category b, best_match_name b with
          | Some best_category, Some best_name =>
              (* [if best_match_category and best_match_name] *)
              if nonempty best_category && nonempty best_name
              then (best_name, best_category)
              else (unmatched_name cleaned, u "other")
          | _, _ => (unmatched_name cleaned, u "other")
          end
    | _ => (u "Unknown", u "other")
    end.

(** *** Dates *)

(** [datetime.now().year] *)
Variable current_year : Z.

(** [dateutil.parser.parse] on the strings [DateUtil.parse_numeric] does
    not cover: month names, times, two fields, ... *)
Variable parse_other : str -> outcome datetime.

(** [date_parser.parse(s, dayfirst=...)] *)
Definition date_parser_parse (s : str) (dayfirst : bool) : outcome datetime :=
  match DateUtil.parse_numeric current_year s dayfirst with
  | Some r => r
  | None => parse_other s
  end.

Definition normalize_date (date_string : value) : outcome (option str) :=
  if negb (truthy date_string) || negb (isinstance_str date_string)
  then Returns None
  else
    match date_string with
    | VStr s =>
        let date_string := strip s in
        if negb (nonempty date_string) then Returns None
        else
          try_except
            (let! parsed_date := date_parser_parse date_string false in
             if (year parsed_date <? 1900)%Z || (current_year + 1 <? year parsed_date)%Z
             then Returns None
             else Returns (Some (strftime_iso parsed_date)))
            (fun e => match e with ValueError | OverflowError => true | _ => false end)
            (Returns None)
    | _ => Returns None
    end.

(** *** Records *)

(** The [dict] that [normalize_transaction] builds and returns. *)
Record normalized : Type := mkNormalized {
  raw_date : value;
  raw_merchant : value;
  raw_amount : value;
  normalized_date : option str;
  normalized_merchant : option str;
  category : option str;
  normalized_amount : option Decimal;
  is_valid : bool;
  errors : list str
}.

(** [normalized["is_valid"] = False; normalized["errors"].append(message)] *)
Definition reject (message : str) (n : normalized) : normalized :=
  mkNormalized (raw_date n) (raw_merchant n) (raw_amount n)
    (normalized_date n) (normalized_merchant n) (category n)
    (normalized_amount n) false (errors n ++ [message]).

Definition set_normalized_date (d : option str) (n : normalized) : normalized :=
  mkNormalized (raw_date n) (raw_merchant n) (raw_amount n)
    d (normalized_merchant n) (category n)
    (normalized_amount n) (is_valid n) (errors n).

Definition set_merchant (name cat : str) (n : normalized) : normalized :=
  mkNormalized (raw_date n) (raw_merchant n) (raw_amount n)
    (normalized_date n) (Some name) (Some cat)
    (normalized_amount n) (is_valid n) (errors n).

Definition set_normalized_amount (a : option Decimal) (n : normalized) : normalized :=
  mkNormalized (raw_date n) (raw_merchant n) (raw_amount n)
    (normalized_date n) (normalized_merchant n) (category n)
    a (is_valid n) (errors n).

Definition is_None {A} (o : option A) : bool :=
  match o with None => true | Some _ => false end.

Definition normalize_transaction (date merchant amount : value) : outcome normalized :=
  let normalized := mkNormalized date merchant amount None None None None true [] in
  (* Normalize date *)
  let! date_result := normalize_date date in
  let normalized :=
    if is_None date_result
    then reject (u "Invalid date: " ++ format date) normalized
    else normalized in
  let normalized := set_normalized_date date_result normalized in
  (* Normalize merchant *)
  let (merchant_name, cat) := normalize_merchant merchant in
  let normalized := set_merchant merchant_name cat normalized in
  (* Normalize amount *)
  let! amount_result := normalize_amount amount in
  let normalized :=
    if is_None amount_result
    then reject (u "Invalid amount: " ++ format amount) normalized
    else normalized in
  let normalized := set_normalized_amount amount_result normalized in
  Returns normalized.

(** *** Statistics *)

(** A Python number: an [int], or a [float] (IEEE 754 binary64). *)
Inductive number : Type :=
| Int (z : Z)
| Float (f : float).

(** [float(z)], exact for the counts below (under [2^53]). *)
Definition float_of_int (z : Z) : float := PrimFloat.of_uint63 (Uint63.of_Z z).

(** [a / b * 100] on two [int]s: true division, then the product. *)
Definition percentage (a b : Z) : float :=
  PrimFloat.mul (PrimFloat.div (float_of_int a) (float_of_int b)) (float_of_int 100).

Record stats : Type := mkStats {
  total_transactions : Z;
  valid_transactions : Z;
  invalid_transactions : Z;
  success_rate : number;
  date_errors : Z;
  amount_errors : Z;
  categories : gmap (option str) Z
}.

(** [sum(1 for t in transactions if p(t))] *)
Definition sum_if {A} (p : A -> bool) (l : list A) : Z :=
  fold_left (fun acc t => if p t then (acc + 1)%Z else acc) l 0%Z.

(** Lines 292-295; [t.get("category", "other")] finds the key in every
    record, which has all nine. *)
Definition count_categories (transactions : list normalized) : gmap (option str) Z :=
  fold_left
    (fun (cats : gmap (option str) Z) t =>
       let cat := category t in
       <[cat := (default 0 (cats !! cat) + 1)%Z]> cats)
    transactions ∅.

Definition get_normalization_stats (transactions : list normalized) : stats :=
  let total := Z.of_nat (length transactions) in
  let valid := sum_if is_valid transactions in
  let invalid := (total - valid)%Z in
  let date_errors := sum_if (fun t => is_None (normalized_date t)) transactions in
  let amount_errors := sum_if (fun t => is_None (normalized_amount t)) transactions in
  let categories := count_categories transactions in
  mkStats total valid invalid
    (if (0 <? total)%Z then Float (percentage valid total) else Int 0)
    date_errors amount_errors categories.

(** *** [str(Decimal)] and [format(Decimal, ',.2f')] *)

(** The decimal digits of [n], most significant first, written with an
    accumulator; [fuel] bounds their number. *)
Fixpoint digits_fuel (fuel : nat) (n : N) (acc : str) : str :=
  match fuel with
  | O => acc
  | S f =>
      let acc := (48 + n mod 10) :: acc in
      if n <? 10 then acc else digits_fuel f (n / 10) acc
  end.

(** [str(n)] for a natural number: the coefficient of a [Decimal] as the
    string of digits [d._int]. *)
Definition digits_of (n : N) : str :=
  digits_fuel (S (N.to_nat (N.size n))) n [].

(** ["%+d" % z] *)
Definition signed_digits (z : Z) : str :=
  (if (z <? 0)%Z then chr "-" else chr "+") :: digits_of (Z.to_N (Z.abs z)).

(** ['0' * n] *)
Definition zeros (n : Z) : str := repeat (chr "0") (Z.to_nat n).

(** [str(d)], [Decimal.__str__]: plain notation when the exponent is at
    most 0 and there are fewer than six zeros after the point,
    scientific notation with one digit before the point otherwise. *)
Definition Decimal_str (d : Decimal) : str :=
  let sign := if dsign d then [chr "-"] else [] in
  let int := digits_of (dcoeff d) in
  let len := Z.of_nat (length int) in
  let leftdigits := (dexp d + len)%Z in
  let dotplace :=
    if (dexp d <=? 0)%Z && (-6 <? leftdigits)%Z then leftdigits else 1%Z in
  let intpart :=
    if (dotplace <=? 0)%Z then [chr "0"]
    else if (len <=? dotplace)%Z then int ++ zeros (dotplace - len)
    else firstn (Z.to_nat dotplace) int in
  let fracpart :=
    if (dotplace <=? 0)%Z then chr "." :: zeros (- dotplace) ++ int
    else if (len <=? dotplace)%Z then []
    else chr "." :: skipn (Z.to_nat dotplace) int in
  let exp :=
    if (leftdigits =? dotplace)%Z then []
    else chr "E" :: signed_digits (leftdigits - dotplace) in
  sign ++ intpart ++ fracpart ++ exp.

(** The digits in groups of three from the right with commas between
    them, on the digits least significant first. *)
Fixpoint commas_rev (r : str) : str :=
  match r with
  | a :: b :: c :: ((_ :: _) as rest) => a :: b :: c :: chr "," :: commas_rev rest
  | _ => r
  end.

(** [_insert_thousands_sep] for the grouping of [','] *)
Definition insert_thousands_sep (digits : str) : str :=
  rev (commas_rev (rev digits)).

(** [format(d, ',.2f')], [Decimal.__format__]: the number is brought to
    two decimals, rounded half-even, and written in fixed point with the
    thousands of its integer part separated. The exponent being -2 after
    the rounding, the point is never to the right of the digits, and
    that case of [__format__] is not written out. *)
Definition format_comma_2f (d : Decimal) : str :=
  let r := rescale d (-2) in
  let sign := if dsign r then [chr "-"] else [] in
  let int := digits_of (dcoeff r) in
  let dotplace := (dexp r + Z.of_nat (length int))%Z in
  let intpart :=
    if (dotplace <? 0)%Z then [chr "0"]
    else match firstn (Z.to_nat dotplace) int with
         | [] => [chr "0"]
         | p => p
         end in
  let fracpart :=
    if (dotplace <? 0)%Z then zeros (- dotplace) ++ int
    else skipn (Z.to_nat dotplace) int in
  sign ++ insert_thousands_sep intpart ++ chr "." :: fracpart.

(** [abs(d)]: the sign is dropped. [__abs__] also rounds to the 28
    digits of the context; the amounts that this program formats are
    results of [normalize_amount], of at most nine digits, or of
    additions and divisions in that context, of at most 28, which the
    rounding leaves as they are, so it is not written out. *)
Definition Decimal_abs (d : Decimal) : Decimal :=
  mkDecimal false (dcoeff d) (dexp d).

(** *** [utils.py] *)

(** [CATEGORY_DISPLAY_NAMES] *)
Definition CATEGORY_DISPLAY_NAMES : list (str * str) :=
  [ (u "uber", u "Transportation (Uber)");
    (u "amazon", u "Shopping (Amazon)");
    (u "starbucks", u "Coffee & Cafes");
    (u "target", u "Shopping (Target)");
    (u "mcdonalds", u "Fast Food");
    (u "gas_station", u "Gas & Fuel");
    (u "grocery", u "Groceries");
    (u "restaurant", u "Restaurants");
    (u "utility", u "Utilities");
    (u "entertainment", u "Entertainment");
    (u "other", u "Other/Uncategorized") ].

(** [d.get(key)] on a [dict] given by its items. *)
Fixpoint dict_get {V} (d : list (str * V)) (key : str) : option V :=
  match d with
  | [] => None
  | (k, v) :: rest => if str_eqb k key then Some v else dict_get rest key
  end.

(** [format_currency(amount, symbol)] on [None] or a [Decimal]. *)
Definition format_currency (amount : option Decimal) (symbol : str) : str :=
  match amount with
  | None => u "N/A"
  | Some a =>
      if PyDecimal.lt a (of_Z 0)
      then chr "-" :: symbol ++ format_comma_2f (Decimal_abs a)
      else symbol ++ format_comma_2f a
  end.

(** [s[:k]] for an integer [k]: a negative [k] counts from the end. *)
Definition slice_stop (k : Z) (s : str) : str :=
  if (k <? 0)%Z then firstn (Z.to_nat (Z.of_nat (length s) + k)) s
  else firstn (Z.to_nat k) s.

(** [truncate_string(text, max_length, suffix)] *)
Definition truncate_string (text : str) (max_length : Z) (suffix : str) : str :=
  if (Z.of_nat (length text) <=? max_length)%Z then text
  else slice_stop (max_length - Z.of_nat (length suffix)) text ++ suffix.

(** Lines 218 and 290 of [analyzer.py]:
    [CATEGORY_DISPLAY_NAMES.get(category, category.title())] *)
Definition category_display_name (category : str) : str :=
  match dict_get CATEGORY_DISPLAY_NAMES category with
  | Some name => name
  | None => title category
  end.

(** *** [parser.py] *)

(** A value of a row that [csv.DictReader] yields: a field of the line,
    [None] for a column the line is too short for, or the list of the
    fields beyond the header, which the reader puts under the key
    [None]. *)
Inductive cell : Type :=
| CNone
| CStr (s : str)
| CList (fields : list str).

(** The items of a row, in the order of the [dict]. *)
Definition row : Type := list (option str * cell).

(** A computation of the parsing loop: a result, or the [AttributeError]
    of a method called on [None] or on a list. *)
Inductive attempt (A : Type) : Type :=
| Fine (a : A)
| AttributeError (message : str).

Arguments Fine {A} a.
Arguments AttributeError {A} message.

(** [not value or not value.strip()] *)
Definition blank_value (value : cell) : attempt bool :=
  match value with
  | CNone => Fine true
  | CStr s => Fine (negb (nonempty s) || negb (nonempty (strip s)))
  | CList [] => Fine true
  | CList (_ :: _) => AttributeError (u "'list' object has no attribute 'strip'")
  end.

(** [all(not value or not value.strip() for value in values)]: the
    generator is consumed up to the first false element. *)
Fixpoint all_blank (values : list cell) : attempt bool :=
  match values with
  | [] => Fine true
  | value :: rest =>
      match blank_value value with
      | Fine true => all_blank rest
      | Fine false => Fine false
      | AttributeError m => AttributeError m
      end
  end.

(** [d[key] = v]: an existing key keeps its place. *)
Fixpoint dict_set {V} (d : list (str * V)) (key : str) (v : V) : list (str * V) :=
  match d with
  | [] => [(key, v)]
  | (k, w) :: rest =>
      if str_eqb k key then (k, v) :: rest else (k, w) :: dict_set rest key v
  end.

(** [key in d] *)
Definition dict_has {V} (d : list (str * V)) (key : str) : bool :=
  match dict_get d key with Some _ => true | None => false end.

(** [key.lower().strip()] *)
Definition normalized_key (key : option str) : attempt str :=
  match key with
  | Some k => Fine (strip (lower k))
  | None => AttributeError (u "'NoneType' object has no attribute 'lower'")
  end.

(** [value.strip() if value else ""] *)
Definition stripped_value (value : cell) : attempt str :=
  match value with
  | CNone => Fine []
  | CStr s => Fine (if nonempty s then strip s else [])
  | CList [] => Fine []
  | CList (_ :: _) => AttributeError (u "'list' object has no attribute 'strip'")
  end.

(** Lines 122-125: the comprehension, the key of an item evaluated
    before its value. *)
Fixpoint normalized_row_from (items : row) (acc : list (str * str))
    : attempt (list (str * str)) :=
  match items with
  | [] => Fine acc
  | (key, value) :: rest =>
      match normalized_key key with
      | AttributeError m => AttributeError m
      | Fine k =>
          match stripped_value value with
          | AttributeError m => AttributeError m
          | Fine v => normalized_row_from rest (dict_set acc k v)
          end
      end
  end.

(** [REQUIRED_COLUMNS], a set. *)
Definition REQUIRED_COLUMNS : list str := [u "date"; u "merchant"; u "amount"].

(** The [dict] of a parsed transaction; the three optional keys are
    there when the row has them. *)
Record transaction : Type := mkTransaction {
  t_row_number : N;
  t_date : str;
  t_merchant : str;
  t_amount : str;
  t_category : option str;
  t_description : option str;
  t_notes : option str
}.

(** Lines 135-148 *)
Definition extract_transaction (row_num : N) (normalized_row : list (str * str))
    : transaction :=
  mkTransaction row_num
    (default [] (dict_get normalized_row (u "date")))
    (default [] (dict_get normalized_row (u "merchant")))
    (default [] (dict_get normalized_row (u "amount")))
    (dict_get normalized_row (u "category"))
    (dict_get normalized_row (u "description"))
    (dict_get normalized_row (u "notes")).

(** Lines 115-150: the loop over the rows of the reader, with the row
    number, the transactions and the error messages so far. *)
Fixpoint parse_rows (row_num : N) (rows : list row)
    (transactions : list transaction) (errors : list str)
    : attempt (list transaction * list str) :=
  match rows with
  | [] => Fine (transactions, errors)
  | row :: rest =>
      match all_blank (List.map snd row) with
      | AttributeError m => AttributeError m
      | Fine true => parse_rows (row_num + 1) rest transactions errors
      | Fine false =>
          match normalized_row_from row [] with
          | AttributeError m => AttributeError m
          | Fine normalized_row =>
              if negb (forallb (dict_has normalized_row) REQUIRED_COLUMNS)
              then
                let error_msg :=
                  u "Row " ++ digits_of row_num ++ u ": Missing required columns" in
                parse_rows (row_num + 1) rest transactions (errors ++ [error_msg])
              else
                parse_rows (row_num + 1) rest
                  (transactions ++ [extract_transaction row_num normalized_row])
                  errors
          end
      end
  end.

(** What [parse_transactions_csv] does with the rows of the reader: the
    list of transactions, or [ParserError]. *)
Inductive parsed : Type :=
| Transactions (transactions : list transaction)
| ParserError (message : str).

(** Lines 108-165 of [parse_transactions_csv], on the rows that the
    reader yields: the numbering starts at 2, and any exception of the
    loop becomes a [ParserError]. *)
Definition parse_transactions_csv (rows : list row) : parsed :=
  match parse_rows 2 rows [] [] with
  | Fine (transactions, _) => Transactions transactions
  | AttributeError e =>
      ParserError (u "Unexpected error while parsing CSV: " ++ e)
  end.

(** Lines 63-66 of [validate_csv_structure]: the required columns that
    are not among the lower-cased, trimmed names of the header. *)
Definition missing_columns (fieldnames : list str) : list str :=
  let columns := List.map (fun col => strip (lower col)) fieldnames in
  List.filter (fun c => negb (existsb (str_eqb c) columns)) REQUIRED_COLUMNS.

Record parse_statistics : Type := mkParseStatistics {
  total_rows : Z;
  empty_dates : Z;
  empty_merchants : Z;
  empty_amounts : Z
}.

(** [get_parse_statistics]; every transaction of the parser has the
    three keys. *)
Definition get_parse_statistics (transactions : list transaction) : parse_statistics :=
  if negb (match transactions with [] => false | _ :: _ => true end)
  then mkParseStatistics 0 0 0 0
  else
    mkParseStatistics (Z.of_nat (length transactions))
      (sum_if (fun t => negb (nonempty (t_date t))) transactions)
      (sum_if (fun t => negb (nonempty (t_merchant t))) transactions)
      (sum_if (fun t => negb (nonempty (t_amount t))) transactions).

(** *** [main.py] *)

(** Lines 120-127 of [process_transactions]: every parsed transaction is
    normalized and keeps its row number. *)
Fixpoint normalize_rows (transactions : list transaction)
    : outcome (list (N * normalized)) :=
  match transactions with
  | [] => Returns []
  | t :: rest =>
      let! result :=
        normalize_transaction (VStr (t_date t)) (VStr (t_merchant t))
          (VStr (t_amount t)) in
      let! results := normalize_rows rest in
      Returns ((t_row_number t, result) :: results)
  end.

(** A row of the cleaned output. *)
Record cleaned_transaction : Type := mkCleaned {
  c_date : option str;
  c_merchant : option str;
  c_amount : str;
  c_category : option str
}.

(** [str(a)] for an amount or [None]. *)
Definition str_of_amount (a : option Decimal) : str :=
  match a with
  | Some d => Decimal_str d
  | None => u "None"
  end.

(** Lines 156-164 *)
Definition cleaned_transactions (normalized_results : list (N * normalized))
    : list cleaned_transaction :=
  fold_left
    (fun cleaned (numbered : N * normalized) =>
       let result := snd numbered in
       if is_valid result
       then cleaned ++ [mkCleaned (normalized_date result) (normalized_merchant result)
                          (str_of_amount (normalized_amount result)) (category result)]
       else cleaned)
    normalized_results [].

(** *** [analyzer.py] *)

Section Analyzer.

(** [a + b] and [a / b] on [Decimal]s in the default context, operations
    of the standard library that round to 28 digits. *)
Variable Decimal_add : Decimal -> Decimal -> Decimal.
Variable Decimal_div : Decimal -> Decimal -> Decimal.

(** The attributes that [SpendingAnalyzer.__init__] sets;
    [t.get('is_valid', True)] finds the key in every record. *)
Record SpendingAnalyzer : Type := mkSpendingAnalyzer {
  self_transactions : list normalized;
  self_valid_transactions : list normalized;
  self_invalid_transactions : list normalized
}.

Definition SpendingAnalyzer_init (transactions : list normalized) : SpendingAnalyzer :=
  mkSpendingAnalyzer transactions
    (List.filter (fun t => is_valid t) transactions)
    (List.filter (fun t => negb (is_valid t)) transactions).

Definition get_total_spending (self : SpendingAnalyzer) : Decimal :=
  fold_left
    (fun total t =>
       match normalized_amount t with
       | Some amount => Decimal_add total amount
       | None => total
       end)
    (self_valid_transactions self) (of_Z 0).

(** What [sum] returns: the [int] 0 it starts from, or a [Decimal]. *)
Inductive total : Type :=
| TotalInt (z : Z)
| TotalDecimal (d : Decimal).

(** [sum(amounts)]: the first addition is [0 + a], which [Decimal]
    computes as [a + Decimal(0)]. *)
Definition sum_amounts (amounts : list Decimal) : total :=
  fold_left
    (fun acc a =>
       match acc with
       | TotalInt z => TotalDecimal (Decimal_add a (of_Z z))
       | TotalDecimal d => TotalDecimal (Decimal_add d a)
       end)
    amounts (TotalInt 0).

(** [max(amounts)] and [min(amounts)] on a list with first element
    [first]: the first of the largest, the first of the smallest. *)
Definition max_amount (first : Decimal) (rest : list Decimal) : Decimal :=
  fold_left (fun best a => if PyDecimal.gt a best then a else best) rest first.

Definition min_amount (first : Decimal) (rest : list Decimal) : Decimal :=
  fold_left (fun best a => if PyDecimal.lt a best then a else best) rest first.

(** [len(set(values))] *)
Definition count_distinct (values : list (option str)) : Z :=
  Z.of_nat (size (list_to_set values : gset (option str))).

Record statistics : Type := mkStatistics {
  a_total_transactions : Z;
  a_valid_transactions : Z;
  a_invalid_transactions : Z;
  a_total_spending : total;
  a_average_transaction : Decimal;
  a_largest_transaction : Decimal;
  a_smallest_transaction : Decimal;
  a_unique_merchants : Z;
  a_unique_categories : Z
}.

(** [SpendingAnalyzer.get_statistics]; [t.get('normalized_amount')],
    [t.get('normalized_merchant', 'Unknown')] and
    [t.get('category', 'other')] find their keys in every record. *)
Definition get_statistics (self : SpendingAnalyzer) : statistics :=
  match self_valid_transactions self with
  | [] =>
      mkStatistics 0 0 (Z.of_nat (length (self_invalid_transactions self)))
        (TotalDecimal (of_Z 0)) (of_Z 0) (of_Z 0) (of_Z 0) 0 0
  | _ :: _ =>
      let amounts :=
        flat_map
          (fun t => match normalized_amount t with Some a => [a] | None => [] end)
          (self_valid_transactions self) in
      let total_spending := sum_amounts amounts in
      mkStatistics
        (Z.of_nat (length (self_transactions self)))
        (Z.of_nat (length (self_valid_transactions self)))
        (Z.of_nat (length (self_invalid_transactions self)))
        total_spending
        (match amounts, total_spending with
         | _ :: _, TotalDecimal d => Decimal_div d (of_Z (Z.of_nat (length amounts)))
         | _, _ => of_Z 0
         end)
        (match amounts with first :: rest => max_amount first rest | [] => of_Z 0 end)
        (match amounts with first :: rest => min_amount first rest | [] => of_Z 0 end)
        (count_distinct (List.map normalized_merchant (self_valid_transactions self)))
        (count_distinct (List.map category (self_valid_transactions self)))
  end.

End Analyzer.

(** ** Notions used in the statements *)

(** The number of elements of [l] that satisfy [p]. *)
Definition count_where {A} (p : A -> bool) (l : list A) : Z :=
  Z.of_nat (length (List.filter p l)).

Definition in_category (cat : option str) (t : normalized) : bool :=
  bool_decide (category t = cat).

Definition bump (cats : gmap (option str) Z) (t : normalized) : gmap (option str) Z :=
  <[category t := (default 0 (cats !! category t) + 1)%Z]> cats.

(** The sum of the counts of a mapping. *)
Definition sum_counts (m : gmap (option str) Z) : Z :=
  map_fold (fun _ v acc => (v + acc)%Z) 0%Z m.

(** The string [normalize_amount] hands to [Decimal]: the first number of
    the cleaned text, with the sign put back. *)
Definition numeric_string (s : str) : option str :=
  if nonempty (strip s) then
    match search_number (cleaned_amount s) with
    | Some m => Some (if is_negative s then chr "-" :: m else m)
    | None => None
    end
  else None.

(** The (category, keyword) pairs of the knowledge base, in the order of
    the two loops. *)
Definition knowledge_pairs : list (str * str) :=
  flat_map (fun entry : str * list str => List.map (pair (fst entry)) (snd entry))
    MERCHANT_CATEGORIES.

(** The score of a pair against a comparison key. *)
Definition pair_score (comparison : str) (p : str * str) : Q :=
  partial_ratio comparison (lower (snd p)).

(** The variables of the loop after the pairs [seen]: untouched when no
    pair of [seen] qualifies; otherwise those of a qualifying pair that
    beats every pair before it and is not beaten by a pair after it. *)
Definition selects (comparison : str) (seen : list (str * str)) (b : best_match) : Prop :=
  (Forall (fun x => (pair_score comparison x < FUZZY_MATCH_THRESHOLD)%Q) seen
   /\ b = mkBest None 0 None)
  \/ exists before p after,
      seen = before ++ p :: after
      /\ (FUZZY_MATCH_THRESHOLD <= pair_score comparison p)%Q
      /\ Forall (fun x => (pair_score comparison x < pair_score comparison p)%Q) before
      /\ Forall (fun x => (pair_score comparison x <= pair_score comparison p)%Q) after
      /\ b = mkBest (Some (fst p)) (pair_score comparison p) (Some (title (snd p))).

(** The string [YYYY-MM-DD] of a year of up to four digits and a month
    and a day of up to two, zero-padded. *)
Definition iso_form (y m d : Z) : str := strftime_iso (mkDate y m d).

(** The year of a date whose third number [t3] is the year. *)
Definition year_of (t3 : str) : Z :=
  DateUtil.convertyear current_year (DateUtil.int_of_ascii_digits t3)
    (2 <? length t3)%nat.

(** A string made of four digits, a hyphen, two digits, a hyphen and two
    digits. *)
Definition iso_shaped (s : str) : Prop :=
  exists y1 y2 y3 y4 m1 m2 d1 d2 : char,
    forallb is_ascii_digit [y1; y2; y3; y4; m1; m2; d1; d2] = true
    /\ s = [y1; y2; y3; y4; chr "-"; m1; m2; chr "-"; d1; d2].

(** The text after a run of digits: empty, or not starting with one. *)
Definition stops (rest : str) : Prop :=
  match rest with
  | c :: _ => is_decimal_digit c = false
  | [] => True
  end.

(** What [(\d+\.?\d* )] can match: digits, or digits, a point and
    digits. *)
Definition numeric_shape (m : str) : Prop :=
  exists intpart fracpart,
    intpart <> []
    /\ forallb is_decimal_digit intpart = true
    /\ forallb is_decimal_digit fracpart = true
    /\ (m = intpart \/ m = intpart ++ chr "." :: fracpart).

(** The characters of an unsigned decimal numeral in ASCII. *)
Definition numeral_char (c : char) : bool :=
  is_ascii_digit c || char_eqb c (chr ".").

(** The characters that the cleaning of an amount leaves where they are:
    no white space, currency symbol, sign, comma or letter of a code. *)
Definition untouched (c : char) : bool :=
  negb (isspace c)
  && negb (char_eqb c 8364 || char_eqb c 165 || char_eqb c 163)
  && negb (char_eqb c (chr "$")) && negb (char_eqb c (chr "-"))
  && negb (char_eqb c (chr ","))
  && forallb (fun l => negb (matches_letter l c))
       ["u"; "s"; "d"; "e"; "r"; "g"; "b"; "p"; "j"; "y"]%char.

(** A value in hundredths outside [-1,000,000.00, 1,000,000.00]. *)
Definition out_of_range (q : Decimal) : Prop :=
  (signed_coeff q < -100000000 \/ 100000000 < signed_coeff q)%Z.

(** What [dateutil] documents for a [str] argument: [ParserError], a
    subclass of [ValueError], or [OverflowError]. *)
Definition parse_contract : Prop :=
  forall s e, parse_other s = Raises e -> e = ValueError \/ e = OverflowError.

(** The arguments on which the field normalizers give up before any
    parsing: falsy, not a string, or white space only. *)
Definition blank (v : value) : bool :=
  negb (truthy v) || negb (isinstance_str v)
  || match v with VStr s => negb (nonempty (strip s)) | _ => true end.

(** The parser hands out dates of the calendar only, as every
    [datetime] is. *)
Definition parse_valid : Prop :=
  forall s d, parse_other s = Returns d ->
              valid_date (year d) (month d) (day d) = true.

(** The number of messages on the records of a batch. *)
Definition count_errors (records : list normalized) : Z :=
  fold_right (fun r n => (Z.of_nat (length (errors r)) + n)%Z) 0%Z records.

(** A record that [normalize_transaction] returns for some input. *)
Definition normalized_output (r : normalized) : Prop :=
  exists date merchant amount,
    normalize_transaction date merchant amount = Returns r.

(** The characters of a comparison key: a lower-case ASCII letter, an
    ASCII digit or a space. *)
Definition key_char (c : char) : bool :=
  is_ascii_lower c || is_ascii_digit c || char_eqb c (chr " ").

(** No two white-space characters next to each other. *)
Fixpoint single_spaced (s : str) : Prop :=
  match s with
  | a :: (b :: _) as t => ~ (isspace a = true /\ isspace b = true) /\ single_spaced t
  | _ => True
  end.

(** Two strings that differ in the case of ASCII letters only. *)
Definition same_up_to_ascii_case (s1 s2 : str) : Prop :=
  List.map ascii_lower_char s1 = List.map ascii_lower_char s2.

(** The characters of a currency symbol that the cleaning of an amount
    removes one by one: the dollar, euro, yen and pound signs. *)
Definition currency_symbol (c : char) : bool :=
  char_eqb c (chr "$") || char_eqb c 8364 || char_eqb c 165 || char_eqb c 163.

(** The characters of an amount as this program prints it: those of a
    numeral, the comma between the thousands, the minus sign and the
    currency symbols. *)
Definition money_char (c : char) : bool :=
  numeral_char c || char_eqb c (chr ",") || char_eqb c (chr "-")
  || currency_symbol c.

(** The characters that are no letter of a currency code. *)
Definition code_free (c : char) : bool :=
  forallb (fun l => negb (matches_letter l c))
    ["u"; "s"; "d"; "e"; "r"; "g"; "b"; "p"; "j"; "y"]%char.

(** The digits of a number of hundredths before and after the point: at
    least one digit before it, two after it. *)
Definition cents_split (c : N) : str * str :=
  let int := digits_of c in
  if (length int <=? 2)%nat
  then ([chr "0"], repeat (chr "0") (2 - length int) ++ int)
  else (firstn (length int - 2) int, skipn (length int - 2) int).

(** An item of a row as [csv.DictReader] builds it: under a column name
    a field, or [None] when the line is too short; under the key [None]
    the non-empty list of the fields beyond the header. *)
Definition reader_item (item : option str * cell) : Prop :=
  match item with
  | (Some _, CNone) | (Some _, CStr _) | (None, CList (_ :: _)) => True
  | _ => False
  end.

Definition reader_row (r : row) : Prop := Forall reader_item r.

(** A row of a line with more fields than the header. *)
Definition has_extra_fields (r : row) : bool :=
  existsb (fun item : option str * cell => is_None (fst item)) r.

(** A row that the loop skips as empty. *)
Definition skipped (r : row) : bool :=
  match all_blank (List.map snd r) with
  | Fine true => true
  | _ => false
  end.

(** A transaction whose fields have no white space at either end. *)
Definition trimmed (t : transaction) : Prop :=
  strip (t_date t) = t_date t /\ strip (t_merchant t) = t_merchant t
  /\ strip (t_amount t) = t_amount t
  /\ (forall s, t_category t = Some s -> strip s = s)
  /\ (forall s, t_description t = Some s -> strip s = s)
  /\ (forall s, t_notes t = Some s -> strip s = s).

(** The transaction is the one the loop builds from the row. *)
Definition read_from (r : row) (t : transaction) : Prop :=
  exists normalized_row,
    normalized_row_from r [] = Fine normalized_row
    /\ forallb (dict_has normalized_row) REQUIRED_COLUMNS = true
    /\ t = extract_transaction (t_row_number t) normalized_row.

(** The row has one item for every column of the header. *)
Definition has_columns (fieldnames : list str) (r : row) : Prop :=
  forall f, In f fieldnames -> In (Some f) (List.map fst r).

(** The last character of a string, if any, is not white space. *)
Definition ends_clean (s : str) : Prop :=
  match rev s with [] => True | c :: _ => isspace c = false end.

(** ** Sample data for the examples *)

(** Three rows under the header [Date, Merchant,AMOUNT]: a transaction,
    an empty row, and a short line without merchant and amount. *)
Definition sample_rows : list row :=
  [ [ (Some (u "Date"), CStr (u " 2023-01-05 "));
      (Some (u " Merchant"), CStr (u "Uber"));
      (Some (u "AMOUNT"), CStr (u "$5 ")) ];
    [ (Some (u "Date"), CStr (u ""));
      (Some (u " Merchant"), CStr (u "  "));
      (Some (u "AMOUNT"), CNone) ];
    [ (Some (u "Date"), CStr (u "1/5/23"));
      (Some (u " Merchant"), CStr (u ""));
      (Some (u "AMOUNT"), CNone) ] ].

(** The transactions of these rows. *)
Definition sample_transactions : list transaction :=
  [ mkTransaction 2 (u "2023-01-05") (u "Uber") (u "$5") None None None;
    mkTransaction 4 (u "1/5/23") (u "") (u "") None None None ].

(** A valid and an invalid record. *)
Definition sample_valid_record : normalized :=
  mkNormalized (VStr (u "1/5/23")) (VStr (u "uber")) (VStr (u "$5"))
    (Some (u "2023-01-05")) (Some (u "Uber")) (Some (u "uber"))
    (Some (mkDecimal false 500 (-2))) true [].

Definition sample_invalid_record : normalized :=
  mkNormalized (VStr (u "soon")) (VStr (u "Corner Shop")) (VStr (u "free"))
    None (Some (u "Corner Shop")) (Some (u "other")) None false
    [u "Invalid date: soon"; u "Invalid amount: free"].

(** The records of these transactions, with their row numbers. *)
Definition sample_results : list (N * normalized) :=
  [ (2%N,
     mkNormalized (VStr (u "2023-01-05")) (VStr (u "Uber")) (VStr (u "$5"))
       (Some (u "2023-01-05")) (Some (u "Uber")) (Some (u "uber"))
       (Some (mkDecimal false 500 (-2))) true []);
    (4%N,
     mkNormalized (VStr (u "1/5/23")) (VStr (u "")) (VStr (u ""))
       (Some (u "2023-01-05")) (Some (u "Unknown")) (Some (u "other"))
       None false [u "Invalid amount: "]) ].

(** A currency code starts the string, in any case of its letters. *)
Definition starts_with_code (s : str) : bool :=
  match s with
  | a :: b :: c :: _ => currency_code a b c
  | _ => false
  end.

(** A currency code occurs somewhere in the string. *)
Fixpoint has_code (s : str) : bool :=
  match s with
  | [] => false
  | _ :: r => starts_with_code s || has_code r
  end.

(** The characters that the cleaning of an amount never removes by
    themselves: no white space, currency symbol, minus sign or comma. A
    letter is one of them, and goes only as a part of a currency code. *)
Definition plain_char (c : char) : bool :=
  negb (isspace c)
  && negb (char_eqb c 8364 || char_eqb c 165 || char_eqb c 163)
  && negb (char_eqb c (chr "$")) && negb (char_eqb c (chr "-"))
  && negb (char_eqb c (chr ",")).

(** The decimal digits outside ASCII are digits only: none of them is
    white space, a currency symbol or the long s, as in Unicode, where
    they are the characters of the category Nd. *)
Definition decimal_digits_plain : Prop :=
  forall c, unicode_decimal c <> None -> untouched c = true.

(** Lines 172 and 175 of [normalize_amount]: the currency symbols are
    removed. *)
Definition symbols_removed (s : str) : str :=
  remove_char (chr "$") (sub_symbols s).

(** * Properties *)

(** The parameters that a goal does not mention are put aside, so that
    no proof depends on them by accident. *)
Ltac forget_parameters :=
  try clear parse_other; try clear current_year; try clear partial_ratio;
  try clear unicode_title; try clear unicode_lower; try clear unicode_decimal.

Ltac propositional := forget_parameters; tauto.

(** ** Statistics *)

Section StatsFacts.

Local Open Scope Z_scope.

Lemma sum_if_from {A} (p : A -> bool) (l : list A) (acc : Z) :
  fold_left (fun acc t => if p t then acc + 1 else acc) l acc
  = acc + count_where p l.
Proof.
  unfold count_where. revert acc.
  induction l as [|t l IH]; intros acc; simpl.
  - lia.
  - rewrite IH. destruct (p t); simpl length; lia.
Qed.

Lemma sum_if_count {A} (p : A -> bool) (l : list A) :
  sum_if p l = count_where p l.
Proof. unfold sum_if. rewrite sum_if_from. lia. Qed.

Lemma count_where_le {A} (p : A -> bool) (l : list A) :
  0 <= count_where p l <= Z.of_nat (length l).
Proof.
  unfold count_where. pose proof (List.filter_length_le p l). lia.
Qed.

Lemma count_where_cons {A} (p : A -> bool) (t : A) (l : list A) :
  count_where p (t :: l) = (if p t then 1 else 0) + count_where p l.
Proof.
  unfold count_where. simpl. destruct (p t); simpl length; lia.
Qed.

Lemma count_categories_from (ts : list normalized) (m : gmap (option str) Z) (cat : option str) :
  fold_left bump ts m !! cat
  = match m !! cat with
    | Some v => Some (v + count_where (in_category cat) ts)
    | None => if count_where (in_category cat) ts =? 0 then None
              else Some (count_where (in_category cat) ts)
    end.
Proof.
  revert m. induction ts as [|t ts IH]; intros m.
  - simpl. unfold count_where. simpl. destruct (m !! cat); [f_equal; lia | reflexivity].
  - simpl fold_left. rewrite IH. unfold bump.
    pose proof (count_where_le (in_category cat) ts) as Hle.
    rewrite !count_where_cons.
    set (n := count_where (in_category cat) ts) in *.
    unfold in_category.
    destruct (decide (category t = cat)) as [E|E].
    + rewrite (bool_decide_eq_true_2 _ E). subst cat.
      rewrite lookup_insert_eq.
      destruct (m !! category t); simpl default.
      * f_equal. lia.
      * destruct (Z.eqb_spec (1 + n) 0); [lia | f_equal; lia].
    + rewrite (bool_decide_eq_false_2 _ E).
      rewrite lookup_insert_ne by exact E. reflexivity.
Qed.

Lemma sum_counts_insert (m : gmap (option str) Z) k v :
  sum_counts (<[k := v]> m) = v + sum_counts (delete k m).
Proof.
  unfold sum_counts. rewrite <- insert_delete_eq.
  rewrite map_fold_insert_L.
  - reflexivity.
  - intros. lia.
  - apply lookup_delete_eq.
Qed.

Lemma sum_counts_delete (m : gmap (option str) Z) k :
  sum_counts m = default 0 (m !! k) + sum_counts (delete k m).
Proof.
  destruct (m !! k) as [v|] eqn:E; simpl.
  - rewrite <- (insert_id m k v E) at 1. apply sum_counts_insert.
  - rewrite delete_id by exact E. lia.
Qed.

Lemma sum_counts_bump (ts : list normalized) (m : gmap (option str) Z) :
  sum_counts (fold_left bump ts m) = sum_counts m + Z.of_nat (length ts).
Proof.
  revert m. induction ts as [|t ts IH]; intros m; simpl fold_left.
  - simpl. lia.
  - rewrite IH. unfold bump. rewrite sum_counts_insert.
    rewrite (sum_counts_delete m (category t)). simpl length. lia.
Qed.

End StatsFacts.

(** C9. [get_normalization_stats] counts: the total is the length of the
    list, valid the number of records with [is_valid], invalid their
    difference, the success rate [valid / total * 100] and 0 on the empty
    list, the date and amount errors the numbers of records without a
    date and without an amount, and the count of a category the number of
    records, valid or not, that have it; no other key is in the mapping
    and the counts add up to the total. Two valid records of two are
    100.0 per cent, one of three 33.33333333333333 (the binary64
    number [0x1.0aaaaaaaaaaaap+5]). *)
Theorem get_normalization_stats_counts (ts : list normalized) :
  let s := get_normalization_stats ts in
  total_transactions s = Z.of_nat (length ts)
  /\ valid_transactions s = count_where is_valid ts
  /\ invalid_transactions s = (total_transactions s - valid_transactions s)%Z
  /\ (0 <= invalid_transactions s)%Z
  /\ success_rate s
     = (if (0 <? total_transactions s)%Z
        then Float (percentage (valid_transactions s) (total_transactions s))
        else Int 0)
  /\ date_errors s = count_where (fun t => is_None (normalized_date t)) ts
  /\ amount_errors s = count_where (fun t => is_None (normalized_amount t)) ts
  /\ (forall cat : option str,
        categories s !! cat
        = if (count_where (in_category cat) ts =? 0)%Z then None
          else Some (count_where (in_category cat) ts))
  /\ sum_counts (categories s) = total_transactions s
  /\ percentage 2 2 = 100%float
  /\ percentage 1 3 = 0x1.0aaaaaaaaaaaap+5%float.
Proof.
  cbv zeta. unfold get_normalization_stats. cbn [total_transactions valid_transactions
    invalid_transactions success_rate date_errors amount_errors categories].
  rewrite !sum_if_count.
  pose proof (count_where_le is_valid ts).
  repeat split; try reflexivity; try lia.
  - intros cat. unfold count_categories.
    change (fold_left bump ts ∅ !! cat = if (count_where (in_category cat) ts =? 0)%Z then None
          else Some (count_where (in_category cat) ts)).
    rewrite count_categories_from. rewrite lookup_empty. reflexivity.
  - unfold count_categories.
    change (sum_counts (fold_left bump ts ∅) = Z.of_nat (length ts)).
    rewrite sum_counts_bump. unfold sum_counts. rewrite map_fold_empty. lia.
Qed.

(** ** No exception escapes *)

Lemma try_except_returns {A} (body handler : outcome A) (caught : exn -> bool) :
  (forall e, body = Raises e -> caught e = true) ->
  (exists r, handler = Returns r) ->
  exists r, try_except body caught handler = Returns r.
Proof.
  intros Hbody [r Hr]. unfold try_except. destruct body as [a|e].
  - eauto.
  - rewrite (Hbody e eq_refl). eauto.
Qed.

Lemma bind_raises {A B} (m : outcome A) (k : A -> outcome B) (e : exn) :
  bind m k = Raises e ->
  m = Raises e \/ exists a, m = Returns a /\ k a = Raises e.
Proof.
  destruct m as [a|e']; simpl; intros H; [right; eauto | left; congruence].
Qed.

Lemma ymd_append_raises (y : DateUtil.ymd) (t : str) (e : exn) :
  DateUtil.ymd_append y t = Raises e -> e = ValueError.
Proof.
  unfold DateUtil.ymd_append.
  destruct (2 <? length t)%nat; [destruct (DateUtil.ystridx y)|]; congruence.
Qed.

Lemma resolve_ymd_raises (y : DateUtil.ymd) (yf df : bool) (e : exn) :
  DateUtil.resolve_ymd y yf df = Raises e -> e = ValueError.
Proof.
  unfold DateUtil.resolve_ymd.
  destruct (DateUtil.values y) as [|a [|b [|c [|? ?]]]]; try congruence.
  repeat match goal with |- context [if ?b then _ else _] => destruct b end; congruence.
Qed.

Lemma make_datetime_raises (y m d : Z) (e : exn) :
  make_datetime y m d = Raises e -> e = ValueError.
Proof. unfold make_datetime. destruct (valid_date y m d); congruence. Qed.

Lemma parse_numeric_raises (s : str) (df : bool) (r : outcome datetime) (e : exn) :
  DateUtil.parse_numeric current_year s df = Some r -> r = Raises e -> e = ValueError.
Proof.
  unfold DateUtil.parse_numeric.
  destruct (DateUtil.numeric_tokens s) as [[[t1 t2] t3]|]; [|discriminate].
  intros [= <-] H.
  repeat (apply bind_raises in H as [H|[? [_ H]]];
          [first [apply ymd_append_raises in H | apply resolve_ymd_raises in H]; exact H|]).
  destruct x2 as [[yr mo] dy]. eapply make_datetime_raises, H.
Qed.

Lemma date_parser_parse_raises (s : str) (df : bool) (e : exn) :
  parse_contract ->
  date_parser_parse s df = Raises e -> e = ValueError \/ e = OverflowError.
Proof.
  intros Hc. unfold date_parser_parse.
  destruct (DateUtil.parse_numeric current_year s df) as [r|] eqn:E.
  - intros H. left. eapply parse_numeric_raises; eauto.
  - apply Hc.
Qed.

Lemma normalize_date_returns (v : value) :
  parse_contract -> exists r, normalize_date v = Returns r.
Proof.
  intros Hc. unfold normalize_date.
  destruct (negb (truthy v) || negb (isinstance_str v)); [eauto|].
  destruct v as [|s|b t]; eauto.
  destruct (negb (nonempty (strip s))); [eauto|].
  apply try_except_returns; [|eauto].
  intros e H. apply bind_raises in H as [H|[d [_ H]]].
  - destruct (date_parser_parse_raises _ _ _ Hc H); subst e; reflexivity.
  - destruct (_ || _); discriminate.
Qed.

Lemma Decimal_of_str_raises (s : str) (e : exn) :
  Decimal_of_str s = Raises e -> e = InvalidOperation.
Proof.
  unfold Decimal_of_str.
  repeat match goal with
         | |- context [let (_, _) := ?p in _] => destruct p
         | |- context [match ?l with [] => _ | _ :: _ => _ end] => destruct l
         end; congruence.
Qed.

Lemma quantize_cents_raises (d : Decimal) (e : exn) :
  quantize_cents d = Raises e -> e = InvalidOperation.
Proof.
  unfold quantize_cents.
  repeat match goal with |- context [if ?b then _ else _] => destruct b end; congruence.
Qed.

Lemma convert_amount_returns (numeric_string : str) :
  exists r, convert_amount numeric_string = Returns r.
Proof.
  unfold convert_amount. apply try_except_returns; [|eauto].
  intros e H. apply bind_raises in H as [H|[d [_ H]]].
  - apply Decimal_of_str_raises in H. subst e. reflexivity.
  - apply bind_raises in H as [H|[q [_ H]]].
    + apply quantize_cents_raises in H. subst e. reflexivity.
    + destruct (_ || _); discriminate.
Qed.

Lemma normalize_amount_returns (v : value) :
  exists r, normalize_amount v = Returns r.
Proof.
  unfold normalize_amount.
  destruct (negb (truthy v) || negb (isinstance_str v)); [eauto|].
  destruct v as [|s|b t]; eauto.
  destruct (negb (nonempty (strip s))); [eauto|].
  destruct (search_number (cleaned_amount s)); [|eauto].
  apply convert_amount_returns.
Qed.

Lemma blank_gives_up (v : value) :
  blank v = true ->
  normalize_date v = Returns None
  /\ normalize_amount v = Returns None
  /\ normalize_merchant v = (u "Unknown", u "other").
Proof.
  unfold blank, normalize_date, normalize_amount, normalize_merchant.
  destruct v as [|s|b t]; simpl truthy; simpl isinstance_str; cbn [negb orb].
  - auto.
  - destruct (nonempty s); cbn [negb orb]; [|auto].
    intros ->. auto.
  - rewrite !orb_true_r. auto.
Qed.

(** The category of a match is a key of the knowledge base. *)
Lemma consider_category (comparison category : str) (b : best_match) (keyword : str)
    (P : str -> Prop) :
  P category ->
  (forall c, best_match_category b = Some c -> P c) ->
  forall c, best_match_category (consider comparison category b keyword) = Some c -> P c.
Proof.
  intros Hc Hb c. unfold consider. destruct (_ && _); [|apply Hb].
  simpl. intros [= <-]. exact Hc.
Qed.

Lemma match_merchant_category (comparison c : str) :
  best_match_category (match_merchant comparison) = Some c ->
  In c (List.map fst MERCHANT_CATEGORIES).
Proof.
  unfold match_merchant.
  assert (G : forall (kb : list (str * list str)) (b : best_match) (P : str -> Prop),
             (forall e, In e kb -> P (fst e)) ->
             (forall c, best_match_category b = Some c -> P c) ->
             forall c,
               best_match_category
                 (fold_left
                    (fun b (entry : str * list str) =>
                       let (category, keywords) := entry in
                       fold_left (consider comparison category) keywords b) kb b)
               = Some c -> P c).
  { induction kb as [|[category keywords] kb IH]; intros b P Hkb Hb; simpl.
    - exact Hb.
    - apply IH; [intros e He; apply Hkb; right; exact He|].
      assert (Hcat : P category) by (apply (Hkb (category, keywords)); left; reflexivity).
      clear IH Hkb. revert b Hb.
      induction keywords as [|k ks IHk]; intros b Hb; simpl; [exact Hb|].
      apply IHk. apply consider_category; assumption. }
  apply (G MERCHANT_CATEGORIES _ (fun c => In c (List.map fst MERCHANT_CATEGORIES))).
  - intros e He. apply in_map. exact He.
  - simpl. discriminate.
Qed.

Lemma normalize_merchant_category (v : value) :
  snd (normalize_merchant v) = u "other"
  \/ In (snd (normalize_merchant v)) (List.map fst MERCHANT_CATEGORIES).
Proof.
  unfold normalize_merchant.
  destruct (negb (truthy v) || negb (isinstance_str v)); [left; reflexivity|].
  destruct v as [|s|b t]; try (left; reflexivity).
  destruct (negb (nonempty (strip s))); [left; reflexivity|].
  cbv zeta.
  destruct (best_match_category (match_merchant (comparison_name (strip s)))) as [c|] eqn:E;
    [|left; reflexivity].
  destruct (best_match_name _) as [n|]; [|left; reflexivity].
  destruct (nonempty c && nonempty n); [|left; reflexivity].
  right. simpl. apply match_merchant_category with (comparison := comparison_name (strip s)).
  exact E.
Qed.

(** C8. [normalize_amount] returns on every argument, and
    [normalize_merchant] is a total function whose category is ["other"]
    or a key of the knowledge base; on an argument that is not a
    non-blank string the three give [None], [None] and
    [("Unknown", "other")]. [normalize_date] does not always return: its
    handler catches [ValueError] and [OverflowError] only, so it returns
    as long as the parser raises nothing else, and any other exception
    that the parser raises on the trimmed string escapes from
    [normalize_date], and from [normalize_transaction] with it. *)
Theorem uncaught_parser_exception :
  (forall v : value, exists r, normalize_amount v = Returns r)
  /\ (forall v : value,
        blank v = true ->
        normalize_date v = Returns None
        /\ normalize_amount v = Returns None
        /\ normalize_merchant v = (u "Unknown", u "other"))
  /\ (forall v : value,
        snd (normalize_merchant v) = u "other"
        \/ In (snd (normalize_merchant v)) (List.map fst MERCHANT_CATEGORIES))
  /\ (parse_contract -> forall v : value, exists r, normalize_date v = Returns r)
  /\ (forall (s : str) (e : exn),
        nonempty (strip s) = true ->
        date_parser_parse (strip s) false = Raises e ->
        e <> ValueError -> e <> OverflowError ->
        normalize_date (VStr s) = Raises e
        /\ forall merchant amount : value,
            normalize_transaction (VStr s) merchant amount = Raises e).
Proof.
  split; [exact normalize_amount_returns|].
  split; [exact blank_gives_up|].
  split; [exact normalize_merchant_category|].
  split; [intros Hc v; apply normalize_date_returns, Hc|].
  intros s e Hs Hp Hv Ho.
  assert (Hd : normalize_date (VStr s) = Raises e).
  { unfold normalize_date. simpl truthy. simpl isinstance_str.
    destruct s as [|c r]; [discriminate|]. cbn [nonempty negb orb].
    rewrite Hs. cbn [negb]. rewrite Hp. cbn [bind try_except].
    destruct e; try reflexivity; contradiction. }
  split; [exact Hd|]. intros merchant amount.
  unfold normalize_transaction. rewrite Hd. reflexivity.
Qed.

(** ** Records *)

(** C1. In the record that [normalize_transaction] returns, for any
    three arguments, [is_valid] holds exactly when the normalized date
    and the normalized amount are both present, and [errors] is empty
    exactly when [is_valid] holds. *)
Theorem normalize_transaction_invariants
    (date merchant amount : value) (r : normalized) :
  normalize_transaction date merchant amount = Returns r ->
  (is_valid r = true <->
   normalized_date r <> None /\ normalized_amount r <> None)
  /\ (errors r = [] <-> is_valid r = true).
Proof.
  unfold normalize_transaction.
  destruct (normalize_date date) as [d|e]; [|discriminate]. cbn [bind].
  destruct (normalize_merchant merchant) as [name cat].
  destruct (normalize_amount amount) as [a|e]; [|discriminate]. cbn [bind].
  intros [= <-].
  destruct d as [d|], a as [a|]; cbn; split; split; intros H;
    try reflexivity; try discriminate; try (split; discriminate);
    try (destruct H as [H1 H2]; congruence).
Qed.

(** ** Amounts: the range policy *)

Section DecimalFacts.

Local Open Scope Z_scope.

Lemma ndigits_fuel_lower (fuel : nat) (n : N) :
  (n <> 0)%N -> 10 ^ (Z.of_nat (ndigits_fuel fuel n) - 1) <= Z.of_N n.
Proof.
  revert n. induction fuel as [|f IH]; intros n Hn; simpl ndigits_fuel.
  - simpl. lia.
  - destruct (N.ltb_spec n 10) as [Hlt|Hge].
    + simpl. lia.
    + assert (Hq : (n / 10 <> 0)%N).
      { intros H0. apply N.div_small_iff in H0; lia. }
      specialize (IH _ Hq).
      replace (Z.of_nat (S (ndigits_fuel f (n / 10))) - 1)
        with (1 + (Z.of_nat (ndigits_fuel f (n / 10)) - 1)) by lia.
      assert (0 <= Z.of_nat (ndigits_fuel f (n / 10)) - 1).
      { destruct f; simpl; [lia|]. destruct (n / 10 <? 10)%N; lia. }
      rewrite Z.pow_add_r by lia. change (10 ^ 1) with 10.
      pose proof (N.Div0.mul_div_le n 10) as Hm.
      rewrite N2Z.inj_div in IH.
      pose proof (Z.mul_div_le (Z.of_N n) 10 ltac:(lia)). simpl Z.of_N in *. lia.
Qed.

Lemma ndigits_lower (n : N) :
  (n <> 0)%N -> 10 ^ (Z.of_nat (ndigits n) - 1) <= Z.of_N n.
Proof. apply ndigits_fuel_lower. Qed.

Lemma ndigits_pos (n : N) : (1 <= ndigits n)%nat.
Proof.
  unfold ndigits. destruct (N.to_nat (N.size n)); simpl; [lia|].
  destruct (n <? 10)%N; lia.
Qed.

Lemma ndigits_large (n : N) (k : Z) :
  0 <= k -> k < Z.of_nat (ndigits n) -> 1 < Z.of_nat (ndigits n) ->
  10 ^ k <= Z.of_N n.
Proof.
  intros Hk Hlt Hone.
  assert (Hn : (n <> 0)%N).
  { intros ->. vm_compute in Hone. discriminate. }
  pose proof (ndigits_lower n Hn).
  assert (10 ^ k <= 10 ^ (Z.of_nat (ndigits n) - 1)) by (apply Z.pow_le_mono_r; lia).
  lia.
Qed.

Lemma round_half_even_lower (n : N) (k : Z) :
  (n / Z.to_N (10 ^ k) <= round_half_even n k)%N.
Proof.
  unfold round_half_even. cbv zeta.
  destruct (_ ?= _)%N; [destruct (N.even _)| |]; lia.
Qed.

Lemma rescale_exp (d : Decimal) (e : Z) : dexp (rescale d e) = e.
Proof.
  unfold rescale. destruct (dcoeff d =? 0)%N; [reflexivity|].
  destruct (e <=? dexp d); reflexivity.
Qed.

Lemma rescale_sign (d : Decimal) (e : Z) : dsign (rescale d e) = dsign d.
Proof.
  unfold rescale. destruct (dcoeff d =? 0)%N; [reflexivity|].
  destruct (e <=? dexp d); reflexivity.
Qed.

(** A number with too many digits for the context is far out of range. *)
Lemma rescale_large (d : Decimal) :
  (dcoeff d <> 0)%N -> prec < adjusted d - (-2) + 1 ->
  10 ^ 28 <= Z.of_N (dcoeff (rescale d (-2))).
Proof.
  unfold prec, adjusted, rescale. intros Hn Hadj.
  destruct (N.eqb_spec (dcoeff d) 0) as [H0|_]; [contradiction|].
  pose proof (ndigits_lower _ Hn) as Hlow.
  pose proof (ndigits_pos (dcoeff d)) as Hpos.
  set (nd := Z.of_nat (ndigits (dcoeff d))) in *.
  destruct (Z.leb_spec (-2) (dexp d)) as [Hle|Hgt]; simpl dcoeff.
  - rewrite N2Z.inj_mul, Z2N.id by (apply Z.pow_nonneg; lia).
    assert (10 ^ 28 <= 10 ^ ((nd - 1) + (dexp d - -2))) by (apply Z.pow_le_mono_r; lia).
    rewrite Z.pow_add_r in H by lia.
    assert (0 < 10 ^ (dexp d - -2)) by (apply Z.pow_pos_nonneg; lia).
    nia.
  - pose proof (round_half_even_lower (dcoeff d) (-2 - dexp d)) as Hr.
    apply N2Z.inj_le in Hr. rewrite N2Z.inj_div in Hr.
    rewrite Z2N.id in Hr by (apply Z.pow_nonneg; lia).
    assert (0 < 10 ^ (-2 - dexp d)) by (apply Z.pow_pos_nonneg; lia).
    assert (10 ^ (28 + (-2 - dexp d)) <= 10 ^ (nd - 1)) by (apply Z.pow_le_mono_r; lia).
    rewrite Z.pow_add_r in H0 by lia.
    assert (10 ^ 28 <= Z.of_N (dcoeff d) / 10 ^ (-2 - dexp d)).
    { apply Z.div_le_lower_bound; [lia|]. lia. }
    lia.
Qed.

Lemma coeff_out_of_range (q : Decimal) :
  10 ^ 28 <= Z.of_N (dcoeff q) -> out_of_range q.
Proof.
  unfold out_of_range, signed_coeff. intros H.
  assert (10 ^ 28 = 10000000000000000000000000000) by reflexivity.
  destruct (dsign q); lia.
Qed.

Lemma quantize_cents_returns (d q : Decimal) :
  quantize_cents d = Returns q -> q = rescale d (-2).
Proof.
  unfold quantize_cents, rescale.
  destruct (dcoeff d =? 0)%N; [congruence|].
  repeat match goal with |- context [if ?b then _ else _] => destruct b end; congruence.
Qed.

Lemma quantize_cents_fails (d : Decimal) (e : exn) :
  quantize_cents d = Raises e -> out_of_range (rescale d (-2)).
Proof.
  unfold quantize_cents. intros H. apply coeff_out_of_range.
  destruct (N.eqb_spec (dcoeff d) 0) as [|Hn]; [discriminate|].
  destruct (Z.ltb_spec Emax (adjusted d)) as [HE|_].
  { apply rescale_large; [exact Hn|]. unfold Emax, prec in *. lia. }
  destruct (Z.ltb_spec prec (adjusted d - -2 + 1)) as [HP|_].
  { apply rescale_large; assumption. }
  cbv zeta in H.
  assert (Hnd : 28 < Z.of_nat (ndigits (dcoeff (rescale d (-2))))).
  { destruct (Z.ltb_spec Emax (adjusted (rescale d (-2)))) as [HE|_].
    - unfold adjusted, Emax in HE. rewrite rescale_exp in HE. lia.
    - destruct (Z.ltb_spec prec (Z.of_nat (ndigits (dcoeff (rescale d (-2)))))) as [HP|_];
        [exact HP | discriminate]. }
  apply ndigits_large; lia.
Qed.

Lemma range_check (q : Decimal) :
  dexp q = -2 ->
  (PyDecimal.lt q (of_Z (-1000000)) || PyDecimal.gt q (of_Z 1000000) = true
   <-> out_of_range q).
Proof.
  intros He. unfold PyDecimal.gt, PyDecimal.lt, scaled, out_of_range.
  rewrite He. cbn -[signed_coeff Z.mul Z.ltb]. 
  change (signed_coeff (of_Z (-1000000))) with (-1000000).
  change (signed_coeff (of_Z 1000000)) with 1000000.
  rewrite orb_true_iff, !Z.ltb_lt.
  change ((-2) `min` 0) with (-2). change (0 `min` (-2)) with (-2).
  change (10 ^ (-2 - -2)) with 1. change (10 ^ (0 - -2)) with 100. lia.
Qed.

End DecimalFacts.

Lemma digit_not_mark (c : char) :
  is_decimal_digit c = true ->
  char_eqb c (chr "-") = false /\ char_eqb c (chr "+") = false
  /\ char_eqb c (chr ".") = false.
Proof.
  intros H. unfold char_eqb.
  repeat split; apply N.eqb_neq; intros ->; vm_compute in H; discriminate.
Qed.

Lemma span_digits_app (ds rest : str) :
  forallb is_decimal_digit ds = true -> stops rest ->
  span_digits (ds ++ rest) = (ds, rest).
Proof.
  intros Hds Hrest. induction ds as [|c ds IH]; simpl.
  - destruct rest as [|c r]; [reflexivity|]. simpl in *. rewrite Hrest. reflexivity.
  - simpl in Hds. apply andb_true_iff in Hds as [Hc Hds].
    rewrite Hc, (IH Hds). reflexivity.
Qed.

Lemma span_digits_all (ds : str) :
  forallb is_decimal_digit ds = true -> span_digits ds = (ds, []).
Proof.
  intros H. pose proof (span_digits_app ds [] H I) as E.
  rewrite app_nil_r in E. exact E.
Qed.

Lemma span_digits_spec (s a b : str) :
  span_digits s = (a, b) ->
  s = a ++ b /\ forallb is_decimal_digit a = true /\ stops b.
Proof.
  revert a b. induction s as [|c r IH]; intros a b; simpl.
  - intros [= <- <-]. repeat split.
  - destruct (is_decimal_digit c) eqn:Hc.
    + destruct (span_digits r) as [ds rest]. intros [= <- <-].
      destruct (IH ds rest eq_refl) as (-> & Hds & Hst).
      simpl. rewrite Hc, Hds. repeat split. exact Hst.
    + intros [= <- <-]. simpl. repeat split. exact Hc.
Qed.

Lemma search_number_shape (s m : str) :
  search_number s = Some m -> numeric_shape m.
Proof.
  induction s as [|c r IH]; simpl; [discriminate|].
  destruct (is_decimal_digit c) eqn:Hc; [|exact IH].
  destruct (span_digits r) as [ds rest] eqn:Er.
  destruct (span_digits_spec _ _ _ Er) as (_ & Hds & _).
  assert (Hip : forallb is_decimal_digit (c :: ds) = true) by (simpl; rewrite Hc; exact Hds).
  intros [= <-].
  destruct rest as [|d r']; [exists (c :: ds), []; repeat split; auto; discriminate|].
  destruct (char_eqb d (chr ".")) eqn:Hd.
  - apply N.eqb_eq in Hd. subst d.
    destruct (span_digits r') as [fp rest'] eqn:Ef.
    destruct (span_digits_spec _ _ _ Ef) as (_ & Hfp & _).
    exists (c :: ds), fp. simpl fst. repeat split; auto; discriminate.
  - exists (c :: ds), []. repeat split; auto; discriminate.
Qed.

Lemma Decimal_of_str_shape (m : str) (negative : bool) :
  numeric_shape m ->
  exists d, Decimal_of_str (if negative then chr "-" :: m else m) = Returns d
            /\ dsign d = negative.
Proof.
  intros (ip & fp & Hne & Hip & Hfp & Hm).
  destruct ip as [|c ip']; [contradiction|].
  assert (Hc : is_decimal_digit c = true) by (simpl in Hip; apply andb_true_iff in Hip; propositional).
  destruct (digit_not_mark c Hc) as (Hminus & Hplus & _).
  assert (Hbody : exists d,
             (let (intpart, rest) := span_digits m in
              let (fracpart, rest') :=
                match rest with
                | c :: r => if char_eqb c (chr ".") then span_digits r else ([], rest)
                | [] => ([], [])
                end in
              match rest', intpart ++ fracpart with
              | [], _ :: _ =>
                  Returns (mkDecimal negative (int_of_digits (intpart ++ fracpart))
                             (- Z.of_nat (length fracpart)))
              | _, _ => Raises InvalidOperation
              end) = Returns d /\ dsign d = negative).
  { destruct Hm as [-> | ->].
    - rewrite span_digits_all by exact Hip. simpl. eauto.
    - rewrite span_digits_app by (auto; reflexivity).
      change (char_eqb (chr ".") (chr ".")) with true. cbv iota.
      rewrite span_digits_all by exact Hfp. simpl. eauto. }
  unfold Decimal_of_str. destruct negative.
  - change (char_eqb (chr "-") (chr "-")) with true. cbv iota. exact Hbody.
  - destruct Hm as [-> | ->]; cbn [app]; cbv iota; rewrite Hminus, Hplus; exact Hbody.
Qed.

Lemma normalize_amount_str (s : str) :
  normalize_amount (VStr s)
  = match numeric_string s with
    | Some ns => convert_amount ns
    | None => Returns None
    end.
Proof.
  unfold normalize_amount, numeric_string. simpl truthy. simpl isinstance_str.
  destruct s as [|c r]; [reflexivity|]. cbn [nonempty negb orb].
  destruct (nonempty (strip (c :: r))); cbn [negb]; [|reflexivity].
  destruct (search_number _); reflexivity.
Qed.

Lemma numeric_string_parses (s ns : str) :
  numeric_string s = Some ns ->
  exists d, Decimal_of_str ns = Returns d /\ dsign d = is_negative s.
Proof.
  unfold numeric_string. destruct (nonempty (strip s)); [|discriminate].
  destruct (search_number (cleaned_amount s)) as [m|] eqn:E; [|discriminate].
  intros [= <-]. apply Decimal_of_str_shape. eapply search_number_shape, E.
Qed.

Lemma convert_amount_range (ns : str) (d : Decimal) :
  Decimal_of_str ns = Returns d ->
  (out_of_range (rescale d (-2)) -> convert_amount ns = Returns None)
  /\ (~ out_of_range (rescale d (-2)) ->
      convert_amount ns = Returns (Some (rescale d (-2)))).
Proof.
  intros Hd. unfold convert_amount. rewrite Hd. cbn [bind].
  pose proof (range_check (rescale d (-2)) (rescale_exp d (-2))) as Hrange.
  destruct (quantize_cents d) as [q|e] eqn:Hq; cbn [bind].
  - apply quantize_cents_returns in Hq. subst q.
    destruct (_ || _); cbn [try_except]; split; intros H; try reflexivity.
    + exfalso. apply H, Hrange. reflexivity.
    + apply Hrange in H. discriminate.
  - pose proof (quantize_cents_raises _ _ Hq). subst e.
    apply quantize_cents_fails in Hq. cbn [try_except]. split; [reflexivity|].
    intros H. contradiction.
Qed.

Lemma out_of_range_dec (q : Decimal) : {out_of_range q} + {~ out_of_range q}.
Proof.
  unfold out_of_range.
  destruct (Z_lt_dec (signed_coeff q) (-100000000)); [left; propositional|].
  destruct (Z_lt_dec 100000000 (signed_coeff q)); [left; propositional|].
  right. propositional.
Qed.

(** C2. When the input has a number, the value of that number rounded to
    hundredths decides: [normalize_amount] returns [None] exactly when it
    is strictly below -1,000,000.00 or strictly above 1,000,000.00, and
    returns the rounded value otherwise; so exactly 1,000,000.00 and
    -1,000,000.00 are returned, and ["$999999999.99"] gives [None]. *)
Theorem amount_range_policy :
  (forall s ns : str,
      numeric_string s = Some ns ->
      exists d,
        Decimal_of_str ns = Returns d
        /\ (normalize_amount (VStr s) = Returns None
            <-> out_of_range (rescale d (-2)))
        /\ (~ out_of_range (rescale d (-2)) ->
            normalize_amount (VStr s) = Returns (Some (rescale d (-2)))))
  /\ normalize_amount (VStr (u "1000000.00"))
     = Returns (Some (mkDecimal false 100000000 (-2)))
  /\ normalize_amount (VStr (u "-1000000.00"))
     = Returns (Some (mkDecimal true 100000000 (-2)))
  /\ normalize_amount (VStr (u "1000000.01")) = Returns None
  /\ normalize_amount (VStr (u "-1000000.01")) = Returns None
  /\ normalize_amount (VStr (u "$999999999.99")) = Returns None.
Proof.
  split; [|repeat split; vm_compute; reflexivity].
  intros s ns Hns.
  destruct (numeric_string_parses _ _ Hns) as [d [Hd _]].
  exists d. split; [exact Hd|].
  rewrite normalize_amount_str, Hns.
  destruct (convert_amount_range _ _ Hd) as [Hout Hin].
  split; [split|].
  - intros Hnone. destruct (out_of_range_dec (rescale d (-2))) as [H|H]; [exact H|].
    rewrite (Hin H) in Hnone. discriminate.
  - exact Hout.
  - exact Hin.
Qed.

(** ** Amounts: what is stripped, and the sign *)

Lemma in_lstrip (c : char) (s : str) : In c (lstrip s) -> In c s.
Proof.
  induction s as [|x r IH]; simpl; [propositional|].
  destruct (isspace x); [right; auto | auto].
Qed.

Lemma in_strip (c : char) (s : str) : In c (strip s) -> In c s.
Proof.
  unfold strip, rstrip. intros H.
  apply in_lstrip. apply in_rev. apply in_lstrip. apply in_rev. exact H.
Qed.

Lemma in_remove_char (x c : char) (s : str) :
  In c (remove_char x s) <-> In c s /\ c <> x.
Proof.
  unfold remove_char. rewrite filter_In, negb_true_iff. unfold char_eqb.
  rewrite N.eqb_neq. propositional.
Qed.

Lemma in_sub_symbols (c : char) (s : str) :
  In c (sub_symbols s) <-> In c s /\ c <> 8364%N /\ c <> 165%N /\ c <> 163%N.
Proof.
  unfold sub_symbols. rewrite filter_In, negb_true_iff, !orb_false_iff.
  unfold char_eqb. rewrite !N.eqb_neq. propositional.
Qed.

Lemma in_sub_codes (c : char) (s : str) : In c (sub_codes s) -> In c s.
Proof.
  assert (G : forall n s, (length s <= n)%nat -> In c (sub_codes s) -> In c s).
  { induction n as [|n IH]; intros [|a t] Hlen; simpl; try propositional.
    - simpl in Hlen. lia.
    - simpl in Hlen. destruct t as [|b [|c' r]]; try propositional.
      destruct (currency_code a b c').
      + intros H. right. right. right. apply IH; [simpl in *; lia | exact H].
      + intros [H|H]; [left; exact H|]. right. apply IH; [simpl in *; lia | exact H]. }
  apply (G (length s)). lia.
Qed.

Lemma in_unmarked (c : char) (s : str) :
  In c (unmarked s) ->
  In c s /\ c <> 8364%N /\ c <> 165%N /\ c <> 163%N /\ c <> chr "$".
Proof.
  unfold unmarked. intros H.
  apply in_strip, in_sub_codes, in_remove_char in H as [H Hd].
  apply in_sub_symbols in H as (H & ? & ? & ?).
  apply in_strip in H. propositional.
Qed.

Lemma in_cleaned_amount (c : char) (s : str) :
  In c (cleaned_amount s) ->
  In c s /\ c <> 8364%N /\ c <> 165%N /\ c <> 163%N /\ c <> chr "$"
  /\ c <> chr "-" /\ c <> chr ",".
Proof.
  unfold cleaned_amount. cbv zeta. intros H.
  apply in_remove_char in H as [H Hcomma].
  destruct (contains_char (chr "-") (unmarked s)) eqn:Hm.
  - apply in_remove_char in H as [H Hminus].
    apply in_unmarked in H. propositional.
  - assert (c <> chr "-").
    { intros ->. unfold contains_char in Hm.
      assert (existsb (fun x => char_eqb x (chr "-")) (unmarked s) = true); [|congruence].
      apply existsb_exists. exists (chr "-"). split; [exact H|]. apply N.eqb_refl. }
    apply in_unmarked in H. propositional.
Qed.

Lemma normalize_amount_sign (s : str) (q : Decimal) :
  normalize_amount (VStr s) = Returns (Some q) -> dsign q = is_negative s.
Proof.
  rewrite normalize_amount_str.
  destruct (numeric_string s) as [ns|] eqn:Hns; [|discriminate].
  destruct (numeric_string_parses _ _ Hns) as [d [Hd Hsign]].
  destruct (convert_amount_range _ _ Hd) as [Hout Hin].
  destruct (out_of_range_dec (rescale d (-2))) as [H|H].
  - rewrite (Hout H). discriminate.
  - rewrite (Hin H). intros [= <-]. rewrite rescale_sign. exact Hsign.
Qed.

(** ** Amounts: a point before the first digit *)

Lemma numeral_char_cases (c : char) :
  numeral_char c = true ->
  In c [46; 48; 49; 50; 51; 52; 53; 54; 55; 56; 57]%N.
Proof.
  unfold numeral_char, is_ascii_digit, between, char_eqb.
  rewrite orb_true_iff, andb_true_iff, !N.leb_le, N.eqb_eq.
  change (chr ".") with 46%N. intros H. simpl.
  assert (46 = c \/ 48 = c \/ 49 = c \/ 50 = c \/ 51 = c \/ 52 = c \/ 53 = c
          \/ 54 = c \/ 55 = c \/ 56 = c \/ 57 = c)%N by lia.
  propositional.
Qed.

Lemma numeral_char_untouched (c : char) :
  numeral_char c = true -> untouched c = true.
Proof.
  intros H. apply numeral_char_cases in H. simpl in H.
  repeat (destruct H as [<-|H]; [vm_compute; reflexivity|]). contradiction.
Qed.

Lemma filter_all {A} (f : A -> bool) (l : list A) :
  forallb f l = true -> List.filter f l = l.
Proof.
  induction l as [|x l IH]; simpl; [reflexivity|].
  intros H. apply andb_true_iff in H as [Hx Hl]. rewrite Hx, (IH Hl). reflexivity.
Qed.

Lemma forallb_weaken {A} (f g : A -> bool) (l : list A) :
  (forall x, f x = true -> g x = true) -> forallb f l = true -> forallb g l = true.
Proof.
  intros Hfg. rewrite !forallb_forall. auto.
Qed.

Lemma lstrip_no_space (s : str) :
  forallb (fun c => negb (isspace c)) s = true -> lstrip s = s.
Proof.
  destruct s as [|c r]; simpl; [reflexivity|].
  intros H. apply andb_true_iff in H as [Hc _].
  apply negb_true_iff in Hc. rewrite Hc. reflexivity.
Qed.

Lemma strip_no_space (s : str) :
  forallb (fun c => negb (isspace c)) s = true -> strip s = s.
Proof.
  intros H. unfold strip, rstrip. rewrite (lstrip_no_space s H).
  rewrite lstrip_no_space; [apply rev_involutive|].
  rewrite forallb_forall in *. intros c Hc. apply H, in_rev, Hc.
Qed.

Lemma sub_codes_no_letter (s : str) :
  forallb untouched s = true -> sub_codes s = s.
Proof.
  induction s as [|a t IH]; [reflexivity|].
  intros H. simpl in H. apply andb_true_iff in H as [Ha Ht].
  simpl. destruct t as [|b [|c r]]; try reflexivity.
  assert (Hcode : currency_code a b c = false).
  { unfold untouched in Ha. rewrite !andb_true_iff in Ha.
    destruct Ha as [_ Hl]. simpl in Hl. rewrite !andb_true_iff, !negb_true_iff in Hl.
    destruct Hl as (Hu & _ & _ & He & _ & Hg & _ & _ & Hj & _).
    unfold currency_code. rewrite Hu, He, Hg, Hj. reflexivity. }
  rewrite Hcode, (IH Ht). reflexivity.
Qed.

Lemma cleaning_numeral (s : str) :
  forallb numeral_char s = true ->
  strip s = s /\ cleaned_amount s = s /\ is_negative s = false.
Proof.
  intros H.
  assert (Hu : forallb untouched s = true)
    by (eapply forallb_weaken; [apply numeral_char_untouched | exact H]).
  assert (Hpart : forall g : char -> bool,
             (forall c, untouched c = true -> g c = true) -> forallb g s = true)
    by (intros g Hg; eapply forallb_weaken; [exact Hg | exact Hu]).
  assert (Hstrip : strip s = s).
  { apply strip_no_space, Hpart. intros c Hc. unfold untouched in Hc.
    rewrite !andb_true_iff in Hc. propositional. }
  assert (Hunmarked : unmarked s = s).
  { unfold unmarked. rewrite Hstrip. unfold sub_symbols, remove_char.
    rewrite (filter_all _ s)
      by (apply Hpart; intros c Hc; unfold untouched in Hc;
          rewrite !andb_true_iff in Hc; propositional).
    rewrite (filter_all _ s)
      by (apply Hpart; intros c Hc; unfold untouched in Hc;
          rewrite !andb_true_iff in Hc; propositional).
    rewrite sub_codes_no_letter by exact Hu. exact Hstrip. }
  assert (Hminus : contains_char (chr "-") s = false).
  { unfold contains_char. apply not_true_is_false. intros Hex.
    apply existsb_exists in Hex as (c & Hin & Hc).
    rewrite forallb_forall in Hu. specialize (Hu c Hin). unfold untouched in Hu.
    rewrite !andb_true_iff in Hu. destruct Hu as ((((_ & _) & Hm) & _) & _).
    rewrite Hc in Hm. discriminate. }
  split; [exact Hstrip|]. split.
  - unfold cleaned_amount. rewrite Hunmarked, Hminus. unfold remove_char.
    apply filter_all, Hpart. intros c Hc. unfold untouched in Hc.
    rewrite !andb_true_iff in Hc. propositional.
  - unfold is_negative. rewrite Hunmarked, Hminus, Hstrip.
    destruct s as [|c r]; [reflexivity|]. simpl.
    simpl in Hu. apply andb_true_iff in Hu as [Hc _]. unfold untouched in Hc.
    rewrite !andb_true_iff in Hc. destruct Hc as ((((_ & _) & Hm) & _) & _).
    apply negb_true_iff in Hm. exact Hm.
Qed.

Lemma ascii_digit_decimal (c : char) :
  is_ascii_digit c = true -> is_decimal_digit c = true.
Proof.
  intros H. unfold is_decimal_digit, digit_value. rewrite H.
  assert (is_ascii c = true) as ->; [|reflexivity].
  unfold is_ascii_digit, between in H. apply andb_true_iff in H as [_ H].
  apply N.leb_le in H. unfold is_ascii. apply N.ltb_lt. lia.
Qed.

Lemma search_number_skip (pre rest : str) :
  forallb (fun c => negb (is_decimal_digit c)) pre = true ->
  search_number (pre ++ rest) = search_number rest.
Proof.
  induction pre as [|c pre IH]; [reflexivity|].
  intros H. simpl in H. apply andb_true_iff in H as [Hc Hpre].
  apply negb_true_iff in Hc. simpl. rewrite Hc. exact (IH Hpre).
Qed.

Lemma search_number_run (ds rest : str) :
  ds <> [] -> forallb is_decimal_digit ds = true -> stops rest ->
  startswith_char (chr ".") rest = false ->
  search_number (ds ++ rest) = Some ds.
Proof.
  intros Hne Hds Hstop Hpoint. destruct ds as [|c ds]; [contradiction|].
  pose proof (span_digits_app (c :: ds) rest Hds Hstop) as Hspan.
  simpl in Hds. apply andb_true_iff in Hds as [Hc _].
  change ((c :: ds) ++ rest) with (c :: (ds ++ rest)) in *.
  cbn [search_number]. rewrite Hc. rewrite Hspan.
  destruct rest as [|d r]; [reflexivity|].
  simpl in Hpoint. rewrite Hpoint. reflexivity.
Qed.

Lemma Decimal_of_str_digits (ds : str) :
  ds <> [] -> forallb is_decimal_digit ds = true ->
  Decimal_of_str ds = Returns (mkDecimal false (int_of_digits ds) 0).
Proof.
  intros Hne Hds. destruct ds as [|c ds]; [contradiction|].
  assert (Hc : is_decimal_digit c = true) by (simpl in Hds; apply andb_true_iff in Hds; propositional).
  destruct (digit_not_mark c Hc) as (Hminus & Hplus & _).
  unfold Decimal_of_str. rewrite Hminus, Hplus.
  rewrite span_digits_all by exact Hds. simpl. rewrite app_nil_r. reflexivity.
Qed.

Lemma numeric_string_numeral (pre ds : str) :
  forallb numeral_char (pre ++ ds) = true ->
  forallb (fun c => negb (is_decimal_digit c)) pre = true ->
  ds <> [] -> forallb is_decimal_digit ds = true ->
  numeric_string (pre ++ ds) = Some ds.
Proof.
  intros Hnum Hpre Hne Hds.
  destruct (cleaning_numeral _ Hnum) as (Hstrip & Hclean & Hneg).
  unfold numeric_string. rewrite Hstrip, Hclean, Hneg.
  assert (nonempty (pre ++ ds) = true) as ->
    by (destruct pre; [destruct ds; [contradiction|]|]; reflexivity).
  rewrite search_number_skip by exact Hpre.
  rewrite <- (app_nil_r ds) at 1.
  rewrite search_number_run; auto. exact I.
Qed.

Lemma convert_amount_integer (ds : str) :
  ds <> [] -> forallb is_decimal_digit ds = true ->
  convert_amount ds
  = if (int_of_digits ds <=? 1000000)%N
    then Returns (Some (mkDecimal false (int_of_digits ds * 100) (-2)))
    else Returns None.
Proof.
  intros Hne Hds.
  pose proof (Decimal_of_str_digits ds Hne Hds) as Hd.
  destruct (convert_amount_range _ _ Hd) as [Hout Hin].
  set (n := int_of_digits ds) in *.
  assert (Hq : rescale (mkDecimal false n 0) (-2) = mkDecimal false (n * 100) (-2)).
  { unfold rescale. cbn [dcoeff dsign dexp].
    destruct (N.eqb_spec n 0) as [->|_]; [reflexivity|]. reflexivity. }
  rewrite Hq in Hout, Hin.
  assert (Hrange : out_of_range (mkDecimal false (n * 100) (-2)) <-> (1000000 < n)%N).
  { unfold out_of_range, signed_coeff. cbn [dsign dcoeff]. lia. }
  destruct (N.leb_spec n 1000000) as [Hle|Hgt].
  - apply Hin. rewrite Hrange. lia.
  - apply Hout. rewrite Hrange. exact Hgt.
Qed.

(** ** Merchants: the best match *)

Lemma fold_left_flat_map {A B C} (f : A -> C -> A) (g : B -> list C) (l : list B) (a : A) :
  fold_left f (flat_map g l) a = fold_left (fun a e => fold_left f (g e) a) l a.
Proof.
  revert a. induction l as [|e l IH]; intros a; simpl; [reflexivity|].
  rewrite fold_left_app. apply IH.
Qed.

Lemma fold_left_pairs {A} (f : A -> str * str -> A) (c : str) (ks : list str) (a : A) :
  fold_left f (List.map (pair c) ks) a = fold_left (fun a k => f a (c, k)) ks a.
Proof.
  revert a. induction ks as [|k ks IH]; intros a; simpl; [reflexivity|]. apply IH.
Qed.

(** The two loops are one loop over the pairs. *)
Lemma match_merchant_pairs (comparison : str) :
  match_merchant comparison
  = fold_left (fun b p => consider comparison (fst p) b (snd p))
      knowledge_pairs (mkBest None 0 None).
Proof.
  unfold match_merchant, knowledge_pairs. rewrite fold_left_flat_map.
  generalize (mkBest None 0 None).
  induction MERCHANT_CATEGORIES as [|[c ks] kb IH]; intros b; simpl; [reflexivity|].
  rewrite fold_left_pairs. simpl. apply IH.
Qed.

Lemma Qgt_bool_true (x y : Q) : Qgt_bool x y = true <-> (y < x)%Q.
Proof.
  unfold Qgt_bool. rewrite negb_true_iff. split.
  - intros H. apply Qnot_le_lt. intros Hle. apply Qle_bool_iff in Hle. congruence.
  - intros H. apply not_true_is_false. intros Hle. apply Qle_bool_iff in Hle.
    exact (Qlt_not_le _ _ H Hle).
Qed.

Lemma threshold_positive : (0 < FUZZY_MATCH_THRESHOLD)%Q.
Proof. reflexivity. Qed.

Lemma selects_step (comparison : str) (seen : list (str * str)) (b : best_match)
    (x : str * str) :
  selects comparison seen b ->
  selects comparison (seen ++ [x]) (consider comparison (fst x) b (snd x)).
Proof.
  unfold consider. fold (pair_score comparison x).
  intros [[Hnone ->] | (before & p & after & -> & Hq & Hbefore & Hafter & ->)];
    cbn [best_match_score].
  - destruct (Qle_bool FUZZY_MATCH_THRESHOLD (pair_score comparison x)) eqn:Hth.
    + apply Qle_bool_iff in Hth.
      assert (Hpos : Qgt_bool (pair_score comparison x) 0 = true).
      { apply Qgt_bool_true. eapply Qlt_le_trans; [apply threshold_positive | exact Hth]. }
      rewrite Hpos. cbn [andb]. right. exists seen, x, [].
      split; [reflexivity|]. split; [exact Hth|]. split; [|split; [constructor|]].
      * eapply List.Forall_impl; [|exact Hnone]. intros y Hy. cbv beta in Hy.
        eapply Qlt_le_trans; [exact Hy | exact Hth].
      * destruct x; reflexivity.
    + rewrite andb_false_r. left. split; [|reflexivity].
      apply Forall_app. split; [exact Hnone|]. constructor; [|constructor].
      apply Qnot_le_lt. intros Hle. apply Qle_bool_iff in Hle. congruence.
  - destruct (Qgt_bool (pair_score comparison x) (pair_score comparison p)) eqn:Hgt.
    + apply Qgt_bool_true in Hgt.
      assert (Hth : Qle_bool FUZZY_MATCH_THRESHOLD (pair_score comparison x) = true).
      { apply Qle_bool_iff. apply Qlt_le_weak. eapply Qle_lt_trans; [exact Hq | exact Hgt]. }
      rewrite Hth. cbn [andb]. right. exists (before ++ p :: after), x, [].
      split; [reflexivity|]. split; [apply Qle_bool_iff, Hth|].
      split; [|split; [constructor|]].
      * apply Forall_app. split; [|constructor].
        -- eapply List.Forall_impl; [|exact Hbefore]. intros y Hy. cbv beta in Hy.
           eapply Qlt_trans; [exact Hy | exact Hgt].
        -- exact Hgt.
        -- eapply List.Forall_impl; [|exact Hafter]. intros y Hy. cbv beta in Hy.
           eapply Qle_lt_trans; [exact Hy | exact Hgt].
      * destruct x; reflexivity.
    + cbn [andb]. right. exists before, p, (after ++ [x]).
      split; [rewrite <- app_assoc; reflexivity|]. split; [exact Hq|].
      split; [exact Hbefore|]. split; [|reflexivity].
      apply Forall_app. split; [exact Hafter|]. constructor; [|constructor].
      apply Qnot_lt_le. intros Hlt. apply Qgt_bool_true in Hlt. congruence.
Qed.

Lemma selects_fold (comparison : str) (l seen : list (str * str)) (b : best_match) :
  selects comparison seen b ->
  selects comparison (seen ++ l)
    (fold_left (fun b p => consider comparison (fst p) b (snd p)) l b).
Proof.
  revert seen b. induction l as [|x l IH]; intros seen b H; simpl.
  - rewrite app_nil_r. exact H.
  - replace (seen ++ x :: l) with ((seen ++ [x]) ++ l) by (rewrite <- app_assoc; reflexivity).
    apply IH, selects_step, H.
Qed.

Lemma match_merchant_selects (comparison : str) :
  selects comparison knowledge_pairs (match_merchant comparison).
Proof.
  rewrite match_merchant_pairs.
  apply (selects_fold comparison knowledge_pairs []).
  left. split; [constructor | reflexivity].
Qed.

(** Every category and every title-cased keyword is a non-empty string. *)
Lemma knowledge_pairs_truthy (p : str * str) :
  In p knowledge_pairs ->
  nonempty (fst p) = true /\ nonempty (title (snd p)) = true.
Proof.
  intros H.
  assert (G : forallb (fun p => nonempty (fst p) && nonempty (title (snd p)))
                knowledge_pairs = true) by (vm_compute; reflexivity).
  rewrite forallb_forall in G. apply andb_true_iff, G, H.
Qed.

Lemma normalize_merchant_str (s : str) :
  nonempty (strip s) = true ->
  normalize_merchant (VStr s)
  = let b := match_merchant (comparison_name (strip s)) in
    match best_match_category b, best_match_name b with
    | Some best_category, Some best_name =>
        if nonempty best_category && nonempty best_name
        then (best_name, best_category)
        else (unmatched_name (strip s), u "other")
    | _, _ => (unmatched_name (strip s), u "other")
    end.
Proof.
  intros H. unfold normalize_merchant. simpl truthy. simpl isinstance_str.
  destruct s as [|c r]; [discriminate H|]. cbn [nonempty negb orb].
  rewrite H. reflexivity.
Qed.

(** C3. When a pair of the knowledge base scores 85 or more against the
    comparison key of a non-blank merchant string, [normalize_merchant]
    returns the title-cased keyword and the category of one pair of the
    knowledge base that scores 85 or more, strictly more than every pair
    before it in the order of declaration and at least as much as every
    pair after it: the best score wins, and among equal scores the
    first. *)
Theorem best_match_wins (s : str) :
  nonempty (strip s) = true ->
  (exists p, In p knowledge_pairs
             /\ (FUZZY_MATCH_THRESHOLD <= pair_score (comparison_name (strip s)) p)%Q) ->
  exists before p after,
    knowledge_pairs = before ++ p :: after
    /\ (85 <= pair_score (comparison_name (strip s)) p)%Q
    /\ Forall (fun x => (pair_score (comparison_name (strip s)) x
                         < pair_score (comparison_name (strip s)) p)%Q) before
    /\ Forall (fun x => (pair_score (comparison_name (strip s)) x
                         <= pair_score (comparison_name (strip s)) p)%Q) after
    /\ normalize_merchant (VStr s) = (title (snd p), fst p).
Proof.
  intros Hs (p0 & Hin & Hq0).
  destruct (match_merchant_selects (comparison_name (strip s)))
    as [[Hnone _] | (before & p & after & Hsplit & Hq & Hbefore & Hafter & Hb)].
  - exfalso. rewrite List.Forall_forall in Hnone.
    apply (Qlt_not_le _ _ (Hnone p0 Hin)), Hq0.
  - exists before, p, after. repeat (split; [assumption|]).
    rewrite (normalize_merchant_str s Hs). cbv zeta. rewrite Hb.
    cbn [best_match_category best_match_name].
    destruct (knowledge_pairs_truthy p) as [-> ->]; [|reflexivity].
    rewrite Hsplit. apply in_elt.
Qed.

(** C7. When no pair of the knowledge base scores 85 against the
    comparison key of a non-blank merchant string, the category is
    ["other"] and the display name is the trimmed input title-cased when
    it has fewer than 50 characters, and otherwise its first 50
    characters followed by ["..."], 53 characters in all, as for a
    trimmed input of 100 characters. The lengths are those of the
    trimmed input: 60 spaces before 40 letters give a name of 40
    characters. *)
Theorem unmatched_merchant (s : str) :
  nonempty (strip s) = true ->
  Forall (fun p => (pair_score (comparison_name (strip s)) p < FUZZY_MATCH_THRESHOLD)%Q)
    knowledge_pairs ->
  normalize_merchant (VStr s)
  = ((if (length (strip s) <? 50)%nat then title (strip s)
      else slice_to 50 (strip s) ++ u "..."), u "other")
  /\ ((length (strip s) < 50)%nat ->
      fst (normalize_merchant (VStr s)) = title (strip s))
  /\ ((50 <= length (strip s))%nat ->
      fst (normalize_merchant (VStr s)) = firstn 50 (strip s) ++ u "..."
      /\ length (fst (normalize_merchant (VStr s))) = 53%nat)
  /\ (length (strip s) = 100%nat ->
      length (fst (normalize_merchant (VStr s))) = 53%nat
      /\ exists head, fst (normalize_merchant (VStr s)) = head ++ u "..."
                      /\ length head = 50%nat).
Proof.
  intros Hs Hnone.
  assert (Hr : normalize_merchant (VStr s) = (unmatched_name (strip s), u "other")).
  { rewrite (normalize_merchant_str s Hs). cbv zeta.
    destruct (match_merchant_selects (comparison_name (strip s)))
      as [[_ ->] | (before & p & after & Hsplit & Hq & _)]; [reflexivity|].
    exfalso. rewrite List.Forall_forall in Hnone.
    apply (Qlt_not_le _ _ (Hnone p ltac:(rewrite Hsplit; apply in_elt))), Hq. }
  rewrite Hr. unfold unmatched_name, slice_to. cbn [fst].
  assert (Hlong : (50 <= length (strip s))%nat ->
                  length (firstn 50 (strip s) ++ u "...") = 53%nat).
  { intros Hlen. rewrite length_app, length_firstn. simpl length. lia. }
  split; [reflexivity|]. split; [|split].
  - intros Hlt. apply Nat.ltb_lt in Hlt. rewrite Hlt. reflexivity.
  - intros Hge. assert ((length (strip s) <? 50)%nat = false) as -> by (apply Nat.ltb_ge; lia).
    split; [reflexivity | apply Hlong, Hge].
  - intros H100. assert ((length (strip s) <? 50)%nat = false) as -> by (apply Nat.ltb_ge; lia).
    split; [apply Hlong; lia|]. exists (firstn 50 (strip s)). split; [reflexivity|].
    rewrite length_firstn. lia.
Qed.

(** ** Dates *)

Section DateFacts.

Local Open Scope Z_scope.

Lemma digit_char_range (n : Z) : (48 <= digit_char n <= 57)%N.
Proof.
  unfold digit_char. pose proof (Z.mod_pos_bound n 10 ltac:(lia)). lia.
Qed.

Lemma digit_char_ascii_digit (n : Z) : is_ascii_digit (digit_char n) = true.
Proof.
  pose proof (digit_char_range n). unfold is_ascii_digit, between.
  apply andb_true_iff. split; apply N.leb_le; lia.
Qed.

Lemma digit_char_value (n : Z) : Z.of_N (digit_char n) - 48 = n mod 10.
Proof.
  unfold digit_char. pose proof (Z.mod_pos_bound n 10 ltac:(lia)). lia.
Qed.

Lemma digit_char_not_space (n : Z) : isspace (digit_char n) = false.
Proof.
  assert (H : numeral_char (digit_char n) = true)
    by (unfold numeral_char; rewrite digit_char_ascii_digit; reflexivity).
  apply numeral_char_untouched in H. unfold untouched in H.
  rewrite !andb_true_iff in H. destruct H as (((((H & _) & _) & _) & _) & _).
  apply negb_true_iff, H.
Qed.

Lemma strip_iso_form (y m d : Z) : strip (iso_form y m d) = iso_form y m d.
Proof.
  apply strip_no_space. unfold iso_form, strftime_iso. cbn [app forallb year month day].
  rewrite !digit_char_not_space. reflexivity.
Qed.

Lemma numeric_tokens_iso_form (y m d : Z) :
  DateUtil.numeric_tokens (iso_form y m d)
  = Some ([digit_char (y / 1000); digit_char (y / 100); digit_char (y / 10); digit_char y],
          [digit_char (m / 10); digit_char m],
          [digit_char (d / 10); digit_char d]).
Proof.
  unfold iso_form, strftime_iso, DateUtil.numeric_tokens.
  cbn [app year month day DateUtil.span_ascii_digits].
  rewrite !digit_char_ascii_digit.
  change (is_ascii_digit (chr "-")) with false. cbv iota.
  change (char_eqb (chr "-") (chr "-")) with true. cbn [orb].
  cbn [DateUtil.span_ascii_digits]. rewrite !digit_char_ascii_digit.
  change (is_ascii_digit (chr "-")) with false. cbv iota.
  change (char_eqb (chr "-") (chr "-")) with true. cbv iota.
  cbn [DateUtil.span_ascii_digits]. rewrite !digit_char_ascii_digit.
  reflexivity.
Qed.

Lemma int_of_four (y : Z) :
  0 <= y <= 9999 ->
  DateUtil.int_of_ascii_digits
    [digit_char (y / 1000); digit_char (y / 100); digit_char (y / 10); digit_char y] = y.
Proof.
  intros H. unfold DateUtil.int_of_ascii_digits. cbn [fold_left].
  rewrite !digit_char_value. Z.div_mod_to_equations. lia.
Qed.

Lemma int_of_two (m : Z) :
  0 <= m <= 99 ->
  DateUtil.int_of_ascii_digits [digit_char (m / 10); digit_char m] = m.
Proof.
  intros H. unfold DateUtil.int_of_ascii_digits. cbn [fold_left].
  rewrite !digit_char_value. Z.div_mod_to_equations. lia.
Qed.

Lemma parse_iso_form (y m d : Z) :
  0 <= y <= 9999 -> 0 <= m <= 99 -> 0 <= d <= 99 ->
  date_parser_parse (iso_form y m d) false = make_datetime y m d.
Proof.
  intros Hy Hm Hd. unfold date_parser_parse, DateUtil.parse_numeric.
  rewrite numeric_tokens_iso_form.
  unfold DateUtil.ymd_append. cbn [length Nat.ltb Nat.leb bind DateUtil.values
    DateUtil.ystridx DateUtil.century_specified app].
  rewrite (int_of_four y Hy), (int_of_two m Hm), (int_of_two d Hd).
  unfold DateUtil.resolve_ymd. cbn [DateUtil.values DateUtil.ystridx length].
  rewrite bool_decide_eq_true_2 by reflexivity.
  rewrite orb_true_r. cbn [orb andb bind DateUtil.century_specified].
  unfold DateUtil.convertyear. rewrite andb_false_r. reflexivity.
Qed.

Lemma normalize_date_iso_form (y m d : Z) :
  0 <= y <= 9999 -> 0 <= m <= 99 -> 0 <= d <= 99 ->
  normalize_date (VStr (iso_form y m d))
  = if valid_date y m d && (1900 <=? y) && (y <=? current_year + 1)
    then Returns (Some (iso_form y m d))
    else Returns None.
Proof.
  intros Hy Hm Hd. unfold normalize_date.
  assert (truthy (VStr (iso_form y m d)) = true) as -> by reflexivity.
  cbn [isinstance_str negb orb]. rewrite strip_iso_form.
  assert (nonempty (iso_form y m d) = true) as -> by reflexivity.
  cbn [negb]. rewrite (parse_iso_form y m d Hy Hm Hd). unfold make_datetime.
  destruct (valid_date y m d); cbn [bind try_except andb year]; [|reflexivity].
  destruct (Z.ltb_spec y 1900), (Z.ltb_spec (current_year + 1) y),
    (Z.leb_spec 1900 y), (Z.leb_spec y (current_year + 1));
    cbn [orb andb]; try lia; reflexivity.
Qed.

Lemma iso_shaped_form (s : str) :
  iso_shaped s ->
  exists y m d,
    0 <= y <= 9999 /\ 0 <= m <= 99 /\ 0 <= d <= 99 /\ s = iso_form y m d.
Proof.
  forget_parameters.
  intros (y1 & y2 & y3 & y4 & m1 & m2 & d1 & d2 & Hd & ->).
  cbn [forallb] in Hd. unfold is_ascii_digit, between in Hd.
  rewrite !andb_true_iff, !N.leb_le in Hd.
  exists (1000 * (Z.of_N y1 - 48) + 100 * (Z.of_N y2 - 48)
          + 10 * (Z.of_N y3 - 48) + (Z.of_N y4 - 48)),
         (10 * (Z.of_N m1 - 48) + (Z.of_N m2 - 48)),
         (10 * (Z.of_N d1 - 48) + (Z.of_N d2 - 48)).
  repeat (split; [lia|]).
  unfold iso_form, strftime_iso, digit_char. cbn [year month day app].
  repeat f_equal; Z.div_mod_to_equations; lia.
Qed.

(** C4. A string of the form [YYYY-MM-DD] is the [iso_form] of the
    numbers it shows, and [normalize_date] returns it unchanged exactly
    when they are a date of the calendar (the day exists in that month
    of that year, leap years counted) whose year is in
    [1900, current_year + 1], and returns [None] otherwise; so
    ["2023-02-29"], ["2023-13-01"] and ["2023-01-32"] give [None], and
    ["2024-02-29"] is returned as it is from 2023 on. *)
Theorem iso_dates_are_fixed :
  (forall s : str,
      iso_shaped s ->
      exists y m d,
        s = iso_form y m d /\ 0 <= y <= 9999 /\ 0 <= m <= 99 /\ 0 <= d <= 99
        /\ (normalize_date (VStr s) = Returns (Some s)
            <-> valid_date y m d = true /\ 1900 <= y <= current_year + 1)
        /\ (normalize_date (VStr s) = Returns (Some s)
            \/ normalize_date (VStr s) = Returns None))
  /\ normalize_date (VStr (u "2023-02-29")) = Returns None
  /\ (2023 <= current_year ->
      normalize_date (VStr (u "2024-02-29")) = Returns (Some (u "2024-02-29")))
  /\ normalize_date (VStr (u "2023-13-01")) = Returns None
  /\ normalize_date (VStr (u "2023-01-32")) = Returns None.
Proof.
  assert (G : forall y m d,
             0 <= y <= 9999 -> 0 <= m <= 99 -> 0 <= d <= 99 ->
             (normalize_date (VStr (iso_form y m d)) = Returns (Some (iso_form y m d))
              <-> valid_date y m d = true /\ 1900 <= y <= current_year + 1)
             /\ (normalize_date (VStr (iso_form y m d)) = Returns (Some (iso_form y m d))
                 \/ normalize_date (VStr (iso_form y m d)) = Returns None)).
  { intros y m d Hy Hm Hd. rewrite (normalize_date_iso_form y m d Hy Hm Hd).
    destruct (valid_date y m d && (1900 <=? y) && (y <=? current_year + 1)) eqn:E.
    - split; [|left; reflexivity]. split; [intros _ | reflexivity].
      rewrite !andb_true_iff, !Z.leb_le in E. propositional.
    - split; [|right; reflexivity]. split; [discriminate|].
      intros [Hv Hr]. rewrite Hv in E. cbn [andb] in E.
      apply andb_false_iff in E. rewrite !Z.leb_gt in E. lia. }
  split.
  { intros s Hs. destruct (iso_shaped_form s Hs) as (y & m & d & Hy & Hm & Hd & ->).
    exists y, m, d. destruct (G y m d Hy Hm Hd) as [G1 G2].
    split; [reflexivity|]. split; [exact Hy|]. split; [exact Hm|]. split; [exact Hd|].
    split; [exact G1 | exact G2]. }
  split.
  { change (u "2023-02-29") with (iso_form 2023 2 29).
    rewrite normalize_date_iso_form by lia. reflexivity. }
  split.
  { intros Hcy. change (u "2024-02-29") with (iso_form 2024 2 29).
    apply (G 2024 2 29); [lia | lia | lia |]. split; [reflexivity | lia]. }
  split.
  { change (u "2023-13-01") with (iso_form 2023 13 1).
    rewrite normalize_date_iso_form by lia. reflexivity. }
  change (u "2023-01-32") with (iso_form 2023 1 32).
  rewrite normalize_date_iso_form by lia. reflexivity.
Qed.

Lemma normalize_date_str (s : str) :
  nonempty (strip s) = true ->
  normalize_date (VStr s)
  = try_except
      (let! parsed_date := date_parser_parse (strip s) false in
       if (year parsed_date <? 1900) || (current_year + 1 <? year parsed_date)
       then Returns None
       else Returns (Some (strftime_iso parsed_date)))
      (fun e => match e with ValueError | OverflowError => true | _ => false end)
      (Returns None).
Proof.
  intros H. unfold normalize_date. simpl truthy. simpl isinstance_str.
  destruct s as [|c r]; [discriminate H|]. cbn [nonempty negb orb].
  rewrite H. reflexivity.
Qed.

(** Three numbers of which the first two have at most two digits: the
    first is the year above 31, the day above 12, and the month
    otherwise. *)
Lemma parse_year_last (s t1 t2 t3 : str) :
  DateUtil.numeric_tokens s = Some (t1, t2, t3) ->
  (length t1 <= 2)%nat -> (length t2 <= 2)%nat ->
  date_parser_parse s false
  = let a := DateUtil.int_of_ascii_digits t1 in
    let b := DateUtil.int_of_ascii_digits t2 in
    let c := DateUtil.int_of_ascii_digits t3 in
    if 31 <? a
    then make_datetime (DateUtil.convertyear current_year a (2 <? length t3)%nat) b c
    else if 12 <? a then make_datetime (year_of t3) b a
    else make_datetime (year_of t3) a b.
Proof.
  intros Htok H1 H2. unfold date_parser_parse, DateUtil.parse_numeric, year_of.
  rewrite Htok. unfold DateUtil.ymd_append.
  apply Nat.ltb_ge in H1, H2. rewrite H1. cbn [bind DateUtil.values
    DateUtil.ystridx DateUtil.century_specified app].
  rewrite H2. cbn [bind DateUtil.values DateUtil.ystridx DateUtil.century_specified app].
  destruct (2 <? length t3)%nat;
    cbn [bind DateUtil.values DateUtil.ystridx DateUtil.century_specified app];
    unfold DateUtil.resolve_ymd; cbn [DateUtil.values DateUtil.ystridx];
    rewrite bool_decide_eq_false_2 by discriminate;
    cbn [andb]; rewrite !orb_false_r;
    destruct (31 <? DateUtil.int_of_ascii_digits t1);
    [reflexivity | destruct (12 <? DateUtil.int_of_ascii_digits t1); reflexivity
    | reflexivity | destruct (12 <? DateUtil.int_of_ascii_digits t1); reflexivity].
Qed.

Lemma numeric_tokens_nonempty (s : str) (t : str * str * str) :
  DateUtil.numeric_tokens s = Some t -> nonempty s = true.
Proof. destruct s; [discriminate | reflexivity]. Qed.

Lemma normalize_date_parsed (s : str) (y m d : Z) :
  nonempty (strip s) = true ->
  date_parser_parse (strip s) false = make_datetime y m d ->
  valid_date y m d = true -> 1900 <= y <= current_year + 1 ->
  normalize_date (VStr s) = Returns (Some (iso_form y m d)).
Proof.
  intros Hs Hp Hv Hr. rewrite (normalize_date_str s Hs), Hp.
  unfold make_datetime. rewrite Hv. cbn [bind year].
  destruct (Z.ltb_spec y 1900); [lia|].
  destruct (Z.ltb_spec (current_year + 1) y); [lia|]. reflexivity.
Qed.

(** C5. In a date of three numbers whose first two have one or two
    digits, read with [dayfirst=False], the first number is the month
    whenever it is at most 12, also when the second could be a month
    too; it is the day only when it is above 12 (and at most 31). So
    ["01/15/2023"] and ["03/04/2023"] are January 15 and March 4, and
    ["15/01/2023"] is January 15. *)
Theorem month_first_unless_impossible :
  (forall s t1 t2 t3 : str,
      DateUtil.numeric_tokens (strip s) = Some (t1, t2, t3) ->
      (length t1 <= 2)%nat -> (length t2 <= 2)%nat ->
      let a := DateUtil.int_of_ascii_digits t1 in
      let b := DateUtil.int_of_ascii_digits t2 in
      (a <= 12 ->
       date_parser_parse (strip s) false = make_datetime (year_of t3) a b)
      /\ (12 < a <= 31 ->
          date_parser_parse (strip s) false = make_datetime (year_of t3) b a)
      /\ (1 <= a <= 12 -> 1 <= b <= 12 ->
          1900 <= year_of t3 <= current_year + 1 -> year_of t3 <= 9999 ->
          normalize_date (VStr s) = Returns (Some (iso_form (year_of t3) a b)))
      /\ (12 < a <= 31 -> valid_date (year_of t3) b a = true ->
          1900 <= year_of t3 <= current_year + 1 ->
          normalize_date (VStr s) = Returns (Some (iso_form (year_of t3) b a))))
  /\ (2022 <= current_year ->
      normalize_date (VStr (u "01/15/2023")) = Returns (Some (u "2023-01-15"))
      /\ normalize_date (VStr (u "03/04/2023")) = Returns (Some (u "2023-03-04"))
      /\ normalize_date (VStr (u "15/01/2023")) = Returns (Some (u "2023-01-15"))
      /\ normalize_date (VStr (u "15-01-2023")) = Returns (Some (u "2023-01-15"))
      /\ normalize_date (VStr (u "01-15-2023")) = Returns (Some (u "2023-01-15"))).
Proof.
  assert (G : forall s t1 t2 t3 : str,
      DateUtil.numeric_tokens (strip s) = Some (t1, t2, t3) ->
      (length t1 <= 2)%nat -> (length t2 <= 2)%nat ->
      let a := DateUtil.int_of_ascii_digits t1 in
      let b := DateUtil.int_of_ascii_digits t2 in
      (a <= 12 ->
       date_parser_parse (strip s) false = make_datetime (year_of t3) a b)
      /\ (12 < a <= 31 ->
          date_parser_parse (strip s) false = make_datetime (year_of t3) b a)
      /\ (1 <= a <= 12 -> 1 <= b <= 12 ->
          1900 <= year_of t3 <= current_year + 1 -> year_of t3 <= 9999 ->
          normalize_date (VStr s) = Returns (Some (iso_form (year_of t3) a b)))
      /\ (12 < a <= 31 -> valid_date (year_of t3) b a = true ->
          1900 <= year_of t3 <= current_year + 1 ->
          normalize_date (VStr s) = Returns (Some (iso_form (year_of t3) b a)))).
  { intros s t1 t2 t3 Htok H1 H2 a b.
    pose proof (parse_year_last _ _ _ _ Htok H1 H2) as Hp. cbv zeta in Hp.
    fold a b in Hp.
    pose proof (numeric_tokens_nonempty _ _ Htok) as Hs.
    assert (Hmonth : a <= 12 ->
              date_parser_parse (strip s) false = make_datetime (year_of t3) a b).
    { intros Ha. rewrite Hp.
      destruct (Z.ltb_spec 31 a); [lia|]. destruct (Z.ltb_spec 12 a); [lia|]. reflexivity. }
    assert (Hday : 12 < a <= 31 ->
              date_parser_parse (strip s) false = make_datetime (year_of t3) b a).
    { intros Ha. rewrite Hp.
      destruct (Z.ltb_spec 31 a); [lia|]. destruct (Z.ltb_spec 12 a); [|lia]. reflexivity. }
    split; [exact Hmonth|]. split; [exact Hday|]. split.
    - intros Ha Hb Hy Hmax. apply normalize_date_parsed; auto; [apply Hmonth; lia|].
      unfold valid_date, days_in_month.
      repeat match goal with |- context [if ?c then _ else _] => destruct c end;
        rewrite !andb_true_iff, !Z.leb_le; lia.
    - intros Ha Hv Hy. apply normalize_date_parsed; auto. }
  split; [exact G|].
  intros Hcy.
  repeat split.
  - apply (normalize_date_parsed (u "01/15/2023") 2023 1 15); [reflexivity | | reflexivity | lia].
    apply (proj1 (G (u "01/15/2023") (u "01") (u "15") (u "2023") eq_refl
                    ltac:(simpl; lia) ltac:(simpl; lia))). vm_compute. discriminate.
  - apply (normalize_date_parsed (u "03/04/2023") 2023 3 4); [reflexivity | | reflexivity | lia].
    apply (proj1 (G (u "03/04/2023") (u "03") (u "04") (u "2023") eq_refl
                    ltac:(simpl; lia) ltac:(simpl; lia))). vm_compute. discriminate.
  - apply (normalize_date_parsed (u "15/01/2023") 2023 1 15); [reflexivity | | reflexivity | lia].
    apply (proj1 (proj2 (G (u "15/01/2023") (u "15") (u "01") (u "2023") eq_refl
                    ltac:(simpl; lia) ltac:(simpl; lia)))). vm_compute. split; [reflexivity | discriminate].
  - apply (normalize_date_parsed (u "15-01-2023") 2023 1 15); [reflexivity | | reflexivity | lia].
    apply (proj1 (proj2 (G (u "15-01-2023") (u "15") (u "01") (u "2023") eq_refl
                    ltac:(simpl; lia) ltac:(simpl; lia)))). vm_compute. split; [reflexivity | discriminate].
  - apply (normalize_date_parsed (u "01-15-2023") 2023 1 15); [reflexivity | | reflexivity | lia].
    apply (proj1 (G (u "01-15-2023") (u "01") (u "15") (u "2023") eq_refl
                    ltac:(simpl; lia) ltac:(simpl; lia))). vm_compute. discriminate.
Qed.

End DateFacts.

(** * Further properties of [normalizer.py] *)

Section MoreNormalizerFacts.

Local Open Scope Z_scope.

(** What [normalize_amount] returns is a rounding to hundredths that is
    in the range. *)
Lemma normalize_amount_result (v : value) (q : Decimal) :
  normalize_amount v = Returns (Some q) ->
  dexp q = (-2)%Z /\ ~ out_of_range q.
Proof.
  destruct v as [|s|b t].
  - discriminate.
  - rewrite normalize_amount_str.
    destruct (numeric_string s) as [ns|] eqn:Hns; [|discriminate].
    destruct (numeric_string_parses _ _ Hns) as [d [Hd _]].
    destruct (convert_amount_range _ _ Hd) as [Hout Hin].
    destruct (out_of_range_dec (rescale d (-2))) as [H|H].
    + rewrite (Hout H). discriminate.
    + rewrite (Hin H). intros [= <-]. split; [apply rescale_exp|exact H].
  - unfold normalize_amount. simpl. rewrite orb_true_r. discriminate.
Qed.

(** X1. Whatever its argument, an amount that [normalize_amount] returns
    has exactly two decimals and lies between -1,000,000.00 and
    1,000,000.00. *)
Theorem normalize_amount_two_places (v : value) (q : Decimal) :
  normalize_amount v = Returns (Some q) ->
  dexp q = -2 /\ -100000000 <= signed_coeff q <= 100000000.
Proof.
  intros H. apply normalize_amount_result in H as [He Hrange].
  split; [exact He|]. unfold out_of_range in Hrange. lia.
Qed.

Lemma iso_shaped_strftime (d : datetime) : iso_shaped (strftime_iso d).
Proof.
  forget_parameters. unfold iso_shaped, strftime_iso. cbn [app].
  do 8 eexists. split; [|reflexivity].
  cbn [forallb]. rewrite !digit_char_ascii_digit. reflexivity.
Qed.

Lemma normalize_date_parsed_inv (v : value) (s : str) :
  normalize_date v = Returns (Some s) ->
  exists s0 d,
    v = VStr s0 /\ date_parser_parse (strip s0) false = Returns d
    /\ s = strftime_iso d /\ 1900 <= year d <= current_year + 1.
Proof.
  unfold normalize_date.
  destruct (negb (truthy v) || negb (isinstance_str v)); [discriminate|].
  destruct v as [|s0|b t]; try discriminate.
  destruct (negb (nonempty (strip s0))); [discriminate|].
  destruct (date_parser_parse (strip s0) false) as [d|e] eqn:Hp; cbn [bind try_except].
  - destruct (Z.ltb_spec (year d) 1900); cbn [orb]; [discriminate|].
    destruct (Z.ltb_spec (current_year + 1) (year d)); [discriminate|].
    intros [= <-]. exists s0, d. repeat split; auto; lia.
  - destruct e; discriminate.
Qed.

(** X2. A date that [normalize_date] returns has the form [YYYY-MM-DD],
    four digits, a hyphen, two digits, a hyphen and two digits, and is
    the rendering of a parsed date whose year is in
    [1900, current_year + 1]. *)
Theorem normalize_date_canonical (v : value) (s : str) :
  normalize_date v = Returns (Some s) ->
  iso_shaped s
  /\ length s = 10%nat
  /\ exists d, s = strftime_iso d /\ 1900 <= year d <= current_year + 1.
Proof.
  intros H. apply normalize_date_parsed_inv in H as (s0 & d & _ & _ & -> & Hy).
  split; [apply iso_shaped_strftime|]. split; [reflexivity|]. eauto.
Qed.

Lemma parse_numeric_valid (s : str) (df : bool) (d : datetime) :
  DateUtil.parse_numeric current_year s df = Some (Returns d) ->
  valid_date (year d) (month d) (day d) = true.
Proof.
  unfold DateUtil.parse_numeric.
  destruct (DateUtil.numeric_tokens s) as [[[t1 t2] t3]|]; [|discriminate].
  intros [= H].
  destruct (DateUtil.ymd_append _ t1) as [y1|]; [|discriminate]. cbn [bind] in H.
  destruct (DateUtil.ymd_append y1 t2) as [y2|]; [|discriminate]. cbn [bind] in H.
  destruct (DateUtil.ymd_append y2 t3) as [y3|]; [|discriminate]. cbn [bind] in H.
  destruct (DateUtil.resolve_ymd y3 false df) as [[[yr mo] dy]|]; [|discriminate].
  cbn [bind] in H. unfold make_datetime in H.
  destruct (valid_date _ mo dy) eqn:Hv; [|discriminate].
  injection H as <-. exact Hv.
Qed.

Lemma valid_date_bounds (y m d : Z) :
  valid_date y m d = true -> 1 <= y <= 9999 /\ 1 <= m <= 12 /\ 1 <= d <= 31.
Proof.
  forget_parameters. unfold valid_date, days_in_month.
  rewrite !andb_true_iff, !Z.leb_le.
  repeat match goal with |- context [if ?c then _ else _] => destruct c end; lia.
Qed.

(** A date that [normalize_date] returns is the text of a date of the
    calendar in the accepted range. *)
Lemma normalize_date_parsed_valid (v : value) (s : str) :
  parse_valid ->
  normalize_date v = Returns (Some s) ->
  exists d,
    s = strftime_iso d /\ valid_date (year d) (month d) (day d) = true
    /\ 1900 <= year d <= current_year + 1.
Proof.
  intros Hvalid H.
  apply normalize_date_parsed_inv in H as (s0 & d & _ & Hp & -> & Hy).
  exists d. split; [reflexivity|]. split; [|exact Hy].
  unfold date_parser_parse in Hp.
  destruct (DateUtil.parse_numeric current_year (strip s0) false) as [r|] eqn:E.
  - subst r. eapply parse_numeric_valid, E.
  - eapply Hvalid, Hp.
Qed.

(** The text of such a date is normalized to itself. *)
Lemma normalize_date_of_valid (d : datetime) :
  valid_date (year d) (month d) (day d) = true ->
  1900 <= year d <= current_year + 1 ->
  normalize_date (VStr (strftime_iso d)) = Returns (Some (strftime_iso d)).
Proof.
  intros Hv Hy.
  destruct (valid_date_bounds _ _ _ Hv) as (Hyb & Hm & Hd).
  replace (strftime_iso d) with (iso_form (year d) (month d) (day d))
    by (destruct d; reflexivity).
  rewrite normalize_date_iso_form by lia. rewrite Hv.
  destruct (Z.leb_spec 1900 (year d)); [|lia].
  destruct (Z.leb_spec (year d) (current_year + 1)); [|lia]. reflexivity.
Qed.

(** X3. [normalize_date] is idempotent: a date it returns is returned
    unchanged when it is normalized again, the parser handing out dates
    of the calendar only. *)
Theorem normalize_date_idempotent (v : value) (s : str) :
  parse_valid ->
  normalize_date v = Returns (Some s) ->
  normalize_date (VStr s) = Returns (Some s).
Proof.
  intros Hvalid H.
  destruct (normalize_date_parsed_valid v s Hvalid H) as (d & -> & Hv & Hy).
  apply normalize_date_of_valid; assumption.
Qed.

(** The fields of a record, read off the three results. *)
Lemma normalize_transaction_fields (date merchant amount : value) (r : normalized) :
  normalize_transaction date merchant amount = Returns r ->
  exists d a,
    normalize_date date = Returns d /\ normalize_amount amount = Returns a
    /\ r = mkNormalized date merchant amount d
             (Some (fst (normalize_merchant merchant)))
             (Some (snd (normalize_merchant merchant))) a
             (negb (is_None d) && negb (is_None a))
             ((if is_None d then [u "Invalid date: " ++ format date] else [])
              ++ (if is_None a then [u "Invalid amount: " ++ format amount] else [])).
Proof.
  unfold normalize_transaction.
  destruct (normalize_date date) as [d|e]; [|discriminate]. cbn [bind].
  destruct (normalize_merchant merchant) as [name cat].
  destruct (normalize_amount amount) as [a|e]; [|discriminate]. cbn [bind].
  intros [= <-]. exists d, a. split; [reflexivity|]. split; [reflexivity|].
  destruct d, a; reflexivity.
Qed.

(** X4. The record of [normalize_transaction] keeps its three arguments
    as they were given, always has a merchant name and a category, those
    of [normalize_merchant], and carries at most two messages: the one
    on the date, with the raw date in it, when there is no date, then
    the one on the amount when there is no amount. *)
Theorem normalize_transaction_record (date merchant amount : value) (r : normalized) :
  normalize_transaction date merchant amount = Returns r ->
  raw_date r = date /\ raw_merchant r = merchant /\ raw_amount r = amount
  /\ normalized_merchant r = Some (fst (normalize_merchant merchant))
  /\ category r = Some (snd (normalize_merchant merchant))
  /\ normalize_date date = Returns (normalized_date r)
  /\ normalize_amount amount = Returns (normalized_amount r)
  /\ errors r
     = (if is_None (normalized_date r) then [u "Invalid date: " ++ format date] else [])
       ++ (if is_None (normalized_amount r)
           then [u "Invalid amount: " ++ format amount] else [])
  /\ (length (errors r) <= 2)%nat.
Proof.
  intros H. apply normalize_transaction_fields in H as (d & a & Hd & Ha & ->).
  cbn [raw_date raw_merchant raw_amount normalized_merchant category
       normalized_date normalized_amount errors].
  repeat (split; [first [reflexivity | assumption]|]).
  destruct d, a; simpl; lia.
Qed.

Lemma count_where_app {A} (p : A -> bool) (l1 l2 : list A) :
  count_where p (l1 ++ l2) = count_where p l1 + count_where p l2.
Proof.
  unfold count_where. rewrite List.filter_app, length_app. lia.
Qed.

(** X5. On a batch of records of [normalize_transaction], the statistics
    fit together: a record is counted invalid exactly when it lacks a
    date or an amount, so that the invalid count lies between each of
    the two error counts and their sum, and the two error counts add up
    to the number of messages on the records. *)
Theorem stats_of_normalized_records (records : list normalized) :
  Forall normalized_output records ->
  let s := get_normalization_stats records in
  invalid_transactions s
  = count_where (fun r => is_None (normalized_date r) || is_None (normalized_amount r))
      records
  /\ date_errors s <= invalid_transactions s
  /\ amount_errors s <= invalid_transactions s
  /\ invalid_transactions s <= date_errors s + amount_errors s
  /\ date_errors s + amount_errors s = count_errors records.
Proof.
  intros Hall. cbv zeta. unfold get_normalization_stats.
  cbn [invalid_transactions date_errors amount_errors]. rewrite !sum_if_count.
  induction Hall as [|r records (date & merchant & amount & Hr) _ IH].
  - unfold count_where. simpl. lia.
  - apply normalize_transaction_fields in Hr as (d & a & _ & _ & ->).
    rewrite !count_where_cons. cbn [length count_errors fold_right].
    fold (count_errors records).
    cbn [is_valid normalized_date normalized_amount errors].
    pose proof (count_where_le is_valid records).
    destruct d, a; cbn [is_None negb andb orb app length]; lia.
Qed.

End MoreNormalizerFacts.

(** ** [str.strip] *)

Section StripFacts.

Lemma lstrip_decompose (s : str) :
  exists l, s = l ++ lstrip s /\ forallb isspace l = true.
Proof.
  forget_parameters. induction s as [|c r (l & Hl & Hsp)]; simpl.
  - exists []. split; reflexivity.
  - destruct (isspace c) eqn:Hc.
    + exists (c :: l). simpl. rewrite Hc, Hsp. split; [f_equal; exact Hl | reflexivity].
    + exists []. split; reflexivity.
Qed.

Lemma lstrip_head (s : str) :
  match lstrip s with
  | [] => True
  | c :: _ => isspace c = false
  end.
Proof.
  forget_parameters. induction s as [|c r IH]; simpl; [exact I|].
  destruct (isspace c) eqn:Hc; [exact IH | exact Hc].
Qed.

Lemma lstrip_fixed (s : str) :
  match s with [] => True | c :: _ => isspace c = false end -> lstrip s = s.
Proof.
  forget_parameters. destruct s as [|c r]; simpl; [reflexivity|]. intros ->. reflexivity.
Qed.

Lemma rstrip_decompose (s : str) :
  exists r, s = rstrip s ++ r /\ forallb isspace r = true.
Proof.
  forget_parameters. unfold rstrip.
  destruct (lstrip_decompose (rev s)) as (l & Hl & Hsp).
  exists (rev l). split.
  - rewrite <- rev_app_distr, <- Hl, rev_involutive. reflexivity.
  - rewrite forallb_forall in *. intros c Hc. apply Hsp, in_rev, Hc.
Qed.

Lemma rstrip_last (s : str) : ends_clean (rstrip s).
Proof.
  forget_parameters. unfold ends_clean, rstrip. rewrite rev_involutive. apply lstrip_head.
Qed.

Lemma rstrip_fixed (s : str) : ends_clean s -> rstrip s = s.
Proof.
  forget_parameters. unfold ends_clean, rstrip. intros H.
  rewrite (lstrip_fixed _ H). apply rev_involutive.
Qed.

Lemma strip_decompose (s : str) :
  exists l r,
    s = l ++ strip s ++ r /\ forallb isspace l = true /\ forallb isspace r = true.
Proof.
  forget_parameters. unfold strip.
  destruct (lstrip_decompose s) as (l & Hl & Hsl).
  destruct (rstrip_decompose (lstrip s)) as (r & Hr & Hsr).
  exists l, r. split; [|split; assumption]. rewrite <- Hr. exact Hl.
Qed.

Lemma strip_head (s : str) :
  match strip s with [] => True | c :: _ => isspace c = false end.
Proof.
  forget_parameters. unfold strip.
  destruct (rstrip_decompose (lstrip s)) as (r & Hr & _).
  pose proof (lstrip_head s) as Hh. rewrite Hr in Hh.
  destruct (rstrip (lstrip s)); [exact I | exact Hh].
Qed.

(** [strip] is idempotent. *)
Lemma strip_strip (s : str) : strip (strip s) = strip s.
Proof.
  forget_parameters. unfold strip at 1.
  rewrite (lstrip_fixed _ (strip_head s)).
  apply rstrip_fixed. unfold strip. apply rstrip_last.
Qed.

Lemma strip_map (f : char -> char) (s : str) :
  (forall c, isspace (f c) = isspace c) ->
  strip (List.map f s) = List.map f (strip s).
Proof.
  forget_parameters. intros Hf.
  assert (L : forall t, lstrip (List.map f t) = List.map f (lstrip t)).
  { induction t as [|c r IH]; simpl; [reflexivity|]. rewrite Hf.
    destruct (isspace c); [exact IH | reflexivity]. }
  unfold strip, rstrip. rewrite L, <- map_rev, L, <- map_rev. reflexivity.
Qed.

End StripFacts.

(** ** Merchants: the comparison key *)

Section KeyFacts.

Lemma sub_special_plain (s : str) : forallb plain_cased (sub_special s) = true.
Proof.
  forget_parameters. apply forallb_forall. intros c Hc.
  apply filter_In in Hc as [_ Hc]. unfold plain_cased.
  apply orb_true_iff in Hc as [Hc|Hc]; [|rewrite Hc; apply orb_true_r].
  assert (is_ascii c = true) as ->; [|reflexivity].
  unfold is_ascii_alpha, is_ascii_upper, is_ascii_lower, is_ascii_digit, between in Hc.
  rewrite !orb_true_iff, !andb_true_iff, !N.leb_le in Hc.
  unfold is_ascii. apply N.ltb_lt. lia.
Qed.

(** [lower] needs no Unicode table on the output of [sub_special]. *)
Lemma lower_sub_special (s : str) :
  lower (sub_special s) = List.map ascii_lower_char (sub_special s).
Proof. unfold lower. rewrite sub_special_plain. reflexivity. Qed.

Lemma ascii_lower_char_space (c : char) : isspace (ascii_lower_char c) = isspace c.
Proof.
  forget_parameters. unfold ascii_lower_char.
  destruct (is_ascii_upper c) eqn:Hu; [|reflexivity].
  unfold is_ascii_upper, between in Hu. rewrite andb_true_iff, !N.leb_le in Hu.
  unfold isspace, between, char_eqb.
  repeat match goal with
         | |- context [(?a <=? ?b)%N] =>
             first [ replace (a <=? b)%N with true by (symmetry; apply N.leb_le; lia)
                   | replace (a <=? b)%N with false by (symmetry; apply N.leb_gt; lia) ]
         | |- context [(?a =? ?b)%N] =>
             first [ replace (a =? b)%N with false by (symmetry; apply N.eqb_neq; lia) ]
         end.
  reflexivity.
Qed.

Lemma lowered_key_char (c : char) :
  (is_ascii_alpha c || is_ascii_digit c || isspace c) = true ->
  isspace c = false ->
  key_char (ascii_lower_char c) = true.
Proof.
  forget_parameters. intros H Hsp. rewrite Hsp, orb_false_r in H.
  unfold key_char, ascii_lower_char.
  unfold is_ascii_alpha in H.
  destruct (is_ascii_upper c) eqn:Hu.
  - unfold is_ascii_upper, between in Hu. rewrite andb_true_iff, !N.leb_le in Hu.
    assert (is_ascii_lower (c + 32) = true) as ->; [|reflexivity].
    unfold is_ascii_lower, between. rewrite andb_true_iff, !N.leb_le. lia.
  - cbn [orb] in H. apply orb_true_iff in H as [-> | ->];
      [reflexivity | apply orb_true_iff; left; apply orb_true_r].
Qed.

Lemma sub_spaces_from_chars (b : bool) (s : str) :
  (forall c, In c s -> isspace c = false -> key_char c = true) ->
  forallb key_char (sub_spaces_from b s) = true.
Proof.
  forget_parameters. revert b. induction s as [|c r IH]; intros b H; [reflexivity|].
  simpl. assert (Hr : forall x, In x r -> isspace x = false -> key_char x = true)
    by (intros x Hx; apply H; right; exact Hx).
  destruct (isspace c) eqn:Hc.
  - destruct b; [apply IH, Hr|]. cbn [forallb]. rewrite (IH true Hr). reflexivity.
  - cbn [forallb]. rewrite (H c (or_introl eq_refl) Hc), (IH false Hr). reflexivity.
Qed.

Lemma key_char_space (c : char) :
  key_char c = true -> isspace c = true -> c = chr " ".
Proof.
  forget_parameters. unfold key_char. rewrite !orb_true_iff. intros [[H|H]|H] Hsp.
  - exfalso. unfold is_ascii_lower, between in H. rewrite andb_true_iff, !N.leb_le in H.
    assert (numeral_char 48 = true) by reflexivity.
    revert Hsp. unfold isspace, between, char_eqb.
    repeat match goal with
           | |- context [(?a <=? ?b)%N] =>
               first [ replace (a <=? b)%N with true by (symmetry; apply N.leb_le; lia)
                     | replace (a <=? b)%N with false by (symmetry; apply N.leb_gt; lia) ]
           | |- context [(?a =? ?b)%N] =>
               first [ replace (a =? b)%N with false by (symmetry; apply N.eqb_neq; lia) ]
           end.
    discriminate.
  - exfalso. assert (Hn : numeral_char c = true) by (unfold numeral_char; rewrite H; reflexivity).
    apply numeral_char_untouched in Hn. unfold untouched in Hn.
    rewrite !andb_true_iff in Hn. destruct Hn as (((((Hn & _) & _) & _) & _) & _).
    rewrite Hsp in Hn. discriminate.
  - apply N.eqb_eq in H. exact H.
Qed.

End KeyFacts.

Section KeyShape.

Lemma single_spaced_suffix (l m : str) : single_spaced (l ++ m) -> single_spaced m.
Proof.
  forget_parameters. induction l as [|a l IH]; [auto|].
  intros H. apply IH. destruct l as [|b l]; simpl in *.
  - destruct m; [exact I | apply H].
  - apply H.
Qed.

Lemma single_spaced_prefix (m r : str) : single_spaced (m ++ r) -> single_spaced m.
Proof.
  forget_parameters. induction m as [|a m IH]; [intros; exact I|].
  destruct m as [|b m]; [intros; exact I|].
  intros [H1 H2]. split; [exact H1 | apply IH, H2].
Qed.

Lemma single_spaced_strip (s : str) : single_spaced s -> single_spaced (strip s).
Proof.
  forget_parameters. intros H. destruct (strip_decompose s) as (l & r & Hs & _ & _).
  rewrite Hs in H. apply single_spaced_suffix in H. apply single_spaced_prefix in H. exact H.
Qed.

Lemma sub_spaces_from_single (b : bool) (s : str) :
  single_spaced (sub_spaces_from b s)
  /\ (b = true ->
      match sub_spaces_from b s with [] => True | c :: _ => isspace c = false end).
Proof.
  forget_parameters. revert b. induction s as [|c r IH]; intros b; [split; intros; exact I|].
  cbn [sub_spaces_from]. destruct (isspace c) eqn:Hc.
  - destruct b.
    + apply IH.
    + split; [|discriminate]. destruct (IH true) as [Hs Hh].
      specialize (Hh eq_refl). destruct (sub_spaces_from true r) as [|x t]; [exact I|].
      split; [|exact Hs]. intros [_ Hx]. congruence.
  - split; [|intros _; exact Hc]. destruct (IH false) as [Hs _].
    destruct (sub_spaces_from false r) as [|x t]; [exact I|].
    split; [|exact Hs]. intros [Hx _]. congruence.
Qed.

(** The key is computed without any Unicode table. *)
Lemma comparison_name_plain (cleaned : str) :
  comparison_name cleaned
  = strip (sub_spaces (List.map ascii_lower_char (sub_special cleaned))).
Proof.
  unfold comparison_name. rewrite lower_sub_special. reflexivity.
Qed.

(** X6. The comparison key of a merchant name is made of lower-case
    ASCII letters, ASCII digits and spaces only, has no space at either
    end and no two spaces in a row; it is computed without any Unicode
    table. *)
Theorem comparison_name_shape (cleaned : str) :
  forallb key_char (comparison_name cleaned) = true
  /\ strip (comparison_name cleaned) = comparison_name cleaned
  /\ single_spaced (comparison_name cleaned)
  /\ comparison_name cleaned
     = strip (sub_spaces (List.map ascii_lower_char (sub_special cleaned))).
Proof.
  rewrite comparison_name_plain. forget_parameters.
  split; [|split; [apply strip_strip | split; [|reflexivity]]].
  - apply forallb_forall. intros c Hc. apply in_strip in Hc.
    assert (H : forallb key_char
                  (sub_spaces (List.map ascii_lower_char (sub_special cleaned))) = true).
    { apply sub_spaces_from_chars. intros x Hx Hsp.
      apply in_map_iff in Hx as (y & <- & Hy).
      apply filter_In in Hy as [_ Hy]. rewrite ascii_lower_char_space in Hsp.
      apply lowered_key_char; assumption. }
    rewrite forallb_forall in H. apply H, Hc.
  - apply single_spaced_strip. apply (sub_spaces_from_single false).
Qed.

Lemma ascii_lower_char_idem (c : char) :
  ascii_lower_char (ascii_lower_char c) = ascii_lower_char c.
Proof.
  forget_parameters. unfold ascii_lower_char.
  destruct (is_ascii_upper c) eqn:Hu; [|rewrite Hu; reflexivity].
  assert (is_ascii_upper (c + 32) = false) as ->; [|reflexivity].
  unfold is_ascii_upper, between in *. rewrite andb_true_iff, !N.leb_le in Hu.
  apply andb_false_iff. right. apply N.leb_gt. lia.
Qed.

Lemma ascii_lower_char_special (c : char) :
  (is_ascii_alpha (ascii_lower_char c) || is_ascii_digit (ascii_lower_char c)
   || isspace (ascii_lower_char c))
  = (is_ascii_alpha c || is_ascii_digit c || isspace c).
Proof.
  forget_parameters. rewrite ascii_lower_char_space. unfold ascii_lower_char.
  destruct (is_ascii_upper c) eqn:Hu; [|reflexivity].
  unfold is_ascii_alpha. rewrite Hu.
  unfold is_ascii_upper, is_ascii_lower, is_ascii_digit, between in *.
  rewrite andb_true_iff, !N.leb_le in Hu.
  assert ((97 <=? c + 32)%N = true) as -> by (apply N.leb_le; lia).
  assert ((c + 32 <=? 122)%N = true) as -> by (apply N.leb_le; lia).
  rewrite orb_true_r. reflexivity.
Qed.

Lemma filter_map_commute {A} (f : A -> A) (p : A -> bool) (l : list A) :
  (forall x, p (f x) = p x) ->
  List.filter p (List.map f l) = List.map f (List.filter p l).
Proof.
  intros H. induction l as [|x l IH]; simpl; [reflexivity|].
  rewrite H. destruct (p x); simpl; rewrite IH; reflexivity.
Qed.

(** The key does not see the case of ASCII letters. *)
Lemma comparison_name_lowered (s : str) :
  comparison_name (strip (List.map ascii_lower_char s)) = comparison_name (strip s).
Proof.
  rewrite (strip_map ascii_lower_char s ascii_lower_char_space).
  rewrite !comparison_name_plain.
  unfold sub_special.
  rewrite (filter_map_commute ascii_lower_char _ _ ascii_lower_char_special).
  rewrite List.map_map.
  rewrite (List.map_ext _ _ (fun c => ascii_lower_char_idem c)). reflexivity.
Qed.

Lemma normalize_merchant_blank (s : str) :
  nonempty (strip s) = false ->
  normalize_merchant (VStr s) = (u "Unknown", u "other").
Proof.
  intros H. unfold normalize_merchant. simpl truthy. simpl isinstance_str.
  destruct (nonempty s); cbn [negb orb]; [|reflexivity].
  rewrite H. reflexivity.
Qed.

(** X7. The category of a merchant does not depend on the case of the
    ASCII letters of its name: two names that differ in that case only
    have the same comparison key and get the same category. *)
Theorem category_ignores_case (s1 s2 : str) :
  same_up_to_ascii_case s1 s2 ->
  comparison_name (strip s1) = comparison_name (strip s2)
  /\ snd (normalize_merchant (VStr s1)) = snd (normalize_merchant (VStr s2)).
Proof.
  unfold same_up_to_ascii_case. intros H.
  assert (Hkey : comparison_name (strip s1) = comparison_name (strip s2)).
  { rewrite <- (comparison_name_lowered s1), <- (comparison_name_lowered s2), H.
    reflexivity. }
  split; [exact Hkey|].
  assert (Hblank : nonempty (strip s1) = nonempty (strip s2)).
  { pose proof (strip_map ascii_lower_char s1 ascii_lower_char_space) as E1.
    pose proof (strip_map ascii_lower_char s2 ascii_lower_char_space) as E2.
    rewrite H, E2 in E1. apply (f_equal (@length _)) in E1.
    rewrite !length_map in E1.
    destruct (strip s1), (strip s2); simpl in *; congruence. }
  destruct (nonempty (strip s1)) eqn:N1; symmetry in Hblank.
  - rewrite (normalize_merchant_str s1 N1), (normalize_merchant_str s2 Hblank).
    cbv zeta. rewrite Hkey.
    set (b := match_merchant (comparison_name (strip s2))).
    destruct (best_match_category b) as [c|], (best_match_name b) as [n|]; try reflexivity.
    destruct (nonempty c && nonempty n); reflexivity.
  - rewrite (normalize_merchant_blank s1 N1), (normalize_merchant_blank s2 Hblank).
    reflexivity.
Qed.

End KeyShape.

(** ** Amounts as text: [str(Decimal)] and [format_currency] *)

Section AmountText.

Lemma money_char_cases (c : char) :
  money_char c = true ->
  In c [36; 44; 45; 46; 48; 49; 50; 51; 52; 53; 54; 55; 56; 57; 163; 165; 8364]%N.
Proof.
  forget_parameters.
  unfold money_char, currency_symbol, char_eqb. rewrite !orb_true_iff, !N.eqb_eq.
  change (chr ",") with 44%N. change (chr "-") with 45%N. change (chr "$") with 36%N.
  intros [[[H | ->] | ->] | [[[-> | ->] | ->] | ->]]; simpl; auto 20.
  apply numeral_char_cases in H. simpl in H. propositional.
Qed.

Lemma money_char_plain (c : char) :
  money_char c = true ->
  isspace c = false
  /\ code_free c = true
  /\ negb (char_eqb c 8364 || char_eqb c 165 || char_eqb c 163)
     && negb (char_eqb c (chr "$")) && negb (char_eqb c (chr "-"))
     && negb (char_eqb c (chr ",")) = numeral_char c
  /\ (char_eqb c (chr "-") = true -> numeral_char c = false).
Proof.
  forget_parameters.
  intros H. apply money_char_cases in H. simpl in H.
  repeat (destruct H as [<-|H]; [vm_compute; repeat split; congruence|]).
  contradiction.
Qed.

Lemma sub_codes_code_free (s : str) :
  forallb code_free s = true -> sub_codes s = s.
Proof.
  forget_parameters.
  induction s as [|a t IH]; [reflexivity|].
  intros H. simpl in H. apply andb_true_iff in H as [Ha Ht].
  simpl. destruct t as [|b [|c r]]; try reflexivity.
  assert (Hcode : currency_code a b c = false).
  { unfold code_free in Ha. simpl in Ha. rewrite !andb_true_iff, !negb_true_iff in Ha.
    destruct Ha as (Hu & _ & _ & He & _ & Hg & _ & _ & Hj & _).
    unfold currency_code. rewrite Hu, He, Hg, Hj. reflexivity. }
  rewrite Hcode, (IH Ht). reflexivity.
Qed.

Lemma filter_twice {A} (f g : A -> bool) (l : list A) :
  List.filter g (List.filter f l) = List.filter (fun x => f x && g x) l.
Proof.
  forget_parameters.
  induction l as [|x l IH]; simpl; [reflexivity|].
  destruct (f x); simpl; [destruct (g x)|]; rewrite IH; reflexivity.
Qed.

Lemma forallb_filter {A} (p f : A -> bool) (l : list A) :
  forallb p l = true -> forallb p (List.filter f l) = true.
Proof.
  forget_parameters.
  rewrite !forallb_forall. intros H x Hx. apply filter_In in Hx as [Hx _]. auto.
Qed.

Lemma remove_char_absent (c : char) (s : str) :
  contains_char c s = false -> remove_char c s = s.
Proof.
  forget_parameters.
  unfold contains_char, remove_char. induction s as [|x s IH]; simpl; [reflexivity|].
  intros H. apply orb_false_iff in H as [Hx Hs]. rewrite Hx, (IH Hs). reflexivity.
Qed.

Lemma contains_remove_other (a b : char) (s : str) :
  char_eqb a b = false ->
  contains_char a (remove_char b s) = contains_char a s.
Proof.
  forget_parameters.
  intros Hab. unfold contains_char, remove_char.
  induction s as [|x s IH]; simpl; [reflexivity|].
  destruct (char_eqb x b) eqn:Hx; simpl; rewrite IH; [|reflexivity].
  apply N.eqb_eq in Hx. subst x. unfold char_eqb in *.
  rewrite N.eqb_sym, Hab. reflexivity.
Qed.

Lemma contains_sub_symbols (s : str) :
  contains_char (chr "-") (sub_symbols s) = contains_char (chr "-") s.
Proof.
  forget_parameters.
  unfold contains_char, sub_symbols.
  induction s as [|x s IH]; simpl; [reflexivity|].
  destruct (char_eqb x 8364 || char_eqb x 165 || char_eqb x 163) eqn:Hx; simpl;
    rewrite IH; [|reflexivity].
  rewrite !orb_true_iff in Hx. unfold char_eqb in *. rewrite !N.eqb_eq in Hx.
  destruct Hx as [[-> | ->] | ->]; reflexivity.
Qed.

(** On a string of such characters the cleaning keeps the characters of
    the numeral, in their order, and the sign is negative when there is a
    minus sign anywhere. *)
Lemma cleaning_money (s : str) :
  forallb money_char s = true ->
  strip s = s
  /\ cleaned_amount s = List.filter numeral_char s
  /\ is_negative s = contains_char (chr "-") s.
Proof.
  forget_parameters.
  intros H.
  assert (Hplain : forall t, forallb money_char t = true ->
            strip t = t /\ sub_codes t = t).
  { intros t Ht. split.
    - apply strip_no_space. eapply forallb_weaken; [|exact Ht].
      intros c Hc. apply money_char_plain in Hc as (-> & _). reflexivity.
    - apply sub_codes_code_free. eapply forallb_weaken; [|exact Ht].
      intros c Hc. apply money_char_plain in Hc as (_ & Hc & _). exact Hc. }
  destruct (Hplain s H) as [Hstrip _].
  set (r := remove_char (chr "$") (sub_symbols s)).
  assert (Hr : forallb money_char r = true)
    by (apply forallb_filter, forallb_filter, H).
  destruct (Hplain r Hr) as [Hstrip_r Hcodes_r].
  assert (Hunmarked : unmarked s = r).
  { unfold unmarked. rewrite Hstrip. fold r. rewrite Hcodes_r. exact Hstrip_r. }
  assert (Hminus : contains_char (chr "-") r = contains_char (chr "-") s).
  { unfold r. rewrite contains_remove_other by reflexivity. apply contains_sub_symbols. }
  split; [exact Hstrip|]. split.
  - unfold cleaned_amount. rewrite Hunmarked.
    assert ((if contains_char (chr "-") r then remove_char (chr "-") r else r)
            = remove_char (chr "-") r) as ->.
    { destruct (contains_char (chr "-") r) eqn:E; [reflexivity|].
      symmetry. apply remove_char_absent, E. }
    unfold r, remove_char, sub_symbols. rewrite !filter_twice.
    apply filter_ext_in. intros c Hc.
    rewrite forallb_forall in H. specialize (H c Hc).
    apply money_char_plain in H as (_ & _ & E & _).
    rewrite <- E, !andb_assoc. reflexivity.
  - unfold is_negative. rewrite Hunmarked, Hminus, Hstrip.
    destruct (contains_char (chr "-") s) eqn:E; [reflexivity|].
    destruct s as [|c t]; [reflexivity|]. simpl in *.
    apply orb_false_iff in E as [E _]. exact E.
Qed.

Lemma point_stops : stops [chr "."] /\ forall fp, stops (chr "." :: fp).
Proof.
  split; [|intros fp]; unfold stops, is_decimal_digit, digit_value; reflexivity.
Qed.

Lemma search_number_fraction (ip fp : str) :
  ip <> [] -> forallb is_decimal_digit ip = true ->
  forallb is_decimal_digit fp = true ->
  search_number (ip ++ chr "." :: fp) = Some (ip ++ chr "." :: fp).
Proof.
  intros Hne Hip Hfp. destruct ip as [|c ip]; [contradiction|].
  pose proof (span_digits_app (c :: ip) (chr "." :: fp) Hip (proj2 point_stops fp)) as Hspan.
  simpl in Hip. apply andb_true_iff in Hip as [Hc _].
  change ((c :: ip) ++ chr "." :: fp) with (c :: (ip ++ chr "." :: fp)) in *.
  cbn [search_number]. rewrite Hc, Hspan.
  change (char_eqb (chr ".") (chr ".")) with true. cbv iota.
  rewrite span_digits_all by exact Hfp. reflexivity.
Qed.

Lemma Decimal_of_str_fraction (ip fp : str) (negative : bool) :
  ip <> [] -> forallb is_decimal_digit ip = true ->
  forallb is_decimal_digit fp = true ->
  Decimal_of_str (if negative then chr "-" :: ip ++ chr "." :: fp
                  else ip ++ chr "." :: fp)
  = Returns (mkDecimal negative (int_of_digits (ip ++ fp)) (- Z.of_nat (length fp))).
Proof.
  intros Hne Hip Hfp.
  destruct ip as [|c ip']; [contradiction|].
  assert (Hc : is_decimal_digit c = true)
    by (simpl in Hip; apply andb_true_iff in Hip; propositional).
  destruct (digit_not_mark c Hc) as (Hminus & Hplus & _).
  set (ip := c :: ip') in *.
  assert (Hbody :
             (let (intpart, rest) := span_digits (ip ++ chr "." :: fp) in
              let (fracpart, rest') :=
                match rest with
                | c :: r => if char_eqb c (chr ".") then span_digits r else ([], rest)
                | [] => ([], [])
                end in
              match rest', intpart ++ fracpart with
              | [], _ :: _ =>
                  Returns (mkDecimal negative (int_of_digits (intpart ++ fracpart))
                             (- Z.of_nat (length fracpart)))
              | _, _ => Raises InvalidOperation
              end)
             = Returns (mkDecimal negative (int_of_digits (ip ++ fp))
                          (- Z.of_nat (length fp)))).
  { rewrite span_digits_app by (auto; apply point_stops).
    change (char_eqb (chr ".") (chr ".")) with true. cbv iota.
    rewrite span_digits_all by exact Hfp. reflexivity. }
  unfold Decimal_of_str. destruct negative.
  - change (char_eqb (chr "-") (chr "-")) with true. cbv iota. exact Hbody.
  - unfold ip at 1. cbn [app]. cbv iota. rewrite Hminus, Hplus. exact Hbody.
Qed.

Lemma rescale_same (d : Decimal) : rescale d (dexp d) = d.
Proof.
  forget_parameters.
  destruct d as [sg c e]. unfold rescale. cbn [dsign dcoeff dexp].
  destruct (N.eqb_spec c 0) as [->|_]; [reflexivity|].
  rewrite Z.leb_refl, Z.sub_diag. change (Z.to_N (10 ^ 0)) with 1%N.
  rewrite N.mul_1_r. reflexivity.
Qed.

(** A text of such characters whose numeral characters spell a number
    with two decimals normalizes to that number, negative when the text
    has a minus sign. *)
Lemma normalize_amount_money (s ip fp : str) :
  forallb money_char s = true ->
  List.filter numeral_char s = ip ++ chr "." :: fp ->
  ip <> [] -> forallb is_ascii_digit ip = true ->
  forallb is_ascii_digit fp = true -> length fp = 2%nat ->
  (int_of_digits (ip ++ fp) <= 100000000)%N ->
  normalize_amount (VStr s)
  = Returns (Some (mkDecimal (contains_char (chr "-") s)
                     (int_of_digits (ip ++ fp)) (-2))).
Proof.
  intros Hs Hnum Hne Hip Hfp Hlen Hle.
  destruct (cleaning_money s Hs) as (Hstrip & Hclean & Hneg).
  assert (Hip' : forallb is_decimal_digit ip = true)
    by (eapply forallb_weaken; [apply ascii_digit_decimal | exact Hip]).
  assert (Hfp' : forallb is_decimal_digit fp = true)
    by (eapply forallb_weaken; [apply ascii_digit_decimal | exact Hfp]).
  assert (Hns : numeric_string s
                = Some (if contains_char (chr "-") s
                        then chr "-" :: ip ++ chr "." :: fp
                        else ip ++ chr "." :: fp)).
  { unfold numeric_string. rewrite Hstrip, Hclean, Hneg, Hnum.
    assert (nonempty s = true) as ->.
    { destruct s; [|reflexivity]. destruct ip; discriminate. }
    rewrite search_number_fraction by assumption.
    destruct (contains_char (chr "-") s); reflexivity. }
  rewrite normalize_amount_str, Hns.
  pose proof (Decimal_of_str_fraction ip fp (contains_char (chr "-") s)
                Hne Hip' Hfp') as Hd.
  rewrite Hlen in Hd. change (- Z.of_nat 2)%Z with (-2)%Z in Hd.
  destruct (convert_amount_range _ _ Hd) as [_ Hin].
  set (d := mkDecimal _ _ _) in *.
  pose proof (rescale_same d) as Hsame. change (dexp d) with (-2)%Z in Hsame.
  rewrite Hsame in Hin.
  apply Hin. unfold out_of_range, signed_coeff, d. cbn [dsign dcoeff].
  destruct (contains_char (chr "-") s); lia.
Qed.

Lemma digit_value_ascii (k : N) :
  (k < 10)%N -> is_ascii_digit (48 + k) = true /\ digit_value (48 + k) = Some k.
Proof.
  intros H. unfold digit_value, is_ascii, is_ascii_digit, between.
  assert ((48 <=? 48 + k)%N && (48 + k <=? 57)%N = true) as ->
    by (apply andb_true_iff; split; apply N.leb_le; lia).
  assert ((48 + k <? 128)%N = true) as -> by (apply N.ltb_lt; lia).
  split; [reflexivity|]. f_equal. lia.
Qed.

Lemma int_of_digits_snoc (ds : str) (c : char) :
  int_of_digits (ds ++ [c])
  = (10 * int_of_digits ds + default 0 (digit_value c))%N.
Proof.
  unfold int_of_digits. rewrite fold_left_app. reflexivity.
Qed.

Lemma digits_fuel_spec (fuel : nat) :
  forall (n : N) (acc : str),
    fuel <> O -> (n < 2 ^ N.of_nat fuel)%N ->
    exists ds,
      digits_fuel fuel n acc = ds ++ acc /\ ds <> []
      /\ forallb is_ascii_digit ds = true /\ int_of_digits ds = n.
Proof.
  induction fuel as [|f IH]; intros n acc Hfuel Hn; [contradiction|].
  cbn [digits_fuel].
  assert (Hmod : (n mod 10 < 10)%N) by (apply N.mod_lt; discriminate).
  destruct (digit_value_ascii _ Hmod) as [Hdigit Hvalue].
  destruct (N.ltb_spec n 10) as [Hlt|Hge].
  - exists [(48 + n mod 10)%N]. split; [reflexivity|]. split; [discriminate|].
    split; [simpl; rewrite Hdigit; reflexivity|].
    unfold int_of_digits. simpl. rewrite Hvalue. simpl.
    rewrite N.mod_small by exact Hlt. lia.
  - assert (Hf : f <> O).
    { intros ->. change (2 ^ N.of_nat 1)%N with 2%N in Hn. lia. }
    assert (Hdiv : (n / 10 < 2 ^ N.of_nat f)%N).
    { apply N.Div0.div_lt_upper_bound.
      rewrite Nat2N.inj_succ, N.pow_succ_r' in Hn. lia. }
    destruct (IH (n / 10)%N ((48 + n mod 10)%N :: acc) Hf Hdiv)
      as (ds & Heq & _ & Hds & Hint).
    exists (ds ++ [(48 + n mod 10)%N]). split; [|split; [|split]].
    + rewrite Heq, <- app_assoc. reflexivity.
    + destruct ds; discriminate.
    + rewrite forallb_app, Hds. simpl. rewrite Hdigit. reflexivity.
    + rewrite int_of_digits_snoc, Hint, Hvalue. simpl.
      pose proof (N.div_mod n 10). lia.
Qed.

(** [str(n)] is a non-empty string of ASCII digits that reads as [n]. *)
Lemma digits_of_spec (n : N) :
  digits_of n <> [] /\ forallb is_ascii_digit (digits_of n) = true
  /\ int_of_digits (digits_of n) = n.
Proof.
  unfold digits_of.
  destruct (digits_fuel_spec (S (N.to_nat (N.size n))) n []) as (ds & Heq & H).
  - discriminate.
  - rewrite Nat2N.inj_succ, N2Nat.id, N.pow_succ_r'.
    pose proof (N.size_gt n). lia.
  - rewrite Heq, app_nil_r. exact H.
Qed.

Lemma digits_fuel_suffix (fuel : nat) :
  forall (n : N) (acc : str), exists ds, digits_fuel fuel n acc = ds ++ acc.
Proof.
  forget_parameters.
  induction fuel as [|f IH]; intros n acc; [exists []; reflexivity|].
  cbn [digits_fuel]. destruct (n <? 10)%N.
  - exists [(48 + n mod 10)%N]. reflexivity.
  - destruct (IH (n / 10)%N ((48 + n mod 10)%N :: acc)) as [ds ->].
    exists (ds ++ [(48 + n mod 10)%N]). rewrite <- app_assoc. reflexivity.
Qed.

Lemma digits_of_nonempty (n : N) : digits_of n <> [].
Proof.
  forget_parameters.
  unfold digits_of. cbn [digits_fuel]. destruct (n <? 10)%N; [discriminate|].
  match goal with
  | |- digits_fuel ?f ?m ?acc <> [] =>
      destruct (digits_fuel_suffix f m acc) as [ds ->]
  end.
  destruct ds; discriminate.
Qed.

Lemma int_of_digits_zeros (k : nat) (ds : str) :
  int_of_digits (repeat (chr "0") k ++ ds) = int_of_digits ds.
Proof.
  induction k as [|k IH]; [reflexivity|].
  rewrite <- IH. unfold int_of_digits. reflexivity.
Qed.

Lemma forallb_repeat {A} (p : A -> bool) (x : A) (k : nat) :
  p x = true -> forallb p (repeat x k) = true.
Proof.
  forget_parameters.
  intros H. induction k as [|k IH]; simpl; [reflexivity|]. rewrite H, IH. reflexivity.
Qed.

Lemma cents_split_spec (c : N) :
  fst (cents_split c) <> []
  /\ forallb is_ascii_digit (fst (cents_split c)) = true
  /\ forallb is_ascii_digit (snd (cents_split c)) = true
  /\ length (snd (cents_split c)) = 2%nat
  /\ int_of_digits (fst (cents_split c) ++ snd (cents_split c)) = c.
Proof.
  destruct (digits_of_spec c) as (Hne & Hds & Hint).
  unfold cents_split. set (ds := digits_of c) in *.
  destruct (Nat.leb_spec (length ds) 2) as [Hle|Hgt]; cbn [fst snd].
  - split; [discriminate|]. split; [reflexivity|]. split; [|split].
    + rewrite forallb_app, Hds, forallb_repeat; reflexivity.
    + rewrite length_app, repeat_length. lia.
    + change ([chr "0"] ++ repeat (chr "0") (2 - length ds) ++ ds)
        with (repeat (chr "0") (S (2 - length ds)) ++ ds).
      rewrite int_of_digits_zeros. exact Hint.
  - pose proof (firstn_skipn (length ds - 2) ds) as Hsplit.
    rewrite <- Hsplit, forallb_app in Hds. apply andb_true_iff in Hds as [H1 H2].
    split; [|split; [exact H1|split; [exact H2|split]]].
    + intros E. apply (f_equal (@length _)) in E.
      rewrite length_firstn in E. simpl in E. lia.
    + rewrite length_skipn. lia.
    + rewrite Hsplit. exact Hint.
Qed.

(** [str(q)] for a number of hundredths: plain notation with two
    decimals. *)
Lemma Decimal_str_cents (q : Decimal) :
  dexp q = (-2)%Z ->
  Decimal_str q
  = (if dsign q then [chr "-"] else [])
      ++ fst (cents_split (dcoeff q)) ++ chr "." :: snd (cents_split (dcoeff q)).
Proof.
  forget_parameters.
  intros He. pose proof (digits_of_nonempty (dcoeff q)) as Hne.
  unfold Decimal_str, cents_split. rewrite He.
  set (ds := digits_of (dcoeff q)) in *.
  assert (Hlen : (0 < length ds)%nat) by (destruct ds; [contradiction|simpl; lia]).
  change (-2 <=? 0)%Z with true. cbn [andb].
  assert ((-6 <? -2 + Z.of_nat (length ds))%Z = true) as -> by (apply Z.ltb_lt; lia).
  rewrite Z.eqb_refl.
  destruct (Nat.leb_spec (length ds) 2) as [Hle|Hgt]; cbn [fst snd].
  - assert ((-2 + Z.of_nat (length ds) <=? 0)%Z = true) as -> by (apply Z.leb_le; lia).
    unfold zeros.
    replace (Z.to_nat (- (-2 + Z.of_nat (length ds)))) with (2 - length ds)%nat by lia.
    rewrite app_nil_r. reflexivity.
  - assert ((-2 + Z.of_nat (length ds) <=? 0)%Z = false) as -> by (apply Z.leb_gt; lia).
    assert ((Z.of_nat (length ds) <=? -2 + Z.of_nat (length ds))%Z = false) as ->
      by (apply Z.leb_gt; lia).
    replace (Z.to_nat (-2 + Z.of_nat (length ds))) with (length ds - 2)%nat by lia.
    rewrite app_nil_r. reflexivity.
Qed.

(** [format(q, ',.2f')] for a number of hundredths. *)
Lemma format_comma_2f_cents (q : Decimal) :
  dexp q = (-2)%Z ->
  format_comma_2f q
  = (if dsign q then [chr "-"] else [])
      ++ insert_thousands_sep (fst (cents_split (dcoeff q)))
      ++ chr "." :: snd (cents_split (dcoeff q)).
Proof.
  forget_parameters.
  intros He. pose proof (digits_of_nonempty (dcoeff q)) as Hne.
  unfold format_comma_2f, cents_split.
  pose proof (rescale_same q) as Hsame. rewrite He in Hsame. rewrite Hsame, He.
  set (ds := digits_of (dcoeff q)) in *.
  assert (Hlen : (0 < length ds)%nat) by (destruct ds; [contradiction|simpl; lia]).
  destruct (Nat.leb_spec (length ds) 2) as [Hle|Hgt]; cbn [fst snd].
  - destruct (Z.ltb_spec (-2 + Z.of_nat (length ds)) 0) as [Hneg|Hpos].
    + unfold zeros.
      replace (Z.to_nat (- (-2 + Z.of_nat (length ds)))) with (2 - length ds)%nat by lia.
      reflexivity.
    + assert (Hds : length ds = 2%nat) by lia.
      replace (Z.to_nat (-2 + Z.of_nat (length ds))) with 0%nat by lia.
      rewrite Hds. reflexivity.
  - assert ((-2 + Z.of_nat (length ds) <? 0)%Z = false) as -> by (apply Z.ltb_ge; lia).
    replace (Z.to_nat (-2 + Z.of_nat (length ds))) with (length ds - 2)%nat by lia.
    destruct (firstn (length ds - 2) ds) eqn:E; [|reflexivity].
    apply (f_equal (@length _)) in E. rewrite length_firstn in E. simpl in E. lia.
Qed.

Lemma commas_rev_facts (n : nat) :
  forall r : str, (length r <= n)%nat ->
    List.filter numeral_char (commas_rev r) = List.filter numeral_char r
    /\ (forall x, In x (commas_rev r) -> x = chr "," \/ In x r).
Proof.
  forget_parameters.
  induction n as [|n IH]; intros r Hlen.
  - destruct r; [|simpl in Hlen; lia]. split; [reflexivity|]. intros x [].
  - destruct r as [|a [|b [|c [|d rest]]]];
      try (split; [reflexivity|]; intros x Hx; right; exact Hx).
    destruct (IH (d :: rest)) as [Hf Hin]; [simpl in *; lia|].
    change (commas_rev (a :: b :: c :: d :: rest))
      with (a :: b :: c :: chr "," :: commas_rev (d :: rest)).
    split.
    + cbn [List.filter]. change (numeral_char (chr ",")) with false. cbv iota.
      rewrite Hf. reflexivity.
    + intros x Hx. cbn [In] in Hx.
      destruct Hx as [<- | [<- | [<- | [<- | Hx]]]];
        [right; simpl; auto .. | left; reflexivity |].
      destruct (Hin x Hx) as [-> | H]; [left; reflexivity|].
      right. simpl. simpl in H. propositional.
Qed.

(** The separator puts commas between the digits and nothing else. *)
Lemma insert_thousands_sep_facts (ds : str) :
  List.filter numeral_char (insert_thousands_sep ds) = List.filter numeral_char ds
  /\ (forall x, In x (insert_thousands_sep ds) -> x = chr "," \/ In x ds).
Proof.
  forget_parameters.
  destruct (commas_rev_facts (length (rev ds)) (rev ds) (Nat.le_refl _)) as [Hf Hin].
  unfold insert_thousands_sep. split.
  - rewrite filter_rev, Hf, filter_rev. apply rev_involutive.
  - intros x Hx. apply in_rev in Hx. destruct (Hin x Hx) as [-> | H]; [left; reflexivity|].
    right. apply in_rev. exact H.
Qed.

Lemma contains_char_none (c : char) (s : str) :
  (forall x, In x s -> char_eqb x c = false) -> contains_char c s = false.
Proof.
  forget_parameters.
  intros H. unfold contains_char. apply not_true_is_false. intros Hex.
  apply existsb_exists in Hex as (x & Hin & Hx). rewrite (H x Hin) in Hx. discriminate.
Qed.

Lemma ascii_digit_money (c : char) :
  is_ascii_digit c = true ->
  numeral_char c = true /\ money_char c = true /\ char_eqb c (chr "-") = false.
Proof.
  forget_parameters.
  intros H. assert (Hn : numeral_char c = true) by (unfold numeral_char; rewrite H; reflexivity).
  split; [exact Hn|]. split; [unfold money_char; rewrite Hn; reflexivity|].
  unfold is_ascii_digit, between in H. apply andb_true_iff in H as [H _].
  apply N.leb_le in H. apply N.eqb_neq. change (chr "-") with 45%N. lia.
Qed.

(** What the program prints for a number [c] of hundredths, after any
    prefix of signs and currency symbols and with or without commas,
    normalizes to [c] hundredths, negative when the prefix has a minus
    sign. *)
Lemma normalize_amount_printed (pre body : str) (c : N) :
  forallb money_char pre = true -> List.filter numeral_char pre = [] ->
  List.filter numeral_char body = List.filter numeral_char (fst (cents_split c)) ->
  (forall x, In x body -> x = chr "," \/ In x (fst (cents_split c))) ->
  (c <= 100000000)%N ->
  normalize_amount (VStr (pre ++ body ++ chr "." :: snd (cents_split c)))
  = Returns (Some (mkDecimal (contains_char (chr "-") pre) c (-2))).
Proof.
  intros Hpre Hnone Hfilter Hbody Hc.
  destruct (cents_split_spec c) as (Hne & Hip & Hfp & Hlen & Hint).
  set (ip := fst (cents_split c)) in *. set (fp := snd (cents_split c)) in *.
  assert (Hnum : forall l, forallb is_ascii_digit l = true -> List.filter numeral_char l = l).
  { intros l Hl. apply filter_all. eapply forallb_weaken; [|exact Hl].
    intros x Hx. apply ascii_digit_money, Hx. }
  assert (Hin : forall l x, forallb is_ascii_digit l = true -> In x l ->
                            is_ascii_digit x = true).
  { intros l x Hl. rewrite forallb_forall in Hl. apply Hl. }
  assert (Hminus : contains_char (chr "-") (pre ++ body ++ chr "." :: fp)
                   = contains_char (chr "-") pre).
  { unfold contains_char. rewrite !existsb_app.
    fold (contains_char (chr "-") body).
    fold (contains_char (chr "-") (chr "." :: fp)).
    rewrite (contains_char_none _ body), (contains_char_none _ (chr "." :: fp)).
    - rewrite orb_false_r. reflexivity.
    - intros x [<- | Hx]; [reflexivity|]. apply ascii_digit_money, (Hin fp x Hfp Hx).
    - intros x Hx. destruct (Hbody x Hx) as [-> | H]; [reflexivity|].
      apply ascii_digit_money, (Hin ip x Hip H). }
  rewrite <- Hminus, <- Hint.
  apply normalize_amount_money; try assumption.
  - rewrite !forallb_app, Hpre. cbn [andb forallb].
    change (money_char (chr ".")) with true. cbn [andb].
    apply andb_true_iff. split.
    + apply forallb_forall. intros x Hx.
      destruct (Hbody x Hx) as [-> | H]; [reflexivity|].
      apply ascii_digit_money, (Hin ip x Hip H).
    + eapply forallb_weaken; [|exact Hfp]. intros x Hx. apply ascii_digit_money, Hx.
  - rewrite !List.filter_app, Hnone, Hfilter, (Hnum ip Hip). cbn [List.filter app].
    change (numeral_char (chr ".")) with true. cbv iota.
    rewrite (Hnum fp Hfp). reflexivity.
  - rewrite Hint. exact Hc.
Qed.

Lemma currency_symbol_facts (symbol : str) :
  forallb currency_symbol symbol = true ->
  forallb money_char symbol = true
  /\ List.filter numeral_char symbol = []
  /\ contains_char (chr "-") symbol = false.
Proof.
  forget_parameters.
  intros H.
  assert (Hc : forall c, currency_symbol c = true ->
             money_char c = true /\ numeral_char c = false
             /\ char_eqb c (chr "-") = false).
  { intros c Hc. unfold currency_symbol, char_eqb in Hc.
    rewrite !orb_true_iff, !N.eqb_eq in Hc.
    destruct Hc as [[[-> | ->] | ->] | ->]; repeat split. }
  split; [|split].
  - eapply forallb_weaken; [|exact H]. intros c Hcs. apply Hc, Hcs.
  - induction symbol as [|c r IH]; [reflexivity|].
    simpl in H. apply andb_true_iff in H as [H1 H2].
    simpl. destruct (Hc c H1) as (_ & -> & _). apply IH, H2.
  - apply contains_char_none. intros x Hx. rewrite forallb_forall in H.
    apply Hc, H, Hx.
Qed.

Lemma in_range_coeff (q : Decimal) :
  ~ out_of_range q -> (dcoeff q <= 100000000)%N.
Proof.
  forget_parameters.
  unfold out_of_range, signed_coeff. destruct (dsign q); lia.
Qed.

(** The text [str] gives for a number of hundredths in the range is
    normalized to that number. *)
Lemma normalize_amount_of_cents (q : Decimal) :
  dexp q = (-2)%Z -> (dcoeff q <= 100000000)%N ->
  normalize_amount (VStr (Decimal_str q)) = Returns (Some q).
Proof.
  intros He Hrange.
  rewrite (Decimal_str_cents q He).
  rewrite (normalize_amount_printed _ (fst (cents_split (dcoeff q))) (dcoeff q));
    auto.
  - destruct q as [sg c e]. simpl in *. subst e. destruct sg; reflexivity.
  - destruct (dsign q); reflexivity.
  - destruct (dsign q); reflexivity.
Qed.

(** X8. The text [str] gives for an amount that [normalize_amount]
    returned is normalized to the same amount: the amount column of the
    cleaned output reads back as it was written. *)
Theorem amount_text_round_trip (v : value) (q : Decimal) :
  normalize_amount v = Returns (Some q) ->
  normalize_amount (VStr (Decimal_str q)) = Returns (Some q).
Proof.
  intros H. apply normalize_amount_result in H as [He Hrange].
  apply normalize_amount_of_cents; [exact He | apply in_range_coeff, Hrange].
Qed.

(** X9. The text [format_currency] gives for an amount that
    [normalize_amount] returned, with the dollar, euro, yen or pound sign
    as the symbol (or several, or none), is normalized to the same
    amount, thousands separators and sign included; the text for a
    missing amount is normalized to a missing amount. *)
Theorem format_currency_round_trip (symbol : str) :
  forallb currency_symbol symbol = true ->
  (forall (v : value) (q : Decimal),
      normalize_amount v = Returns (Some q) ->
      normalize_amount (VStr (format_currency (Some q) symbol)) = Returns (Some q))
  /\ normalize_amount (VStr (format_currency None symbol)) = Returns None.
Proof.
  intros Hsym. split; [|vm_compute; reflexivity].
  intros v q H. apply normalize_amount_result in H as [He Hrange].
  apply in_range_coeff in Hrange.
  destruct (currency_symbol_facts symbol Hsym) as (Hmoney & Hnone & Hminus).
  destruct (insert_thousands_sep_facts (fst (cents_split (dcoeff q)))) as [Hf Hin].
  destruct q as [sg c e]. cbn [dexp dcoeff] in *. subst e.
  unfold format_currency.
  assert (Hlt : PyDecimal.lt (mkDecimal sg c (-2)) (of_Z 0)
                = sg && negb (c =? 0)%N).
  { unfold PyDecimal.lt, scaled, signed_coeff, of_Z. cbn [dsign dcoeff dexp].
    change ((-2) `min` 0)%Z with (-2)%Z.
    destruct sg; cbn [andb]; destruct (N.eqb_spec c 0); cbn [negb];
      [apply Z.ltb_ge | apply Z.ltb_lt | apply Z.ltb_ge | apply Z.ltb_ge];
      simpl; lia. }
  rewrite Hlt. destruct sg; cbn [andb]; [destruct (N.eqb_spec c 0) as [->|Hc]; cbn [negb]|].
  - rewrite format_comma_2f_cents by reflexivity. cbn [dsign dcoeff].
    rewrite app_assoc.
    transitivity (Returns (Some (mkDecimal
                    (contains_char (chr "-") (symbol ++ [chr "-"])) 0 (-2)))).
    + apply normalize_amount_printed; auto.
      * rewrite forallb_app, Hmoney. reflexivity.
      * rewrite List.filter_app, Hnone. reflexivity.
    + unfold contains_char. rewrite existsb_app. fold (contains_char (chr "-") symbol).
      rewrite Hminus. reflexivity.
  - unfold Decimal_abs. cbn [dcoeff dexp].
    rewrite format_comma_2f_cents by reflexivity. cbn [dsign dcoeff].
    apply (normalize_amount_printed (chr "-" :: symbol)
             (insert_thousands_sep (fst (cents_split c))) c); auto.
  - rewrite format_comma_2f_cents by reflexivity. cbn [dsign dcoeff].
    transitivity (Returns (Some (mkDecimal (contains_char (chr "-") symbol) c (-2)))).
    + apply (normalize_amount_printed symbol
               (insert_thousands_sep (fst (cents_split c))) c); auto.
    + rewrite Hminus. reflexivity.
Qed.

End AmountText.

(** ** [utils.py] *)

Section UtilsFacts.

Local Open Scope Z_scope.

(** X10. When the suffix is no longer than [max_length], the result of
    [truncate_string] is never longer than [max_length]: a text within
    the limit is returned as it is, a longer one is cut to exactly
    [max_length] characters, the last of which are the suffix; and
    truncating the result again changes nothing. *)
Theorem truncate_string_fits (text suffix : str) (max_length : Z) :
  Z.of_nat (length suffix) <= max_length ->
  Z.of_nat (length (truncate_string text max_length suffix)) <= max_length
  /\ (Z.of_nat (length text) <= max_length ->
      truncate_string text max_length suffix = text)
  /\ (max_length < Z.of_nat (length text) ->
      Z.of_nat (length (truncate_string text max_length suffix)) = max_length
      /\ truncate_string text max_length suffix
         = firstn (Z.to_nat (max_length - Z.of_nat (length suffix))) text ++ suffix)
  /\ truncate_string (truncate_string text max_length suffix) max_length suffix
     = truncate_string text max_length suffix.
Proof.
  forget_parameters.
  intros Hsuffix.
  assert (Hlong : max_length < Z.of_nat (length text) ->
            Z.of_nat (length (truncate_string text max_length suffix)) = max_length
            /\ truncate_string text max_length suffix
               = firstn (Z.to_nat (max_length - Z.of_nat (length suffix))) text ++ suffix).
  { intros Hlt. unfold truncate_string, slice_stop.
    assert ((Z.of_nat (length text) <=? max_length) = false) as -> by (apply Z.leb_gt; lia).
    assert ((max_length - Z.of_nat (length suffix) <? 0) = false) as ->
      by (apply Z.ltb_ge; lia).
    split; [|reflexivity]. rewrite length_app, length_firstn. lia. }
  assert (Hshort : Z.of_nat (length text) <= max_length ->
            truncate_string text max_length suffix = text).
  { intros Hle. unfold truncate_string.
    assert ((Z.of_nat (length text) <=? max_length) = true) as -> by (apply Z.leb_le; lia).
    reflexivity. }
  assert (Hfits : Z.of_nat (length (truncate_string text max_length suffix)) <= max_length).
  { destruct (Z_le_gt_dec (Z.of_nat (length text)) max_length) as [Hle|Hgt].
    - rewrite (Hshort Hle). exact Hle.
    - destruct Hlong as [-> _]; lia. }
  split; [exact Hfits|]. split; [exact Hshort|]. split; [exact Hlong|].
  unfold truncate_string at 1.
  apply Z.leb_le in Hfits. rewrite Hfits. reflexivity.
Qed.

(** X11. When [max_length] is smaller than the length of the suffix, a
    text longer than [max_length] comes back longer than [max_length]:
    the slice bound is negative, so the text loses its last
    [len(suffix) - max_length] characters only and gets the whole suffix. *)
Theorem truncate_string_short_limit (text suffix : str) (max_length : Z) :
  max_length < Z.of_nat (length suffix) ->
  max_length < Z.of_nat (length text) ->
  truncate_string text max_length suffix
  = firstn (length text - Z.to_nat (Z.of_nat (length suffix) - max_length)) text
      ++ suffix
  /\ max_length < Z.of_nat (length (truncate_string text max_length suffix)).
Proof.
  forget_parameters.
  intros Hsuffix Htext. unfold truncate_string, slice_stop.
  assert ((Z.of_nat (length text) <=? max_length) = false) as -> by (apply Z.leb_gt; lia).
  assert ((max_length - Z.of_nat (length suffix) <? 0) = true) as ->
    by (apply Z.ltb_lt; lia).
  replace (Z.to_nat (Z.of_nat (length text) + (max_length - Z.of_nat (length suffix))))
    with (length text - Z.to_nat (Z.of_nat (length suffix) - max_length))%nat by lia.
  split; [reflexivity|]. rewrite length_app. lia.
Qed.

Lemma str_eqb_refl (s : str) : str_eqb s s = true.
Proof.
  forget_parameters.
  induction s as [|c r IH]; [reflexivity|]. simpl.
  unfold char_eqb. rewrite N.eqb_refl. exact IH.
Qed.

Lemma dict_get_in {V} (d : list (str * V)) (key : str) :
  In key (List.map fst d) -> exists v, dict_get d key = Some v.
Proof.
  forget_parameters.
  induction d as [|[k v] d IH]; simpl; [contradiction|].
  intros [-> | H].
  - rewrite str_eqb_refl. eauto.
  - destruct (str_eqb k key); eauto.
Qed.

(** X12. Every category that [normalize_merchant] can return has an
    entry in [CATEGORY_DISPLAY_NAMES]: the reports never fall back on
    [category.title()] for a category of a normalized transaction. *)
Theorem display_name_known (v : value) :
  exists name,
    dict_get CATEGORY_DISPLAY_NAMES (snd (normalize_merchant v)) = Some name
    /\ category_display_name (snd (normalize_merchant v)) = name.
Proof.
  assert (H : exists name,
             dict_get CATEGORY_DISPLAY_NAMES (snd (normalize_merchant v)) = Some name).
  { apply dict_get_in.
    destruct (normalize_merchant_category v) as [-> | H].
    - vm_compute. auto 20.
    - revert H. generalize (snd (normalize_merchant v)). intros c H.
      simpl in H. simpl. clear -H.
      repeat (destruct H as [<- | H]; [auto 20|]). contradiction. }
  destruct H as [name H]. exists name. split; [exact H|].
  unfold category_display_name. rewrite H. reflexivity.
Qed.

End UtilsFacts.

(** ** [parser.py]: the loop over the rows *)

Section ParserFacts.

Lemma str_eqb_eq (a b : str) : str_eqb a b = true <-> a = b.
Proof.
  forget_parameters.
  revert b. induction a as [|x a IH]; intros [|y b]; simpl; split;
    try discriminate; try reflexivity.
  - intros H. apply andb_true_iff in H as [Hx Ha].
    apply N.eqb_eq in Hx. apply IH in Ha. congruence.
  - intros [= -> ->]. unfold char_eqb. rewrite N.eqb_refl. apply IH. reflexivity.
Qed.

Lemma dict_get_set {V} (d : list (str * V)) (k k' : str) (v : V) :
  dict_get (dict_set d k v) k'
  = if str_eqb k k' then Some v else dict_get d k'.
Proof.
  forget_parameters.
  induction d as [|[k0 w] d IH]; simpl; [reflexivity|].
  destruct (str_eqb k0 k) eqn:E0; simpl.
  - apply str_eqb_eq in E0. subst k0. destruct (str_eqb k k'); reflexivity.
  - rewrite IH. destruct (str_eqb k0 k') eqn:E1; [|reflexivity].
    destruct (str_eqb k k') eqn:E2; [|reflexivity].
    apply str_eqb_eq in E1, E2. subst. rewrite str_eqb_refl in E0. discriminate.
Qed.

Lemma dict_set_values {V} (P : V -> Prop) (d : list (str * V)) (k : str) (v : V) :
  Forall (fun kv => P (snd kv)) d -> P v ->
  Forall (fun kv => P (snd kv)) (dict_set d k v).
Proof.
  forget_parameters.
  intros Hd Hv. induction Hd as [|[k0 w] d Hw Hd IH]; simpl.
  - constructor; [exact Hv | constructor].
  - destruct (str_eqb k0 k); constructor; assumption.
Qed.

Lemma dict_get_value {V} (P : V -> Prop) (d : list (str * V)) (k : str) (v : V) :
  Forall (fun kv => P (snd kv)) d -> dict_get d k = Some v -> P v.
Proof.
  forget_parameters.
  intros Hd. induction Hd as [|[k0 w] d Hw Hd IH]; simpl; [discriminate|].
  destruct (str_eqb k0 k); [intros [= <-]; exact Hw | exact IH].
Qed.

Lemma stripped_value_trimmed (value : cell) (s : str) :
  stripped_value value = Fine s -> strip s = s.
Proof.
  forget_parameters.
  destruct value as [|t|[|f fs]]; simpl; try discriminate; intros [= <-];
    try reflexivity.
  destruct (nonempty t); [apply strip_strip | reflexivity].
Qed.

(** The values of the normalized row are trimmed, and its keys are the
    trimmed lower-cased names of the row's columns. *)
Lemma normalized_row_from_spec (items : row) :
  forall acc normalized_row,
    normalized_row_from items acc = Fine normalized_row ->
    (Forall (fun kv => strip (snd kv) = snd kv) acc ->
     Forall (fun kv => strip (snd kv) = snd kv) normalized_row)
    /\ (forall key,
          dict_has normalized_row key
          = dict_has acc key
            || existsb (fun item : option str * cell =>
                          match fst item with
                          | Some k => str_eqb (strip (lower k)) key
                          | None => false
                          end) items).
Proof.
  induction items as [|[key value] rest IH]; intros acc nr; simpl.
  - intros [= <-]. split; [auto|]. intros key. rewrite orb_false_r. reflexivity.
  - destruct key as [k|]; simpl; [|discriminate].
    destruct (stripped_value value) as [v|m] eqn:Ev; [|discriminate].
    intros H. destruct (IH _ _ H) as [Hvalues Hkeys]. split.
    + intros Hacc. apply Hvalues.
      apply (dict_set_values (fun s => strip s = s)); [exact Hacc|].
      eapply stripped_value_trimmed, Ev.
    + intros key. rewrite Hkeys. unfold dict_has at 1. rewrite dict_get_set.
      fold (dict_has acc key).
      destruct (str_eqb (strip (lower k)) key); simpl.
      * rewrite orb_true_r. reflexivity.
      * reflexivity.
Qed.

Lemma extract_transaction_trimmed (n : N) (normalized_row : list (str * str)) :
  Forall (fun kv => strip (snd kv) = snd kv) normalized_row ->
  trimmed (extract_transaction n normalized_row).
Proof.
  forget_parameters.
  intros H.
  assert (G : forall key s, dict_get normalized_row key = Some s -> strip s = s)
    by (intros key s; apply (dict_get_value (fun v => strip v = v)), H).
  assert (D : forall key, strip (default [] (dict_get normalized_row key))
                          = default [] (dict_get normalized_row key)).
  { intros key. destruct (dict_get normalized_row key) as [s|] eqn:E; simpl.
    - eapply G, E.
    - reflexivity. }
  unfold trimmed, extract_transaction. cbn [t_date t_merchant t_amount t_category
    t_description t_notes].
  repeat split; first [apply D | apply G].
Qed.

Lemma parse_rows_spec (rows : list row) :
  forall n transactions errors transactions' errors',
    parse_rows n rows transactions errors = Fine (transactions', errors') ->
    exists new,
      transactions' = transactions ++ new
      /\ StronglySorted N.lt (List.map t_row_number new)
      /\ Forall (fun t =>
                   (n <= t_row_number t)%N
                   /\ exists r,
                       nth_error rows (N.to_nat (t_row_number t - n)) = Some r
                       /\ skipped r = false /\ read_from r t /\ trimmed t) new.
Proof.
  induction rows as [|r rest IH]; intros n ts es ts' es'; cbn [parse_rows].
  - intros [= <- <-]. exists []. rewrite app_nil_r. repeat constructor.
  - assert (Shift : forall new,
              Forall (fun t =>
                        (n + 1 <= t_row_number t)%N
                        /\ exists r0,
                            nth_error rest (N.to_nat (t_row_number t - (n + 1))) = Some r0
                            /\ skipped r0 = false /\ read_from r0 t /\ trimmed t) new ->
              Forall (fun t =>
                        (n <= t_row_number t)%N
                        /\ exists r0,
                            nth_error (r :: rest) (N.to_nat (t_row_number t - n)) = Some r0
                            /\ skipped r0 = false /\ read_from r0 t /\ trimmed t) new
              /\ Forall (N.lt n) (List.map t_row_number new)).
    { intros new Hnew. induction Hnew as [|t new (Hn & r0 & Hr0 & Ht) _ [IH1 IH2]].
      - split; constructor.
      - split; constructor; auto; [|lia].
        split; [lia|]. exists r0. split; [|exact Ht].
        replace (N.to_nat (t_row_number t - n))
          with (S (N.to_nat (t_row_number t - (n + 1)))) by lia.
        exact Hr0. }
    destruct (all_blank (List.map snd r)) as [[|]|m] eqn:Eb; [| |discriminate].
    + intros H. destruct (IH _ _ _ _ _ H) as (new & -> & Hsorted & Hnew).
      exists new. split; [reflexivity|]. split; [exact Hsorted|].
      apply Shift, Hnew.
    + destruct (normalized_row_from r []) as [nr|m] eqn:En; [|discriminate].
      destruct (forallb (dict_has nr) REQUIRED_COLUMNS) eqn:Ereq; cbn [negb].
      * intros H. destruct (IH _ _ _ _ _ H) as (new & -> & Hsorted & Hnew).
        destruct (Shift new Hnew) as [Hnew' Hlt].
        exists (extract_transaction n nr :: new).
        split; [rewrite <- app_assoc; reflexivity|]. split.
        -- cbn [List.map]. constructor; [exact Hsorted|exact Hlt].
        -- constructor; [|exact Hnew'].
           cbn [extract_transaction t_row_number]. split; [lia|].
           exists r. rewrite N.sub_diag. split; [reflexivity|].
           split; [unfold skipped; rewrite Eb; reflexivity|]. split.
           ++ exists nr. split; [exact En|]. split; [exact Ereq|reflexivity].
           ++ apply extract_transaction_trimmed.
              apply (proj1 (normalized_row_from_spec _ _ _ En)). constructor.
      * intros H. destruct (IH _ _ _ _ _ H) as (new & -> & Hsorted & Hnew).
        exists new. split; [reflexivity|]. split; [exact Hsorted|].
        apply Shift, Hnew.
Qed.

(** X13. The transactions that [parse_transactions_csv] returns are
    numbered with the lines of the file they come from, the header being
    line 1: the row numbers start at 2 and increase strictly, the
    transaction numbered [n] is built from the row of index [n - 2],
    which is not an empty row, and none of its fields has white space
    left at either end. *)
Theorem parsed_rows_are_numbered (rows : list row) (transactions : list transaction) :
  parse_transactions_csv rows = Transactions transactions ->
  StronglySorted N.lt (List.map t_row_number transactions)
  /\ Forall (fun t =>
               (2 <= t_row_number t)%N
               /\ exists r,
                   nth_error rows (N.to_nat (t_row_number t - 2)) = Some r
                   /\ skipped r = false /\ read_from r t /\ trimmed t)
       transactions.
Proof.
  unfold parse_transactions_csv.
  destruct (parse_rows 2 rows [] []) as [[ts es]|m] eqn:E; [|discriminate].
  intros [= <-]. destruct (parse_rows_spec _ _ _ _ _ _ E) as (new & -> & Hsorted & Hnew).
  split; [exact Hsorted | exact Hnew].
Qed.

Lemma extra_fields_raise (r : row) :
  reader_row r -> has_extra_fields r = true ->
  all_blank (List.map snd r) <> Fine true
  /\ forall acc, exists m, normalized_row_from r acc = AttributeError m.
Proof.
  intros Hr. induction Hr as [|[key value] rest Hitem Hrest IH]; [discriminate|].
  unfold has_extra_fields. cbn [existsb fst]. intros Hextra.
  destruct key as [k|].
  - cbn [is_None orb] in Hextra. destruct (IH Hextra) as [Hblank Hraise].
    cbn [List.map snd all_blank normalized_row_from normalized_key].
    destruct value as [|s|l]; [| |contradiction]; cbn [blank_value stripped_value].
    + split; [exact Hblank|]. intros acc. apply Hraise.
    + split; [|intros acc; apply Hraise].
      destruct (negb (nonempty s) || negb (nonempty (strip s))); [exact Hblank|discriminate].
  - destruct value as [| |[|f fs]]; try contradiction.
    split; [discriminate|]. intros acc. simpl. eauto.
Qed.

Lemma no_extra_fields_fine (r : row) :
  reader_row r -> has_extra_fields r = false ->
  (exists b, all_blank (List.map snd r) = Fine b)
  /\ forall acc, exists normalized_row, normalized_row_from r acc = Fine normalized_row.
Proof.
  intros Hr. induction Hr as [|[key value] rest Hitem Hrest IH].
  - intros _. split; [exists true; reflexivity|]. intros acc. exists acc. reflexivity.
  - unfold has_extra_fields. cbn [existsb fst]. intros Hextra.
    destruct key as [k|]; [|discriminate]. cbn [is_None orb] in Hextra.
    destruct (IH Hextra) as [[b Hblank] Hfine].
    cbn [List.map snd all_blank normalized_row_from normalized_key].
    destruct value as [|s|l]; [| |contradiction]; cbn [blank_value stripped_value].
    + split; [eauto|]. intros acc. apply Hfine.
    + split; [|intros acc; apply Hfine].
      destruct (negb (nonempty s) || negb (nonempty (strip s))); eauto.
Qed.

Lemma parse_rows_raises (rows : list row) :
  Forall reader_row rows -> Exists (fun r => has_extra_fields r = true) rows ->
  forall n transactions errors,
    exists m, parse_rows n rows transactions errors = AttributeError m.
Proof.
  intros Hrows. induction Hrows as [|r rest Hr Hrest IH]; intros Hex n ts es.
  - inversion Hex.
  - cbn [parse_rows]. destruct (has_extra_fields r) eqn:Er.
    + destruct (extra_fields_raise r Hr Er) as [Hblank Hraise].
      destruct (all_blank (List.map snd r)) as [[|]|m]; [contradiction| |eauto].
      destruct (Hraise []) as [m ->]. eauto.
    + assert (Hex' : Exists (fun r => has_extra_fields r = true) rest).
      { inversion Hex as [? ? H|? ? H]; subst; [congruence|exact H]. }
      destruct (no_extra_fields_fine r Hr Er) as [[b ->] Hfine].
      destruct (Hfine []) as [nr ->].
      destruct b; [apply IH, Hex'|].
      destruct (negb _); apply IH, Hex'.
Qed.

Lemma parse_rows_returns (rows : list row) :
  Forall reader_row rows -> Forall (fun r => has_extra_fields r = false) rows ->
  forall n transactions errors,
    exists result, parse_rows n rows transactions errors = Fine result.
Proof.
  intros Hrows. induction Hrows as [|r rest Hr Hrest IH]; intros Hall n ts es.
  - cbn [parse_rows]. eauto.
  - inversion Hall as [|? ? Er Hall']; subst. cbn [parse_rows].
    destruct (no_extra_fields_fine r Hr Er) as [[b ->] Hfine].
    destruct (Hfine []) as [nr ->].
    destruct b; [apply IH, Hall'|].
    destruct (negb _); apply IH, Hall'.
Qed.

(** X14. On rows as [csv.DictReader] builds them, parsing fails exactly
    when some line has more fields than the header: one such line
    anywhere in the file turns the whole call into a [ParserError], and
    without one the call returns its list, short lines and lines
    without the required columns included. *)
Theorem extra_fields_fail_the_parse (rows : list row) :
  Forall reader_row rows ->
  ((exists message, parse_transactions_csv rows = ParserError message)
   <-> Exists (fun r => has_extra_fields r = true) rows)
  /\ ((exists transactions, parse_transactions_csv rows = Transactions transactions)
      <-> Forall (fun r => has_extra_fields r = false) rows).
Proof.
  intros Hrows. unfold parse_transactions_csv.
  assert (Hdec : forall r : row,
            {has_extra_fields r = true} + {has_extra_fields r <> true}).
  { intros r. destruct (has_extra_fields r); [left; reflexivity | right; discriminate]. }
  destruct (List.Exists_dec (fun r => has_extra_fields r = true) rows Hdec) as [Hex|Hno].
  - destruct (parse_rows_raises rows Hrows Hex 2%N [] []) as [m ->].
    split; split; eauto.
    + intros [ts H]. discriminate.
    + intros Hall. exfalso. apply List.Exists_exists in Hex as (r & Hin & Hr).
      rewrite List.Forall_forall in Hall. rewrite (Hall r Hin) in Hr. discriminate.
  - assert (Hall : Forall (fun r => has_extra_fields r = false) rows).
    { apply List.Forall_forall. intros r Hin.
      destruct (has_extra_fields r) eqn:E; [|reflexivity].
      exfalso. apply Hno, List.Exists_exists. eauto. }
    destruct (parse_rows_returns rows Hrows Hall 2%N [] []) as [[ts es] ->].
    split; split; eauto.
    + intros [m H]. discriminate.
    + intros H. contradiction.
Qed.

Lemma parse_rows_no_reject (rows : list row) :
  Forall (fun r => forall normalized_row,
              normalized_row_from r [] = Fine normalized_row ->
              forallb (dict_has normalized_row) REQUIRED_COLUMNS = true) rows ->
  forall n transactions errors transactions' errors',
    parse_rows n rows transactions errors = Fine (transactions', errors') ->
    errors' = errors
    /\ length transactions'
       = (length transactions + length (List.filter (fun r => negb (skipped r)) rows))%nat.
Proof.
  forget_parameters.
  intros Hrows. induction Hrows as [|r rest Hr Hrest IH]; intros n ts es ts' es';
    cbn [parse_rows].
  - intros [= <- <-]. split; [reflexivity|]. simpl. lia.
  - cbn [List.filter]. unfold skipped at 1.
    destruct (all_blank (List.map snd r)) as [[|]|m]; [| |discriminate]; cbn [negb].
    + apply IH.
    + destruct (normalized_row_from r []) as [nr|m]; [|discriminate].
      rewrite (Hr nr eq_refl). cbn [negb].
      intros H. apply IH in H as [-> ->]. split; [reflexivity|].
      rewrite length_app. simpl. lia.
Qed.

(** X15. After [validate_csv_structure] has found no required column
    missing in the header, no row is rejected for missing columns: when
    every row has an item for every column, as the rows of the reader
    have, each row that is not skipped as empty gives a transaction. *)
Theorem validated_header_rejects_no_row
    (fieldnames : list str) (rows : list row) (transactions : list transaction) :
  missing_columns fieldnames = [] ->
  Forall (has_columns fieldnames) rows ->
  parse_transactions_csv rows = Transactions transactions ->
  length transactions = length (List.filter (fun r => negb (skipped r)) rows)
  /\ parse_rows 2 rows [] [] = Fine (transactions, []).
Proof.
  intros Hmissing Hrows. unfold parse_transactions_csv.
  destruct (parse_rows 2 rows [] []) as [[ts es]|m] eqn:E; [|discriminate].
  intros [= <-].
  assert (Hreq : forall c, In c REQUIRED_COLUMNS ->
            exists f, In f fieldnames /\ strip (lower f) = c).
  { intros c Hc. unfold missing_columns in Hmissing.
    assert (Hf : negb (existsb (str_eqb c)
                         (List.map (fun col => strip (lower col)) fieldnames)) = false).
    { apply not_true_is_false. intros Ht.
      assert (Hin : In c (List.filter
                (fun c => negb (existsb (str_eqb c)
                                  (List.map (fun col => strip (lower col)) fieldnames)))
                REQUIRED_COLUMNS)) by (apply filter_In; split; assumption).
      rewrite Hmissing in Hin. exact Hin. }
    apply negb_false_iff, existsb_exists in Hf as (x & Hx & Heq).
    apply in_map_iff in Hx as (f & <- & Hf). apply str_eqb_eq in Heq.
    exists f. split; [exact Hf | symmetry; exact Heq]. }
  assert (Hall : Forall (fun r => forall normalized_row,
                   normalized_row_from r [] = Fine normalized_row ->
                   forallb (dict_has normalized_row) REQUIRED_COLUMNS = true) rows).
  { eapply List.Forall_impl; [|exact Hrows]. intros r Hr nr Hnr.
    apply forallb_forall. intros c Hc.
    destruct (Hreq c Hc) as (f & Hf & Hkey).
    rewrite (proj2 (normalized_row_from_spec _ _ _ Hnr) c). cbn [dict_has dict_get orb].
    apply existsb_exists. specialize (Hr f Hf).
    apply in_map_iff in Hr as ([key value] & Hk & Hin). simpl in Hk. subst key.
    exists (Some f, value). split; [exact Hin|]. cbn [fst].
    apply str_eqb_eq. exact Hkey. }
  destruct (parse_rows_no_reject rows Hall _ _ _ _ _ E) as [-> Hlen].
  split; [exact Hlen | reflexivity].
Qed.

End ParserFacts.

(** ** [main.py]: from the parsed rows to the cleaned output *)

Section PipelineFacts.

Lemma normalize_transaction_returns (date merchant amount : value) :
  parse_contract -> exists r, normalize_transaction date merchant amount = Returns r.
Proof.
  intros Hc. unfold normalize_transaction.
  destruct (normalize_date_returns date Hc) as [d ->].
  destruct (normalize_amount_returns amount) as [a ->].
  cbn [bind]. destruct (normalize_merchant merchant). eauto.
Qed.

Lemma cleaned_transactions_filter (normalized_results : list (N * normalized)) :
  cleaned_transactions normalized_results
  = List.map
      (fun numbered : N * normalized =>
         mkCleaned (normalized_date (snd numbered)) (normalized_merchant (snd numbered))
           (str_of_amount (normalized_amount (snd numbered))) (category (snd numbered)))
      (List.filter (fun numbered : N * normalized => is_valid (snd numbered))
         normalized_results).
Proof.
  forget_parameters.
  unfold cleaned_transactions.
  set (f := fun (cleaned : list cleaned_transaction) (numbered : N * normalized) => _).
  set (g := fun numbered : N * normalized => mkCleaned _ _ _ _).
  assert (G : forall acc,
             fold_left f normalized_results acc
             = acc ++ List.map g (List.filter (fun numbered : N * normalized =>
                                                 is_valid (snd numbered))
                                    normalized_results)).
  { induction normalized_results as [|[n r] rest IH]; intros acc; cbn [fold_left].
    - simpl. rewrite app_nil_r. reflexivity.
    - cbn [List.filter snd]. unfold f at 2. cbn [snd]. destruct (is_valid r).
      + rewrite IH, <- app_assoc. reflexivity.
      + apply IH. }
  apply (G []).
Qed.

(** X16. With a date parser that raises nothing but what it documents,
    the normalization of the parsed transactions never fails: there is
    one record for each transaction, in the same order and under the
    same row number, each the record [normalize_transaction] gives for
    the three fields of its row; and the cleaned output has as many rows
    as the statistics count valid transactions. *)
Theorem parsed_rows_are_normalized (transactions : list transaction) :
  parse_contract ->
  exists normalized_results,
    normalize_rows transactions = Returns normalized_results
    /\ Forall2
         (fun t (numbered : N * normalized) =>
            fst numbered = t_row_number t
            /\ normalize_transaction (VStr (t_date t)) (VStr (t_merchant t))
                 (VStr (t_amount t)) = Returns (snd numbered))
         transactions normalized_results
    /\ Z.of_nat (length (cleaned_transactions normalized_results))
       = valid_transactions (get_normalization_stats (List.map snd normalized_results)).
Proof.
  intros Hc.
  assert (H : exists normalized_results,
             normalize_rows transactions = Returns normalized_results
             /\ Forall2
                  (fun t (numbered : N * normalized) =>
                     fst numbered = t_row_number t
                     /\ normalize_transaction (VStr (t_date t)) (VStr (t_merchant t))
                          (VStr (t_amount t)) = Returns (snd numbered))
                  transactions normalized_results).
  { induction transactions as [|t rest (results & Hrest & Hall)]; cbn [normalize_rows].
    - exists []. split; [reflexivity | constructor].
    - destruct (normalize_transaction_returns (VStr (t_date t)) (VStr (t_merchant t))
                  (VStr (t_amount t)) Hc) as [r Hr].
      rewrite Hr, Hrest. cbn [bind]. exists ((t_row_number t, r) :: results).
      split; [reflexivity|]. constructor; [split; [reflexivity | exact Hr] | exact Hall]. }
  destruct H as (results & Hrows & Hall). exists results.
  split; [exact Hrows|]. split; [exact Hall|].
  unfold get_normalization_stats. cbn [valid_transactions].
  rewrite sum_if_count, cleaned_transactions_filter, length_map. unfold count_where.
  clear. induction results as [|[n r] rest IH]; [reflexivity|].
  cbn [List.map List.filter snd]. destruct (is_valid r); cbn [length]; lia.
Qed.

(** X17. The cleaned output is clean: each of its rows has a date and an
    amount, and [normalize_transaction] on the date, the merchant and
    the amount text of the row gives a valid record without messages
    that has the same date and the same amount, the parser handing out
    dates of the calendar only. *)
Theorem cleaned_rows_normalize_to_themselves
    (normalized_results : list (N * normalized)) (c : cleaned_transaction) :
  parse_valid ->
  Forall normalized_output (List.map snd normalized_results) ->
  In c (cleaned_transactions normalized_results) ->
  exists d m q r,
    c_date c = Some d /\ c_merchant c = Some m /\ c_amount c = Decimal_str q
    /\ normalize_transaction (VStr d) (VStr m) (VStr (c_amount c)) = Returns r
    /\ is_valid r = true /\ errors r = []
    /\ normalized_date r = Some d /\ normalized_amount r = Some q.
Proof.
  intros Hvalid Hall Hin.
  rewrite cleaned_transactions_filter in Hin.
  apply in_map_iff in Hin as ([n r0] & <- & Hin).
  apply filter_In in Hin as [Hin Hv]. cbn [snd] in *.
  rewrite List.Forall_forall in Hall.
  destruct (Hall r0) as (date & merchant & amount & Hr0).
  { apply in_map_iff. exists (n, r0). split; [reflexivity | exact Hin]. }
  apply normalize_transaction_fields in Hr0 as (d0 & a0 & Hd & Ha & ->).
  cbn [is_valid normalized_date normalized_merchant normalized_amount category] in *.
  destruct d0 as [d|]; [|discriminate]. destruct a0 as [q|]; [|discriminate].
  cbn [c_date c_merchant c_amount str_of_amount].
  destruct (normalize_date_parsed_valid _ _ Hvalid Hd) as (dt & -> & Hdt & Hy).
  pose proof (normalize_date_of_valid dt Hdt Hy) as Hdate.
  apply normalize_amount_result in Ha as [He Hrange].
  pose proof (normalize_amount_of_cents q He (in_range_coeff q Hrange)) as Hamount.
  set (m := fst (normalize_merchant merchant)).
  exists (strftime_iso dt), m, q.
  unfold normalize_transaction. rewrite Hdate, Hamount. cbn [bind is_None].
  destruct (normalize_merchant (VStr m)) as [name cat].
  eexists. repeat (split; [reflexivity|]). reflexivity.
Qed.

End PipelineFacts.

(** ** [analyzer.py]: the statistics of a batch *)

Section AnalyzerFacts.

Variable Decimal_add : Decimal -> Decimal -> Decimal.
Variable Decimal_div : Decimal -> Decimal -> Decimal.

Local Open Scope Z_scope.

Lemma size_list_to_set_le (values : list (option str)) :
  (size (list_to_set values : gset (option str)) <= length values)%nat.
Proof.
  clear. induction values as [|x l IH].
  - rewrite list_to_set_nil, size_empty. simpl. lia.
  - rewrite list_to_set_cons, size_union_alt, size_singleton. cbn [length].
    assert (Hsub : (size ((list_to_set l : gset (option str)) ∖ {[x]})
                    <= size (list_to_set l : gset (option str)))%nat).
    { apply subseteq_size. apply subseteq_difference_l. reflexivity. }
    lia.
Qed.

Lemma count_distinct_bounds (values : list (option str)) :
  values <> [] -> 1 <= count_distinct values <= Z.of_nat (length values).
Proof.
  clear. intros Hne. unfold count_distinct.
  pose proof (size_list_to_set_le values) as Hle.
  destruct values as [|x l]; [contradiction|].
  assert (size (list_to_set (x :: l) : gset (option str)) <> 0%nat).
  { apply size_non_empty_iff. intros Hempty.
    assert (x ∈ (list_to_set (x :: l) : gset (option str))) as Hx by set_solver.
    rewrite Hempty in Hx. set_solver. }
  lia.
Qed.

Lemma count_distinct_subset (values allowed : list (option str)) :
  (forall x, In x values -> In x allowed) ->
  count_distinct values <= Z.of_nat (length allowed).
Proof.
  clear. intros Hsub. unfold count_distinct.
  pose proof (size_list_to_set_le allowed) as Hle.
  assert ((list_to_set values : gset (option str)) ⊆ list_to_set allowed) as H.
  { intros x Hx. apply elem_of_list_to_set in Hx. apply elem_of_list_to_set.
    apply list_elem_of_In. apply Hsub. apply list_elem_of_In. exact Hx. }
  apply subseteq_size in H. lia.
Qed.

Lemma filter_partition_length {A} (p : A -> bool) (l : list A) :
  Z.of_nat (length (List.filter (fun t => negb (p t)) l))
  = Z.of_nat (length l) - count_where p l.
Proof.
  clear. unfold count_where. induction l as [|x l IH]; simpl; [reflexivity|].
  destruct (p x); simpl; lia.
Qed.

(** X18. The counts of [get_statistics]: the invalid count is always the
    number of records that are not valid. Without a valid record the
    total is reported as 0 whatever that number is, with no merchant and
    no category; with one, the total is the number of records, the sum
    of the valid and invalid counts, and there are at least one and at
    most as many distinct merchants, and categories, as valid records. *)
Theorem analyzer_statistics_counts (transactions : list normalized) :
  let s := get_statistics Decimal_add Decimal_div (SpendingAnalyzer_init transactions) in
  a_invalid_transactions s
  = Z.of_nat (length transactions) - count_where is_valid transactions
  /\ (count_where is_valid transactions = 0 ->
      a_total_transactions s = 0 /\ a_valid_transactions s = 0
      /\ a_invalid_transactions s = Z.of_nat (length transactions)
      /\ a_unique_merchants s = 0 /\ a_unique_categories s = 0)
  /\ (0 < count_where is_valid transactions ->
      a_total_transactions s = Z.of_nat (length transactions)
      /\ a_valid_transactions s = count_where is_valid transactions
      /\ a_total_transactions s = a_valid_transactions s + a_invalid_transactions s
      /\ 1 <= a_unique_merchants s <= a_valid_transactions s
      /\ 1 <= a_unique_categories s <= a_valid_transactions s).
Proof.
  forget_parameters. cbv zeta.
  pose proof (filter_partition_length is_valid transactions) as Hinvalid.
  unfold get_statistics, SpendingAnalyzer_init.
  cbn [self_transactions self_valid_transactions self_invalid_transactions].
  unfold count_where in *.
  destruct (List.filter (fun t => is_valid t) transactions) as [|t valid] eqn:E.
  - cbn [a_invalid_transactions a_total_transactions a_valid_transactions
         a_unique_merchants a_unique_categories].
    rewrite Hinvalid. simpl length.
    split; [reflexivity|]. split; [intros _; repeat split; lia|]. intros H. simpl in H. lia.
  - cbn [a_invalid_transactions a_total_transactions a_valid_transactions
         a_unique_merchants a_unique_categories].
    rewrite Hinvalid.
    split; [reflexivity|]. split; [intros H; simpl in H; lia|]. intros _.
    pose proof (count_distinct_bounds (List.map normalized_merchant (t :: valid))) as Hm.
    pose proof (count_distinct_bounds (List.map category (t :: valid))) as Hc.
    rewrite length_map in Hm, Hc.
    split; [reflexivity|]. split; [reflexivity|]. split; [lia|].
    split; [apply Hm | apply Hc]; discriminate.
Qed.

Lemma sum_amounts_decimal (first : Decimal) (rest : list Decimal) :
  exists d, sum_amounts Decimal_add (first :: rest) = TotalDecimal d.
Proof.
  forget_parameters.
  unfold sum_amounts. cbn [fold_left].
  generalize (Decimal_add first (of_Z 0)).
  induction rest as [|a rest IH]; intros d; cbn [fold_left]; eauto.
Qed.

Lemma valid_amounts (transactions : list normalized) :
  Forall normalized_output transactions ->
  flat_map (fun t => match normalized_amount t with Some a => [a] | None => [] end)
    (List.filter (fun t => is_valid t) transactions)
  = List.map (fun t => default (of_Z 0) (normalized_amount t))
      (List.filter (fun t => is_valid t) transactions).
Proof.
  intros Hall. induction Hall as [|r l (date & merchant & amount & Hr) _ IH];
    [reflexivity|].
  cbn [List.filter].
  destruct (is_valid r) eqn:Hv; [|exact IH].
  cbn [flat_map List.map]. rewrite IH.
  apply normalize_transaction_fields in Hr as (d & a & _ & _ & ->).
  cbn [is_valid normalized_amount] in *.
  destruct a; [reflexivity|]. rewrite andb_false_r in Hv. discriminate.
Qed.

(** X19. On the records of [normalize_transaction], the analyzer and the
    normalizer agree on the invalid count; there are at most eleven
    distinct categories; and when a record is valid the valid counts
    agree too, the total spending is a [Decimal], every valid record
    having an amount, and the average is that total divided by the
    number of valid records. *)
Theorem analyzer_on_normalized_records (transactions : list normalized) :
  Forall normalized_output transactions ->
  let s := get_statistics Decimal_add Decimal_div (SpendingAnalyzer_init transactions) in
  a_invalid_transactions s
  = invalid_transactions (get_normalization_stats transactions)
  /\ a_unique_categories s <= 11
  /\ (0 < count_where is_valid transactions ->
      a_valid_transactions s = valid_transactions (get_normalization_stats transactions)
      /\ exists d,
          a_total_spending s = TotalDecimal d
          /\ a_average_transaction s
             = Decimal_div d (of_Z (a_valid_transactions s))).
Proof.
  intros Hall. cbv zeta.
  pose proof (filter_partition_length is_valid transactions) as Hinvalid.
  pose proof (valid_amounts transactions Hall) as Hamounts.
  assert (Hcats : forall l : list normalized, Forall normalized_output l ->
            count_distinct (List.map category l) <= 11).
  { intros l Hl.
    apply (count_distinct_subset _
             (List.map Some (u "other" :: List.map fst MERCHANT_CATEGORIES))).
    intros x Hx. apply in_map_iff in Hx as (r & <- & Hr).
    rewrite List.Forall_forall in Hl.
    destruct (Hl r Hr) as (date & merchant & amount & Hrec).
    apply normalize_transaction_fields in Hrec as (d & a & _ & _ & ->).
    cbn [category]. apply in_map.
    destruct (normalize_merchant_category merchant) as [-> | H];
      [left; reflexivity | right; exact H]. }
  assert (Hvalid : Forall normalized_output
                     (List.filter (fun t => is_valid t) transactions)).
  { apply List.Forall_forall. intros r Hr. apply filter_In in Hr as [Hr _].
    rewrite List.Forall_forall in Hall. apply Hall, Hr. }
  specialize (Hcats _ Hvalid).
  unfold get_normalization_stats.
  cbn [invalid_transactions valid_transactions]. rewrite sum_if_count.
  unfold get_statistics, SpendingAnalyzer_init.
  cbn [self_transactions self_valid_transactions self_invalid_transactions].
  rewrite Hamounts. unfold count_where in *.
  destruct (List.filter (fun t => is_valid t) transactions) as [|t valid] eqn:E.
  - cbn [a_invalid_transactions a_valid_transactions a_unique_categories
         a_total_spending a_average_transaction].
    split; [exact Hinvalid|]. split; [lia|]. intros H. simpl in H. lia.
  - cbn [a_invalid_transactions a_valid_transactions a_unique_categories
         a_total_spending a_average_transaction].
    split; [exact Hinvalid|]. split; [exact Hcats|]. intros _.
    split; [reflexivity|].
    cbn [List.map].
    destruct (sum_amounts_decimal (default (of_Z 0) (normalized_amount t))
                (List.map (fun t => default (of_Z 0) (normalized_amount t)) valid))
      as [d Hd].
    exists d. rewrite Hd. split; [reflexivity|].
    cbn [length]. rewrite length_map. reflexivity.
Qed.

End AnalyzerFacts.

(** ** Across the modules *)

Section AcrossFacts.

Variable Decimal_add : Decimal -> Decimal -> Decimal.
Variable Decimal_div : Decimal -> Decimal -> Decimal.

Local Open Scope Z_scope.

Lemma normalize_rows_spec (transactions : list transaction) :
  forall normalized_results,
    normalize_rows transactions = Returns normalized_results ->
    Forall2
      (fun t (numbered : N * normalized) =>
         normalize_transaction (VStr (t_date t)) (VStr (t_merchant t))
           (VStr (t_amount t)) = Returns (snd numbered))
      transactions normalized_results.
Proof.
  induction transactions as [|t rest IH]; intros results; cbn [normalize_rows].
  - intros [= <-]. constructor.
  - destruct (normalize_transaction _ _ _) as [r|e] eqn:Hr; [|discriminate].
    cbn [bind]. destruct (normalize_rows rest) as [rs|e]; [|discriminate].
    cbn [bind]. intros [= <-]. constructor; [exact Hr | apply IH; reflexivity].
Qed.

Lemma count_where_Forall2_le {A B} (p : A -> bool) (q : B -> bool)
    (l1 : list A) (l2 : list B) :
  Forall2 (fun x y => p x = true -> q y = true) l1 l2 ->
  count_where p l1 <= count_where q l2.
Proof.
  clear. intros H. induction H as [|x y l1 l2 Hxy _ IH].
  - reflexivity.
  - rewrite !count_where_cons. destruct (p x); [rewrite (Hxy eq_refl)|destruct (q y)]; lia.
Qed.

(** X20. The empty fields that [get_parse_statistics] counts come back
    as errors of the normalization: for the records that
    [process_transactions] builds from the parsed transactions, the
    totals agree, the count of empty dates is at most [date_errors], the
    count of empty amounts at most [amount_errors], and both are at most
    the count of invalid transactions. *)
Theorem empty_fields_become_errors
    (transactions : list transaction) (normalized_results : list (N * normalized)) :
  normalize_rows transactions = Returns normalized_results ->
  let p := get_parse_statistics transactions in
  let s := get_normalization_stats (List.map snd normalized_results) in
  total_rows p = total_transactions s
  /\ empty_dates p <= date_errors s
  /\ empty_amounts p <= amount_errors s
  /\ empty_dates p <= invalid_transactions s
  /\ empty_amounts p <= invalid_transactions s.
Proof.
  intros Hrows. cbv zeta. apply normalize_rows_spec in Hrows.
  assert (Hlen : length transactions = length normalized_results)
    by (eapply Forall2_length, Hrows).
  assert (Hfields : Forall2
            (fun t (r : normalized) =>
               (nonempty (t_date t) = false -> is_None (normalized_date r) = true)
               /\ (nonempty (t_amount t) = false -> is_None (normalized_amount r) = true)
               /\ (is_None (normalized_date r) = true -> is_valid r = false)
               /\ (is_None (normalized_amount r) = true -> is_valid r = false))
            transactions (List.map snd normalized_results)).
  { clear Hlen. induction Hrows as [|t [n r] ts rs Hr _ IH]; cbn [List.map];
      constructor; [|exact IH].
    cbn [snd] in *.
    apply normalize_transaction_fields in Hr as (d & a & Hd & Ha & ->).
    cbn [normalized_date normalized_amount is_valid].
    split; [|split; [|split]].
    - intros He. destruct (t_date t); [|discriminate].
      cbv in Hd. injection Hd as <-. reflexivity.
    - intros He. destruct (t_amount t); [|discriminate].
      cbv in Ha. injection Ha as <-. reflexivity.
    - intros ->. reflexivity.
    - intros ->. apply andb_false_r. }
  assert (Hdates : count_where (fun t => negb (nonempty (t_date t))) transactions
                   <= count_where (fun r => is_None (normalized_date r))
                        (List.map snd normalized_results)).
  { apply count_where_Forall2_le. eapply Forall2_impl; [exact Hfields|].
    intros t r (H & _) Hp. apply H. apply negb_true_iff, Hp. }
  assert (Hamounts : count_where (fun t => negb (nonempty (t_amount t))) transactions
                     <= count_where (fun r => is_None (normalized_amount r))
                          (List.map snd normalized_results)).
  { apply count_where_Forall2_le. eapply Forall2_impl; [exact Hfields|].
    intros t r (_ & H & _) Hp. apply H. apply negb_true_iff, Hp. }
  assert (Hinvalid : forall q : normalized -> bool,
            Forall2 (fun (t : transaction) r => q r = true -> is_valid r = false)
              transactions (List.map snd normalized_results) ->
            count_where q (List.map snd normalized_results)
            <= Z.of_nat (length normalized_results)
               - count_where is_valid (List.map snd normalized_results)).
  { intros q Hq. clear -Hq. revert Hq. generalize transactions.
    induction normalized_results as [|[n r] rs IH]; intros ts Hq.
    - cbn. unfold count_where. simpl. lia.
    - cbn [List.map snd] in *. inversion Hq as [|t r' ts' rs' Hr Hrest]; subst.
      rewrite !count_where_cons. specialize (IH _ Hrest). cbn [length].
      destruct (q r) eqn:E; [rewrite (Hr eq_refl)|destruct (is_valid r)]; lia. }
  unfold get_normalization_stats.
  cbn [total_transactions date_errors amount_errors invalid_transactions].
  rewrite !sum_if_count, length_map.
  assert (Hstats : total_rows (get_parse_statistics transactions)
                   = Z.of_nat (length transactions)
                   /\ empty_dates (get_parse_statistics transactions)
                      = count_where (fun t => negb (nonempty (t_date t))) transactions
                   /\ empty_amounts (get_parse_statistics transactions)
                      = count_where (fun t => negb (nonempty (t_amount t))) transactions).
  { unfold get_parse_statistics. destruct transactions as [|t ts]; cbn [negb].
    - repeat split.
    - cbn [total_rows empty_dates empty_amounts]. rewrite !sum_if_count. repeat split. }
  destruct Hstats as (-> & -> & ->).
  split; [rewrite Hlen; reflexivity|]. split; [exact Hdates|]. split; [exact Hamounts|].
  split.
  - etransitivity; [exact Hdates|]. apply Hinvalid.
    eapply Forall2_impl; [exact Hfields|]. intros t r (_ & _ & H & _). exact H.
  - etransitivity; [exact Hamounts|]. apply Hinvalid.
    eapply Forall2_impl; [exact Hfields|]. intros t r (_ & _ & _ & H). exact H.
Qed.

Lemma gt_cents (a b : Decimal) :
  dexp a = -2 -> dexp b = -2 ->
  PyDecimal.gt a b = (signed_coeff b <? signed_coeff a)
  /\ PyDecimal.lt a b = (signed_coeff a <? signed_coeff b).
Proof.
  clear. intros Ha Hb. unfold PyDecimal.gt, PyDecimal.lt, scaled.
  rewrite Ha, Hb. change ((-2) `min` (-2)) with (-2).
  change (10 ^ (-2 - -2)) with 1. rewrite !Z.mul_1_r. split; reflexivity.
Qed.

Lemma extreme_amounts (rest : list Decimal) :
  forall first,
    Forall (fun a => dexp a = -2) (first :: rest) ->
    (In (max_amount first rest) (first :: rest)
     /\ Forall (fun a => signed_coeff a <= signed_coeff (max_amount first rest))
          (first :: rest))
    /\ (In (min_amount first rest) (first :: rest)
        /\ Forall (fun a => signed_coeff (min_amount first rest) <= signed_coeff a)
             (first :: rest)).
Proof.
  clear. unfold max_amount, min_amount.
  induction rest as [|a rest IH]; intros first Hall; cbn [fold_left].
  - split; (split; [left; reflexivity | constructor; [lia | constructor]]).
  - inversion Hall as [|? ? Hfirst Hrest]; subst.
    inversion Hrest as [|? ? Ha Hrest']; subst.
    destruct (gt_cents a first Ha Hfirst) as [Hgt Hlt]. rewrite Hgt, Hlt.
    assert (Hkeep : Forall (fun a => dexp a = -2) (first :: rest))
      by (constructor; assumption).
    split.
    + destruct (Z.ltb_spec (signed_coeff first) (signed_coeff a)) as [Hc|Hc].
      * destruct (IH a Hrest) as [[Hin Hle] _].
        split; [right; exact Hin|].
        inversion Hle as [|? ? Hle1 Hle2]; subst.
        constructor; [lia | constructor; assumption].
      * destruct (IH first Hkeep) as [[Hin Hle] _].
        split; [destruct Hin as [<- | Hin]; [left; reflexivity | right; right; exact Hin]|].
        inversion Hle as [|? ? Hle1 Hle2]; subst.
        constructor; [assumption | constructor; [lia | assumption]].
    + destruct (Z.ltb_spec (signed_coeff a) (signed_coeff first)) as [Hc|Hc].
      * destruct (IH a Hrest) as [_ [Hin Hle]].
        split; [right; exact Hin|].
        inversion Hle as [|? ? Hle1 Hle2]; subst.
        constructor; [lia | constructor; assumption].
      * destruct (IH first Hkeep) as [_ [Hin Hle]].
        split; [destruct Hin as [<- | Hin]; [left; reflexivity | right; right; exact Hin]|].
        inversion Hle as [|? ? Hle1 Hle2]; subst.
        constructor; [assumption | constructor; [lia | assumption]].
Qed.

(** X21. On the records of [normalize_transaction] with a valid one
    among them, [largest_transaction] and [smallest_transaction] are
    amounts of valid records, and the amount of every valid record lies
    between them; amounts have two decimals, so the comparison is that
    of the numbers of hundredths. *)
Theorem largest_and_smallest (transactions : list normalized) :
  Forall normalized_output transactions ->
  0 < count_where is_valid transactions ->
  let s := get_statistics Decimal_add Decimal_div (SpendingAnalyzer_init transactions) in
  (exists t, In t transactions /\ is_valid t = true
             /\ normalized_amount t = Some (a_largest_transaction s))
  /\ (exists t, In t transactions /\ is_valid t = true
                /\ normalized_amount t = Some (a_smallest_transaction s))
  /\ forall t q,
      In t transactions -> is_valid t = true -> normalized_amount t = Some q ->
      signed_coeff (a_smallest_transaction s) <= signed_coeff q
      <= signed_coeff (a_largest_transaction s).
Proof.
  intros Hall Hsome. cbv zeta.
  pose proof (valid_amounts transactions Hall) as Hamounts.
  assert (Hvalid : forall t, In t (List.filter (fun t => is_valid t) transactions) ->
            In t transactions /\ is_valid t = true
            /\ exists q, normalized_amount t = Some q /\ dexp q = -2).
  { intros t Ht. apply filter_In in Ht as [Hin Hv]. split; [exact Hin|]. split; [exact Hv|].
    rewrite List.Forall_forall in Hall.
    destruct (Hall t Hin) as (date & merchant & amount & Hr).
    apply normalize_transaction_fields in Hr as (d & a & _ & Ha & ->).
    cbn [is_valid normalized_amount] in *.
    destruct a as [q|]; [|rewrite andb_false_r in Hv; discriminate].
    exists q. split; [reflexivity|]. apply normalize_amount_result in Ha. apply Ha. }
  unfold get_statistics, SpendingAnalyzer_init.
  cbn [self_transactions self_valid_transactions self_invalid_transactions].
  rewrite Hamounts. unfold count_where in Hsome.
  set (valid := List.filter (fun t => is_valid t) transactions) in *.
  set (amount_of := fun t : normalized => default (of_Z 0) (normalized_amount t)).
  destruct valid as [|t0 valid0] eqn:E; [simpl in Hsome; lia|].
  cbn [a_largest_transaction a_smallest_transaction List.map].
  assert (Hcents : Forall (fun a => dexp a = -2) (List.map amount_of (t0 :: valid0))).
  { apply List.Forall_forall. intros a Ha. apply in_map_iff in Ha as (t & <- & Ht).
    destruct (Hvalid t Ht) as (_ & _ & q & Hq & He). unfold amount_of. rewrite Hq. exact He. }
  destruct (extreme_amounts (List.map amount_of valid0) (amount_of t0) Hcents)
    as [[Hmax_in Hmax] [Hmin_in Hmin]].
  assert (Hpick : forall a, In a (List.map amount_of (t0 :: valid0)) ->
            exists t, In t transactions /\ is_valid t = true
                      /\ normalized_amount t = Some a).
  { intros a Ha. apply in_map_iff in Ha as (t & <- & Ht).
    destruct (Hvalid t Ht) as (Hin & Hv & q & Hq & _).
    exists t. split; [exact Hin|]. split; [exact Hv|].
    unfold amount_of. rewrite Hq. reflexivity. }
  split; [apply Hpick, Hmax_in|]. split; [apply Hpick, Hmin_in|].
  intros t q Hin Hv Hq.
  assert (Ha : In q (List.map amount_of (t0 :: valid0))).
  { apply in_map_iff. exists t. split; [unfold amount_of; rewrite Hq; reflexivity|].
    fold valid. rewrite <- E. apply filter_In. split; assumption. }
  rewrite List.Forall_forall in Hmax, Hmin.
  split; [apply Hmin, Ha | apply Hmax, Ha].
Qed.

End AcrossFacts.

(** ** Amounts: the cleaning, in general *)

Section CleaningFacts.

Lemma unmarked_eq (s : str) :
  unmarked s = strip (sub_codes (symbols_removed (strip s))).
Proof. reflexivity. Qed.

Lemma lstrip_app_stop (x y : str) (d : char) :
  isspace d = false -> lstrip (x ++ d :: y) = lstrip x ++ d :: y.
Proof.
  forget_parameters. intros Hd. induction x as [|c x IH]; simpl.
  - rewrite Hd. reflexivity.
  - destruct (isspace c); [exact IH | reflexivity].
Qed.

Lemma rstrip_app_stop (x y : str) (d : char) :
  isspace d = false -> rstrip (x ++ d :: y) = x ++ d :: rstrip y.
Proof.
  forget_parameters. intros Hd. unfold rstrip.
  rewrite rev_app_distr. simpl rev. rewrite <- app_assoc. simpl app.
  rewrite (lstrip_app_stop (rev y) (rev x) d Hd).
  rewrite rev_app_distr. simpl rev. rewrite rev_involutive, <- app_assoc. reflexivity.
Qed.

Lemma strip_app_stop (x y : str) (d : char) :
  isspace d = false -> strip (x ++ d :: y) = lstrip x ++ d :: rstrip y.
Proof.
  forget_parameters. intros Hd. unfold strip.
  rewrite lstrip_app_stop by exact Hd. apply rstrip_app_stop, Hd.
Qed.

Lemma lstrip_spaces (l z : str) :
  forallb isspace l = true -> lstrip (l ++ z) = lstrip z.
Proof.
  forget_parameters. induction l as [|c l IH]; simpl; [reflexivity|].
  intros H. apply andb_true_iff in H as [-> H]. exact (IH H).
Qed.

Lemma rstrip_spaces (z r : str) :
  forallb isspace r = true -> rstrip (z ++ r) = rstrip z.
Proof.
  forget_parameters. intros H. unfold rstrip. rewrite rev_app_distr.
  rewrite lstrip_spaces; [reflexivity|].
  rewrite forallb_forall in *. intros c Hc. apply H, in_rev, Hc.
Qed.

Lemma strip_pad (l y r : str) :
  forallb isspace l = true -> forallb isspace r = true ->
  strip (l ++ y ++ r) = strip y.
Proof.
  forget_parameters. intros Hl Hr. unfold strip. rewrite lstrip_spaces by exact Hl.
  induction y as [|c y IH]; simpl.
  - rewrite <- (app_nil_r r), lstrip_spaces by exact Hr. reflexivity.
  - destruct (isspace c); [exact IH|].
    change (c :: y ++ r) with ((c :: y) ++ r). apply rstrip_spaces, Hr.
Qed.

Lemma space_not_symbol (c : char) :
  isspace c = true ->
  negb (char_eqb c 8364 || char_eqb c 165 || char_eqb c 163) = true
  /\ negb (char_eqb c (chr "$")) = true.
Proof.
  forget_parameters. intros H. unfold char_eqb.
  split; apply negb_true_iff; rewrite ?orb_false_iff; repeat split;
    apply N.eqb_neq; intros ->; vm_compute in H; discriminate.
Qed.

Lemma symbols_removed_app (x y : str) :
  symbols_removed (x ++ y) = symbols_removed x ++ symbols_removed y.
Proof.
  forget_parameters. unfold symbols_removed, remove_char, sub_symbols.
  rewrite !List.filter_app. reflexivity.
Qed.

Lemma plain_char_facts (d : char) :
  plain_char d = true ->
  isspace d = false
  /\ (char_eqb d 8364 || char_eqb d 165 || char_eqb d 163) = false
  /\ char_eqb d (chr "$") = false /\ char_eqb d (chr "-") = false
  /\ char_eqb d (chr ",") = false.
Proof.
  forget_parameters. unfold plain_char.
  rewrite !andb_true_iff, !negb_true_iff. propositional.
Qed.

Lemma symbols_removed_plain (d : char) (y : str) :
  plain_char d = true -> symbols_removed (d :: y) = d :: symbols_removed y.
Proof.
  forget_parameters. intros H. apply plain_char_facts in H as (_ & Hs & Hd & _).
  unfold symbols_removed, remove_char, sub_symbols. cbn [List.filter]. rewrite Hs. cbn [negb List.filter].
  rewrite Hd. reflexivity.
Qed.

Lemma symbols_removed_spaces (l : str) :
  forallb isspace l = true -> symbols_removed l = l.
Proof.
  forget_parameters. intros H. unfold symbols_removed, remove_char, sub_symbols.
  rewrite (filter_all _ l).
  - apply filter_all. eapply forallb_weaken; [|exact H].
    intros c Hc. destruct (space_not_symbol c Hc) as [_ E]. exact E.
  - eapply forallb_weaken; [|exact H].
    intros c Hc. destruct (space_not_symbol c Hc) as [E _]. exact E.
Qed.

Lemma matches_letter_plain (l : ascii) (x : char) :
  In l ["u"; "s"; "d"; "e"; "r"; "g"; "b"; "p"; "j"; "y"]%char ->
  matches_letter l x = true ->
  plain_char x = true /\ code_free x = false.
Proof.
  forget_parameters. intros Hl H. simpl in Hl.
  unfold matches_letter, char_eqb in H.
  rewrite !orb_true_iff, andb_true_iff, !N.eqb_eq in H.
  repeat (destruct Hl as [<- | Hl];
          [destruct H as [[-> | ->] | [Hs ->]];
           try (vm_compute in Hs; discriminate); vm_compute; split; reflexivity|]).
  contradiction.
Qed.

Lemma currency_code_letters (a b c : char) :
  currency_code a b c = true ->
  (plain_char a = true /\ code_free a = false)
  /\ (plain_char b = true /\ code_free b = false)
  /\ (plain_char c = true /\ code_free c = false).
Proof.
  forget_parameters. unfold currency_code.
  rewrite !orb_true_iff, !andb_true_iff.
  intros [[[[[Ha Hb] Hc] | [[Ha Hb] Hc]] | [[Ha Hb] Hc]] | [[Ha Hb] Hc]];
    (split; [|split]); eapply matches_letter_plain; eauto; simpl; auto 20.
Qed.

Lemma code_free_blocks (d : char) :
  code_free d = true ->
  forall x y : char,
    currency_code d x y = false /\ currency_code x d y = false
    /\ currency_code x y d = false.
Proof.
  forget_parameters. intros H x y.
  assert (G : forall a b c, currency_code a b c = true ->
            code_free a = false /\ code_free b = false /\ code_free c = false).
  { intros a b c Hc. apply currency_code_letters in Hc. propositional. }
  split; [|split]; apply not_true_is_false; intros Hc; apply G in Hc;
    destruct Hc as (H1 & H2 & H3); congruence.
Qed.

Lemma sub_codes_eq (a b c : char) (r : str) :
  sub_codes (a :: b :: c :: r)
  = if currency_code a b c then sub_codes r else a :: sub_codes (b :: c :: r).
Proof. reflexivity. Qed.

Lemma sub_codes_cons_free (d : char) (y : str) :
  code_free d = true -> sub_codes (d :: y) = d :: sub_codes y.
Proof.
  forget_parameters. intros Hd. destruct y as [|b [|c r]]; try reflexivity.
  rewrite sub_codes_eq. destruct (code_free_blocks d Hd b c) as (-> & _). reflexivity.
Qed.

Lemma sub_codes_one_free (a d : char) (y : str) :
  code_free d = true -> sub_codes (a :: d :: y) = a :: d :: sub_codes y.
Proof.
  forget_parameters. intros Hd. destruct y as [|c r]; [reflexivity|].
  rewrite sub_codes_eq. destruct (code_free_blocks d Hd a c) as (_ & -> & _).
  rewrite sub_codes_cons_free by exact Hd. reflexivity.
Qed.

(** A character that is no letter of a code cuts the scan in two. *)
Lemma sub_codes_app_stop (x y : str) (d : char) :
  code_free d = true ->
  sub_codes (x ++ d :: y) = sub_codes x ++ d :: sub_codes y.
Proof.
  forget_parameters. intros Hd.
  assert (G : forall n x, (length x <= n)%nat ->
            sub_codes (x ++ d :: y) = sub_codes x ++ d :: sub_codes y).
  { induction n as [|n IH]; intros [|a [|b [|c r]]] Hlen; simpl in Hlen; try lia;
      try (apply sub_codes_cons_free, Hd);
      try (apply sub_codes_one_free, Hd).
    - change ([a; b] ++ d :: y) with (a :: b :: d :: y). rewrite sub_codes_eq.
      destruct (code_free_blocks d Hd a b) as (_ & _ & ->).
      rewrite sub_codes_one_free by exact Hd. reflexivity.
    - change ((a :: b :: c :: r) ++ d :: y) with (a :: b :: c :: (r ++ d :: y)).
      rewrite !sub_codes_eq. destruct (currency_code a b c).
      + apply IH. lia.
      + change (b :: c :: r ++ d :: y) with ((b :: c :: r) ++ d :: y).
        rewrite IH by (simpl; lia). reflexivity. }
  apply (G (length x)). lia.
Qed.

(** Where no code occurs nothing is removed. *)
Lemma sub_codes_none (s : str) : has_code s = false -> sub_codes s = s.
Proof.
  forget_parameters. induction s as [|a t IH]; [reflexivity|].
  cbn [has_code]. intros H. apply orb_false_iff in H as [Hs Ht].
  destruct t as [|b [|c r]]; try reflexivity.
  rewrite sub_codes_eq. cbn [starts_with_code] in Hs. rewrite Hs, (IH Ht). reflexivity.
Qed.

(** The leftmost code is removed wherever it is, and the scan resumes
    after it. *)
Lemma sub_codes_leftmost (pre rest : str) (a b c : char) :
  has_code (pre ++ [a; b]) = false -> currency_code a b c = true ->
  sub_codes (pre ++ a :: b :: c :: rest) = pre ++ sub_codes rest.
Proof.
  forget_parameters. intros Hpre Hc. induction pre as [|p pre IH]; simpl app.
  - rewrite sub_codes_eq, Hc. reflexivity.
  - cbn [app has_code] in Hpre. apply orb_false_iff in Hpre as [Hs Hrest].
    specialize (IH Hrest).
    destruct pre as [|x [|y pre']]; cbn [app starts_with_code] in *;
      rewrite sub_codes_eq, Hs, IH; reflexivity.
Qed.

Lemma has_code_free (p : str) (a b : char) :
  forallb code_free p = true -> has_code (p ++ [a; b]) = false.
Proof.
  forget_parameters. induction p as [|x p IH]; [intros _; reflexivity|].
  cbn [forallb]. intros H. apply andb_true_iff in H as [Hx Hp].
  cbn [app has_code]. rewrite (IH Hp), orb_false_r.
  destruct p as [|y [|z p']]; cbn [app starts_with_code];
    destruct (code_free_blocks x Hx) with (x := a) (y := b) as (E & _);
    try exact E; apply (code_free_blocks x Hx).
Qed.

Lemma contains_spaces (x : char) (l : str) :
  forallb isspace l = true -> isspace x = false -> contains_char x l = false.
Proof.
  forget_parameters. intros Hl Hx. apply contains_char_none. intros y Hy.
  rewrite forallb_forall in Hl. specialize (Hl y Hy).
  apply N.eqb_neq. intros ->. congruence.
Qed.

Lemma contains_app (x : char) (s t : str) :
  contains_char x (s ++ t) = contains_char x s || contains_char x t.
Proof. forget_parameters. unfold contains_char. apply existsb_app. Qed.

Lemma contains_strip (x : char) (s : str) :
  isspace x = false -> contains_char x (strip s) = contains_char x s.
Proof.
  forget_parameters. intros Hx. destruct (strip_decompose s) as (l & r & Hs & Hl & Hr).
  transitivity (contains_char x (l ++ strip s ++ r)); [|rewrite <- Hs; reflexivity].
  rewrite !contains_app, (contains_spaces x l Hl Hx), (contains_spaces x r Hr Hx).
  rewrite orb_false_r. reflexivity.
Qed.

Lemma contains_sub_codes (x : char) (s : str) :
  code_free x = true -> contains_char x (sub_codes s) = contains_char x s.
Proof.
  forget_parameters. intros Hx.
  assert (G : forall n s, (length s <= n)%nat ->
            contains_char x (sub_codes s) = contains_char x s).
  { induction n as [|n IH]; intros [|a [|b [|c r]]] Hlen; simpl in Hlen; try lia;
      try reflexivity.
    rewrite sub_codes_eq. destruct (currency_code a b c) eqn:Hc.
    - rewrite IH by lia. apply currency_code_letters in Hc as ((_ & Ha) & (_ & Hb) & (_ & Hcc)).
      unfold contains_char. cbn [existsb].
      assert (E : forall y, code_free y = false -> char_eqb y x = false).
      { intros y Hy. apply N.eqb_neq. intros ->. congruence. }
      rewrite (E a Ha), (E b Hb), (E c Hcc). reflexivity.
    - unfold contains_char in *. cbn [existsb]. f_equal.
      apply (IH (b :: c :: r)). simpl. lia. }
  apply (G (length s)). lia.
Qed.

Lemma contains_unmarked (s : str) :
  contains_char (chr "-") (unmarked s) = contains_char (chr "-") s.
Proof.
  forget_parameters. unfold unmarked.
  rewrite contains_strip by reflexivity.
  rewrite contains_sub_codes by reflexivity.
  rewrite contains_remove_other by reflexivity.
  rewrite contains_sub_symbols. apply contains_strip. reflexivity.
Qed.

(** The sign is negative exactly when a minus sign is anywhere in the
    string. *)
Lemma is_negative_contains (s : str) :
  is_negative s = contains_char (chr "-") s.
Proof.
  forget_parameters. unfold is_negative. rewrite contains_unmarked.
  destruct (contains_char (chr "-") s) eqn:E; [reflexivity|].
  rewrite <- (contains_strip (chr "-") s eq_refl) in E.
  destruct (strip s) as [|c r]; [reflexivity|].
  unfold contains_char in E. cbn [existsb] in E.
  apply orb_false_iff in E as [E _]. exact E.
Qed.

Lemma cleaned_amount_eq (s : str) :
  cleaned_amount s = remove_char (chr ",") (remove_char (chr "-") (unmarked s)).
Proof.
  forget_parameters. unfold cleaned_amount.
  destruct (contains_char (chr "-") (unmarked s)) eqn:E; [reflexivity|].
  rewrite (remove_char_absent _ _ E). reflexivity.
Qed.

Lemma in_rstrip (c : char) (s : str) : In c (rstrip s) -> In c s.
Proof.
  forget_parameters. unfold rstrip. intros H.
  apply in_rev. apply in_lstrip. apply in_rev. exact H.
Qed.

Lemma forallb_sub {A} (p : A -> bool) (s t : list A) :
  (forall c, In c t -> In c s) -> forallb p s = true -> forallb p t = true.
Proof.
  forget_parameters. rewrite !forallb_forall. auto.
Qed.

Lemma in_symbols_removed (c : char) (s : str) : In c (symbols_removed s) -> In c s.
Proof.
  forget_parameters. unfold symbols_removed. intros H.
  apply in_remove_char in H as [H _]. apply in_sub_symbols in H as [H _]. exact H.
Qed.

Lemma strip_symbols_pad (l x r : str) :
  forallb isspace l = true -> forallb isspace r = true ->
  strip (symbols_removed (l ++ x ++ r)) = strip (symbols_removed x).
Proof.
  forget_parameters. intros Hl Hr.
  rewrite !symbols_removed_app, (symbols_removed_spaces l Hl), (symbols_removed_spaces r Hr).
  apply strip_pad; assumption.
Qed.

(** A currency code between two parts without letters of codes goes as
    if it had not been there. *)
Lemma unmarked_code_between (pre post : str) (a b c : char) :
  forallb code_free pre = true -> forallb code_free post = true ->
  currency_code a b c = true ->
  unmarked (pre ++ a :: b :: c :: post) = unmarked (pre ++ post).
Proof.
  forget_parameters. intros Hpre Hpost Hc.
  destruct (currency_code_letters a b c Hc) as ((Ha & _) & (Hb & _) & (Hcc & _)).
  destruct (plain_char_facts a Ha) as (Hsa & _).
  destruct (plain_char_facts c Hcc) as (Hsc & _).
  assert (Hboth : forallb code_free (pre ++ post) = true)
    by (rewrite forallb_app, Hpre, Hpost; reflexivity).
  assert (Hmid : strip (symbols_removed (pre ++ post))
                 = strip (symbols_removed (lstrip pre ++ rstrip post))).
  { destruct (lstrip_decompose pre) as (l & Hl & Hsl).
    destruct (rstrip_decompose post) as (r & Hr & Hsr).
    rewrite Hl at 1. rewrite Hr at 1.
    rewrite <- (strip_symbols_pad l (lstrip pre ++ rstrip post) r Hsl Hsr).
    rewrite <- !app_assoc. reflexivity. }
  assert (Hright : unmarked (pre ++ post) = strip (symbols_removed (pre ++ post))).
  { rewrite unmarked_eq. rewrite sub_codes_code_free.
    - destruct (strip_decompose (pre ++ post)) as (l & r & Hs & Hl & Hr).
      rewrite Hs at 2. symmetry. apply strip_symbols_pad; assumption.
    - apply (forallb_sub code_free (pre ++ post)); [|exact Hboth].
      intros x Hx. apply in_strip, in_symbols_removed, Hx. }
  rewrite Hright, Hmid, unmarked_eq.
  rewrite (strip_app_stop pre (b :: c :: post) a Hsa).
  change (b :: c :: post) with ([b] ++ c :: post).
  rewrite (rstrip_app_stop [b] post c Hsc). cbn [app].
  rewrite symbols_removed_app, !symbols_removed_plain by assumption.
  rewrite sub_codes_leftmost; [| |exact Hc].
  - rewrite sub_codes_code_free.
    + rewrite <- symbols_removed_app. reflexivity.
    + apply (forallb_sub code_free post); [|exact Hpost].
      intros x Hx. apply in_rstrip, in_symbols_removed, Hx.
  - apply has_code_free. apply (forallb_sub code_free pre); [|exact Hpre].
    intros x Hx. apply in_lstrip, in_symbols_removed, Hx.
Qed.

Lemma normalize_amount_code_between (pre post : str) (a b c : char) :
  forallb code_free pre = true -> forallb code_free post = true ->
  currency_code a b c = true ->
  normalize_amount (VStr (pre ++ a :: b :: c :: post))
  = normalize_amount (VStr (pre ++ post)).
Proof.
  intros Hpre Hpost Hc.
  destruct (currency_code_letters a b c Hc) as ((Ha & _) & (Hb & _) & (Hcc & _)).
  destruct (plain_char_facts a Ha) as (Hsa & _ & _ & Hma & _).
  destruct (plain_char_facts b Hb) as (_ & _ & _ & Hmb & _).
  destruct (plain_char_facts c Hcc) as (_ & _ & _ & Hmc & _).
  rewrite !normalize_amount_str. unfold numeric_string.
  rewrite !cleaned_amount_eq, !is_negative_contains.
  rewrite (unmarked_code_between pre post a b c Hpre Hpost Hc).
  assert (contains_char (chr "-") (pre ++ a :: b :: c :: post)
          = contains_char (chr "-") (pre ++ post)) as ->.
  { rewrite !contains_app. unfold contains_char at 2. cbn [existsb].
    rewrite Hma, Hmb, Hmc. reflexivity. }
  assert (nonempty (strip (pre ++ a :: b :: c :: post)) = true) as ->.
  { rewrite (strip_app_stop pre _ a Hsa). destruct (lstrip pre); reflexivity. }
  destruct (nonempty (strip (pre ++ post))) eqn:E; [reflexivity|].
  assert (unmarked (pre ++ post) = []) as ->; [|reflexivity].
  rewrite unmarked_eq. destruct (strip (pre ++ post)); [reflexivity | discriminate].
Qed.

Lemma first_digit_split (t : str) :
  forallb (fun c => negb (is_decimal_digit c)) t = true
  \/ exists q d y,
      t = q ++ d :: y
      /\ forallb (fun c => negb (is_decimal_digit c)) q = true
      /\ is_decimal_digit d = true.
Proof.
  induction t as [|c t IH]; [left; reflexivity|].
  destruct (is_decimal_digit c) eqn:Hc.
  - right. exists [], c, t. repeat split. exact Hc.
  - destruct IH as [H | (q & d & y & -> & Hq & Hd)].
    + left. simpl. rewrite Hc, H. reflexivity.
    + right. exists (c :: q), d, y. split; [reflexivity|]. split; [|exact Hd].
      simpl. rewrite Hc, Hq. reflexivity.
Qed.

Lemma search_number_none (t : str) :
  forallb (fun c => negb (is_decimal_digit c)) t = true -> search_number t = None.
Proof.
  intros H. rewrite <- (app_nil_r t). rewrite search_number_skip by exact H. reflexivity.
Qed.

Lemma numeric_string_none (s : str) :
  forallb (fun c => negb (is_decimal_digit c)) s = true -> numeric_string s = None.
Proof.
  intros H. unfold numeric_string. destruct (nonempty (strip s)); [|reflexivity].
  rewrite search_number_none; [reflexivity|].
  apply (forallb_sub _ s); [|exact H]. intros c Hc. apply in_cleaned_amount in Hc. apply Hc.
Qed.

Lemma untouched_facts (c : char) :
  untouched c = true -> plain_char c = true /\ code_free c = true.
Proof.
  forget_parameters. unfold untouched, plain_char, code_free.
  rewrite !andb_true_iff. propositional.
Qed.

Lemma digit_untouched (c : char) :
  decimal_digits_plain -> is_decimal_digit c = true -> untouched c = true.
Proof.
  intros Hplain. unfold is_decimal_digit, digit_value.
  destruct (is_ascii c).
  - destruct (is_ascii_digit c) eqn:Hd; [|discriminate]. intros _.
    apply numeral_char_untouched. unfold numeral_char. rewrite Hd. reflexivity.
  - destruct (unicode_decimal c) eqn:E; [|discriminate]. intros _.
    apply Hplain. rewrite E. discriminate.
Qed.

(** The text searched, around a character that the cleaning keeps. *)
Lemma cleaned_around (x y : str) (d : char) :
  plain_char d = true -> code_free d = true ->
  cleaned_amount (x ++ d :: y)
  = remove_char (chr ",")
      (remove_char (chr "-") (lstrip (sub_codes (symbols_removed (lstrip x)))))
    ++ d :: remove_char (chr ",")
              (remove_char (chr "-") (rstrip (sub_codes (symbols_removed (rstrip y))))).
Proof.
  forget_parameters. intros Hp Hc.
  destruct (plain_char_facts d Hp) as (Hs & _ & _ & Hm & Hcomma).
  rewrite cleaned_amount_eq, unmarked_eq.
  rewrite (strip_app_stop x y d Hs), symbols_removed_app, symbols_removed_plain by exact Hp.
  rewrite (sub_codes_app_stop _ _ d Hc), (strip_app_stop _ _ d Hs).
  unfold remove_char. rewrite !List.filter_app. cbn [List.filter].
  rewrite Hm. cbn [negb List.filter]. rewrite Hcomma. reflexivity.
Qed.

(** The number of a string is looked for from its first digit on: what
    is before that digit counts for the sign only. *)
Lemma numeric_string_from_digit (x y : str) (d : char) :
  decimal_digits_plain ->
  forallb (fun c => negb (is_decimal_digit c)) x = true ->
  is_decimal_digit d = true ->
  numeric_string (x ++ d :: y)
  = match search_number
            (d :: remove_char (chr ",")
                    (remove_char (chr "-")
                       (rstrip (sub_codes (symbols_removed (rstrip y)))))) with
    | Some m => Some (if contains_char (chr "-") (x ++ d :: y) then chr "-" :: m else m)
    | None => None
    end.
Proof.
  intros Hplain Hx Hd.
  destruct (untouched_facts d (digit_untouched d Hplain Hd)) as [Hp Hc].
  destruct (plain_char_facts d Hp) as (Hs & _).
  unfold numeric_string.
  assert (nonempty (strip (x ++ d :: y)) = true) as ->.
  { rewrite (strip_app_stop x y d Hs). destruct (lstrip x); reflexivity. }
  rewrite (cleaned_around x y d Hp Hc), is_negative_contains.
  rewrite search_number_skip; [reflexivity|].
  apply (forallb_sub _ x); [|exact Hx]. intros c Hin.
  apply in_remove_char in Hin as [Hin _]. apply in_remove_char in Hin as [Hin _].
  apply in_lstrip, in_sub_codes, in_symbols_removed, in_lstrip in Hin. exact Hin.
Qed.

(** A point before the first digit goes as if it had not been there. *)
Lemma normalize_amount_point (pre post : str) :
  decimal_digits_plain ->
  forallb (fun c => negb (is_decimal_digit c)) pre = true ->
  normalize_amount (VStr (pre ++ chr "." :: post))
  = normalize_amount (VStr (pre ++ post)).
Proof.
  intros Hplain Hpre. rewrite !normalize_amount_str.
  assert (Hpoint : is_decimal_digit (chr ".") = false) by reflexivity.
  destruct (first_digit_split post) as [Hnone | (q & d & y & -> & Hq & Hd)].
  - rewrite !numeric_string_none; [reflexivity| |].
    + rewrite forallb_app, Hpre, Hnone. reflexivity.
    + rewrite forallb_app, Hpre. cbn [forallb]. rewrite Hpoint, Hnone. reflexivity.
  - change (pre ++ chr "." :: q ++ d :: y) with (pre ++ (chr "." :: q) ++ d :: y).
    rewrite !app_assoc.
    rewrite !(numeric_string_from_digit _ y d Hplain); try exact Hd.
    + assert (contains_char (chr "-") ((pre ++ chr "." :: q) ++ d :: y)
              = contains_char (chr "-") ((pre ++ q) ++ d :: y)) as ->; [|reflexivity].
      rewrite !contains_app. unfold contains_char at 2. cbn [existsb].
      change (char_eqb (chr ".") (chr "-")) with false. reflexivity.
    + rewrite forallb_app, Hpre, Hq. reflexivity.
    + rewrite forallb_app, Hpre. cbn [forallb]. rewrite Hpoint, Hq. reflexivity.
Qed.

End CleaningFacts.

(** ** Amounts: what is stripped, the sign, and the point *)

Section AmountClaims.

Lemma lowered_matches (l : ascii) (a : char) :
  ascii_lower_char a = chr l -> matches_letter l a = true.
Proof.
  forget_parameters. unfold ascii_lower_char, matches_letter, char_eqb.
  destruct (is_ascii_upper a); intros H.
  - assert (a = chr l - 32)%N as -> by lia.
    rewrite N.eqb_refl, orb_true_r. reflexivity.
  - rewrite H, N.eqb_refl. reflexivity.
Qed.

Lemma search_number_fraction_rest (pre ip fp rest : str) :
  forallb (fun c => negb (is_decimal_digit c)) pre = true ->
  ip <> [] -> forallb is_decimal_digit ip = true ->
  forallb is_decimal_digit fp = true -> stops rest ->
  search_number (pre ++ ip ++ chr "." :: fp ++ rest) = Some (ip ++ chr "." :: fp).
Proof.
  intros Hpre Hne Hip Hfp Hrest. rewrite search_number_skip by exact Hpre.
  destruct ip as [|c ip]; [contradiction|].
  pose proof (span_digits_app (c :: ip) (chr "." :: fp ++ rest) Hip
                (proj2 point_stops (fp ++ rest))) as Hspan.
  simpl in Hip. apply andb_true_iff in Hip as [Hc _].
  change ((c :: ip) ++ chr "." :: fp ++ rest) with (c :: (ip ++ chr "." :: fp ++ rest)) in *.
  cbn [search_number]. rewrite Hc, Hspan.
  change (char_eqb (chr ".") (chr ".")) with true. cbv iota.
  rewrite (span_digits_app fp rest Hfp Hrest). reflexivity.
Qed.

(** C6. [normalize_amount] looks for the number in the trimmed input
    without its currency symbols, its currency codes, its minus signs
    and its commas, in that order of removal, and to which nothing was
    added. The codes go as [re.sub] removes them, in any case of their
    letters: where no code occurs nothing is removed, and the leftmost
    code is removed wherever it is, the scan resuming after it; so a
    code between two parts without letters of codes changes nothing of
    the result. In a text of digits, points, symbols, commas and minus
    signs, the characters searched are the digits and points, in their
    order. The amount is negative exactly when the trimmed input starts
    with a minus sign or one is left after the symbols and codes are
    stripped, which is when the input has a minus sign anywhere.
    ["$1,234.56"], ["-$25.00"], ["$-25.00"], ["€50.00"], ["45.50 USD"]
    and ["1USD2"] give 1234.56, -25.00, -25.00, 50.00, 45.50 and
    12.00. *)
Theorem amount_cleaning_and_sign :
  (forall (s : str) (c : char),
      In c (cleaned_amount s) ->
      In c s /\ c <> 8364%N /\ c <> 165%N /\ c <> 163%N /\ c <> chr "$"
      /\ c <> chr "-" /\ c <> chr ",")
  /\ (forall (a b c : char) (r : str),
        currency_code a b c = true -> sub_codes (a :: b :: c :: r) = sub_codes r)
  /\ (forall s : str,
        is_negative s
        = startswith_char (chr "-") (strip s) || contains_char (chr "-") (unmarked s))
  /\ (forall (s : str) (q : Decimal),
        normalize_amount (VStr s) = Returns (Some q) -> dsign q = is_negative s)
  /\ normalize_amount (VStr (u "$1,234.56"))
     = Returns (Some (mkDecimal false 123456 (-2)))
  /\ normalize_amount (VStr (u "-$25.00"))
     = Returns (Some (mkDecimal true 2500 (-2)))
  /\ normalize_amount (VStr (u "$-25.00"))
     = Returns (Some (mkDecimal true 2500 (-2)))
  /\ normalize_amount (VStr (8364%N :: u "50.00"))
     = Returns (Some (mkDecimal false 5000 (-2)))
  /\ normalize_amount (VStr (u "45.50 USD"))
     = Returns (Some (mkDecimal false 4550 (-2)))
  /\ (forall s : str,
        cleaned_amount s
        = remove_char (chr ",")
            (remove_char (chr "-")
               (strip (sub_codes (symbols_removed (strip s))))))
  /\ (forall a b c : char,
        In (List.map ascii_lower_char [a; b; c]) [u "usd"; u "eur"; u "gbp"; u "jpy"] ->
        currency_code a b c = true)
  /\ (forall s : str, has_code s = false -> sub_codes s = s)
  /\ (forall (pre rest : str) (a b c : char),
        has_code (pre ++ [a; b]) = false -> currency_code a b c = true ->
        sub_codes (pre ++ a :: b :: c :: rest) = pre ++ sub_codes rest)
  /\ (forall (pre post : str) (a b c : char),
        forallb code_free pre = true -> forallb code_free post = true ->
        currency_code a b c = true ->
        normalize_amount (VStr (pre ++ a :: b :: c :: post))
        = normalize_amount (VStr (pre ++ post)))
  /\ (forall s : str,
        forallb money_char s = true ->
        cleaned_amount s = List.filter numeral_char s)
  /\ (forall s : str, is_negative s = contains_char (chr "-") s)
  /\ normalize_amount (VStr (u "1USD2"))
     = Returns (Some (mkDecimal false 1200 (-2))).
Proof.
  split; [intros s c; apply in_cleaned_amount|].
  split; [intros a b c r H; simpl; rewrite H; reflexivity|].
  split.
  { intros s. unfold is_negative. cbv zeta.
    destruct (contains_char _ _); [rewrite orb_true_r | rewrite orb_false_r]; reflexivity. }
  split; [exact normalize_amount_sign|].
  do 5 (split; [vm_compute; reflexivity|]).
  split; [intros s; rewrite cleaned_amount_eq, unmarked_eq; reflexivity|].
  split.
  { intros a b c Hin. unfold currency_code.
    cbn [In List.map] in Hin.
    destruct Hin as [H | [H | [H | [H | []]]]]; injection H as Ha Hb Hc;
      rewrite (lowered_matches _ a (eq_sym Ha)), (lowered_matches _ b (eq_sym Hb)),
        (lowered_matches _ c (eq_sym Hc)); rewrite ?orb_true_r; reflexivity. }
  split; [exact sub_codes_none|].
  split; [exact sub_codes_leftmost|].
  split; [exact normalize_amount_code_between|].
  split; [intros s Hs; apply (cleaning_money s Hs)|].
  split; [exact is_negative_contains|].
  vm_compute. reflexivity.
Qed.

(** C10. A decimal point before the first digit of an amount is not part
    of the match: the search passes over it, so the result is that of
    the input without this point, whatever surrounds it. The match
    starts at the first digit and takes the digits, and a point and the
    digits after it when these follow: it is a number of its own, an
    integer only when no point follows the digits. For digits [ds] the
    input [.ds] is normalized like [ds], to the integer [ds] with two
    zero decimals (or to [None] above 1,000,000): [".50"] gives 50.00,
    where ["0.50"] gives 0.50 and [".5.5"] gives 5.50. *)
Theorem point_before_digits :
  (forall pre ds rest : str,
      forallb (fun c => negb (is_decimal_digit c)) pre = true ->
      ds <> [] -> forallb is_decimal_digit ds = true -> stops rest ->
      startswith_char (chr ".") rest = false ->
      search_number (pre ++ chr "." :: ds ++ rest) = Some ds)
  /\ (forall ds : str,
        ds <> [] -> forallb is_ascii_digit ds = true ->
        normalize_amount (VStr (chr "." :: ds)) = normalize_amount (VStr ds)
        /\ normalize_amount (VStr (chr "." :: ds))
           = if (int_of_digits ds <=? 1000000)%N
             then Returns (Some (mkDecimal false (int_of_digits ds * 100) (-2)))
             else Returns None)
  /\ normalize_amount (VStr (u ".50")) = Returns (Some (mkDecimal false 5000 (-2)))
  /\ normalize_amount (VStr (u "$.50")) = Returns (Some (mkDecimal false 5000 (-2)))
  /\ normalize_amount (VStr (u "0.50")) = Returns (Some (mkDecimal false 50 (-2)))
  /\ (forall pre t : str,
        forallb (fun c => negb (is_decimal_digit c)) pre = true ->
        search_number (pre ++ chr "." :: t) = search_number t)
  /\ (forall s m : str,
        search_number s = Some m ->
        exists d rest, m = d :: rest /\ is_decimal_digit d = true)
  /\ (forall pre ds fs rest : str,
        forallb (fun c => negb (is_decimal_digit c)) pre = true ->
        ds <> [] -> forallb is_decimal_digit ds = true ->
        forallb is_decimal_digit fs = true -> stops rest ->
        search_number (pre ++ chr "." :: ds ++ chr "." :: fs ++ rest)
        = Some (ds ++ chr "." :: fs))
  /\ (decimal_digits_plain ->
      forall pre post : str,
        forallb (fun c => negb (is_decimal_digit c)) pre = true ->
        normalize_amount (VStr (pre ++ chr "." :: post))
        = normalize_amount (VStr (pre ++ post)))
  /\ normalize_amount (VStr (u ".5.5")) = Returns (Some (mkDecimal false 550 (-2)))
  /\ normalize_amount (VStr (u "-.50")) = Returns (Some (mkDecimal true 5000 (-2)))
  /\ normalize_amount (VStr (u " .50")) = Returns (Some (mkDecimal false 5000 (-2)))
  /\ normalize_amount (VStr (u ".50 USD")) = Returns (Some (mkDecimal false 5000 (-2))).
Proof.
  assert (Hskip : forall pre t : str,
            forallb (fun c => negb (is_decimal_digit c)) pre = true ->
            search_number (pre ++ chr "." :: t) = search_number t).
  { intros pre t Hpre. change (pre ++ chr "." :: t) with (pre ++ [chr "."] ++ t).
    rewrite app_assoc. apply search_number_skip.
    rewrite forallb_app, Hpre. reflexivity. }
  split.
  { intros pre ds rest Hpre Hne Hds Hstop Hpoint.
    rewrite Hskip by exact Hpre. apply search_number_run; assumption. }
  split.
  { intros ds Hne Hascii.
    assert (Hds : forallb is_decimal_digit ds = true)
      by (eapply forallb_weaken; [apply ascii_digit_decimal | exact Hascii]).
    assert (Hnum : forallb numeral_char ds = true).
    { eapply forallb_weaken; [|exact Hascii].
      intros c Hc. unfold numeral_char. rewrite Hc. reflexivity. }
    assert (H1 : numeric_string (chr "." :: ds) = Some ds).
    { apply (numeric_string_numeral [chr "."] ds); simpl; auto. }
    assert (H2 : numeric_string ds = Some ds).
    { apply (numeric_string_numeral [] ds); auto. }
    rewrite !normalize_amount_str, H1, H2. split; [reflexivity|].
    apply convert_amount_integer; assumption. }
  do 3 (split; [vm_compute; reflexivity|]).
  split; [exact Hskip|].
  split.
  { intros s m H. destruct (search_number_shape s m H) as (ip & fp & Hne & Hip & _ & Hm).
    destruct ip as [|d ip]; [contradiction|].
    simpl in Hip. apply andb_true_iff in Hip as [Hd _].
    destruct Hm as [-> | ->]; eexists d, _; split; try exact Hd; reflexivity. }
  split.
  { intros pre ds fs rest Hpre Hne Hds Hfs Hrest.
    rewrite Hskip by exact Hpre.
    apply (search_number_fraction_rest [] ds fs rest); auto. }
  split; [intros Hplain pre post; apply normalize_amount_point, Hplain|].
  repeat split; vm_compute; reflexivity.
Qed.

End AmountClaims.

End Normalizer.

(** * Examples on the sample parameters *)

Lemma sample_parse_contract : parse_contract Sample.parse.
Proof. intros s e H. left. inversion H. reflexivity. Defined.

Lemma normalize_transaction_invariants_witness :
  normalize_transaction Sample.decimal Sample.casing Sample.casing Sample.ratio
    Sample.this_year Sample.parse
    (VStr (u "soon")) (VStr (u "Corner Shop")) (VStr (u "free"))
  = Returns sample_invalid_record
  /\ (is_valid sample_invalid_record = true <->
      normalized_date sample_invalid_record <> None
      /\ normalized_amount sample_invalid_record <> None)
  /\ (errors sample_invalid_record = [] <-> is_valid sample_invalid_record = true).
Proof.
  split; [reflexivity|].
  apply (normalize_transaction_invariants Sample.decimal Sample.casing Sample.casing
           Sample.ratio Sample.this_year Sample.parse
           (VStr (u "soon")) (VStr (u "Corner Shop")) (VStr (u "free"))).
  reflexivity.
Defined.

Lemma amount_range_policy_witness :
  numeric_string Sample.decimal (u "$1000000.01") = Some (u "1000000.01")
  /\ exists d,
      Decimal_of_str Sample.decimal (u "1000000.01") = Returns d
      /\ (normalize_amount Sample.decimal (VStr (u "$1000000.01")) = Returns None
          <-> out_of_range (rescale d (-2)))
      /\ (~ out_of_range (rescale d (-2)) ->
          normalize_amount Sample.decimal (VStr (u "$1000000.01"))
          = Returns (Some (rescale d (-2)))).
Proof.
  split; [reflexivity|].
  apply (proj1 (amount_range_policy Sample.decimal) (u "$1000000.01") (u "1000000.01")).
  reflexivity.
Defined.

Lemma best_match_wins_witness :
  nonempty (strip (u " UBER ")) = true
  /\ exists before p after,
      knowledge_pairs = before ++ p :: after
      /\ (85 <= pair_score Sample.casing Sample.ratio (comparison_name Sample.casing (strip (u " UBER "))) p)%Q
      /\ Forall (fun x => (pair_score Sample.casing Sample.ratio (comparison_name Sample.casing (strip (u " UBER "))) x
                           < pair_score Sample.casing Sample.ratio (comparison_name Sample.casing (strip (u " UBER "))) p)%Q) before
      /\ Forall (fun x => (pair_score Sample.casing Sample.ratio (comparison_name Sample.casing (strip (u " UBER "))) x
                           <= pair_score Sample.casing Sample.ratio (comparison_name Sample.casing (strip (u " UBER "))) p)%Q) after
      /\ normalize_merchant Sample.casing Sample.casing Sample.ratio (VStr (u " UBER "))
         = (title Sample.casing (snd p), fst p).
Proof.
  split; [reflexivity|].
  apply (best_match_wins Sample.casing Sample.casing Sample.ratio (u " UBER ")); [reflexivity|].
  exists (u "uber", u "uber"). split; [left; reflexivity|].
  vm_compute. discriminate.
Defined.

Lemma iso_dates_are_fixed_witness :
  iso_shaped (u "2024-02-29")
  /\ exists y m d,
      u "2024-02-29" = iso_form y m d
      /\ (0 <= y <= 9999)%Z /\ (0 <= m <= 99)%Z /\ (0 <= d <= 99)%Z
      /\ (normalize_date Sample.this_year Sample.parse (VStr (u "2024-02-29"))
          = Returns (Some (u "2024-02-29"))
          <-> valid_date y m d = true /\ (1900 <= y <= Sample.this_year + 1)%Z)
      /\ (normalize_date Sample.this_year Sample.parse (VStr (u "2024-02-29"))
          = Returns (Some (u "2024-02-29"))
          \/ normalize_date Sample.this_year Sample.parse (VStr (u "2024-02-29"))
             = Returns None).
Proof.
  assert (H : iso_shaped (u "2024-02-29")).
  { exists (chr "2"), (chr "0"), (chr "2"), (chr "4"), (chr "0"), (chr "2"),
      (chr "2"), (chr "9"). split; reflexivity. }
  split; [exact H|].
  exact (proj1 (iso_dates_are_fixed Sample.this_year Sample.parse) (u "2024-02-29") H).
Defined.

Lemma month_first_unless_impossible_witness :
  DateUtil.numeric_tokens (strip (u "03/04/2023")) = Some (u "03", u "04", u "2023")
  /\ normalize_date Sample.this_year Sample.parse (VStr (u "03/04/2023"))
     = Returns (Some (u "2023-03-04"))
  /\ normalize_date Sample.this_year Sample.parse (VStr (u "15/01/2023"))
     = Returns (Some (u "2023-01-15")).
Proof.
  split; [reflexivity|].
  pose proof (month_first_unless_impossible Sample.this_year Sample.parse) as [G E].
  split.
  - apply (G (u "03/04/2023") (u "03") (u "04") (u "2023") eq_refl);
      first [ simpl; lia | vm_compute; split; discriminate | vm_compute; discriminate ].
  - apply E. vm_compute. discriminate.
Defined.

Lemma amount_cleaning_and_sign_witness :
  forallb code_free (u "1") = true /\ forallb code_free (u "2") = true
  /\ currency_code (chr "U") (chr "s") (chr "D") = true
  /\ normalize_amount Sample.decimal (VStr (u "1UsD2"))
     = normalize_amount Sample.decimal (VStr (u "12"))
  /\ normalize_amount Sample.decimal (VStr (u "$-25.00"))
     = Returns (Some (mkDecimal true 2500 (-2)))
  /\ dsign (mkDecimal true 2500 (-2)) = is_negative (u "$-25.00").
Proof.
  split; [reflexivity|]. split; [reflexivity|]. split; [reflexivity|].
  destruct (amount_cleaning_and_sign Sample.decimal)
    as (_ & _ & _ & Hsign & _ & _ & _ & _ & _ & _ & _ & _ & _ & Hcode & _).
  split; [|split; [reflexivity|]].
  - apply (Hcode (u "1") (u "2") (chr "U") (chr "s") (chr "D")); reflexivity.
  - apply Hsign. reflexivity.
Defined.

Lemma unmatched_merchant_witness :
  normalize_merchant Sample.casing Sample.casing Sample.ratio
    (VStr (u "random store name"))
  = (u "Random Store Name", u "other").
Proof.
  apply (unmatched_merchant Sample.casing Sample.casing Sample.ratio
           (u "random store name")); [reflexivity|].
  repeat constructor.
Defined.

Lemma unmatched_merchant_counterexample :
  length (repeat (chr " ") 60 ++ repeat (chr "z") 40) = 100%nat
  /\ Forall
       (fun p =>
          (pair_score Sample.casing Sample.ratio
             (comparison_name Sample.casing
                (strip (repeat (chr " ") 60 ++ repeat (chr "z") 40))) p
           < FUZZY_MATCH_THRESHOLD)%Q)
       knowledge_pairs
  /\ normalize_merchant Sample.casing Sample.casing Sample.ratio
       (VStr (repeat (chr " ") 60 ++ repeat (chr "z") 40))
     = (chr "Z" :: repeat (chr "z") 39, u "other")
  /\ length (fst (normalize_merchant Sample.casing Sample.casing Sample.ratio
                    (VStr (repeat (chr " ") 60 ++ repeat (chr "z") 40)))) = 40%nat
  /\ length (fst (normalize_merchant Sample.casing Sample.casing Sample.ratio
                    (VStr (repeat (chr " ") 60 ++ repeat (chr "z") 40)))) <> 53%nat.
Proof.
  split; [reflexivity|]. split; [repeat constructor|].
  split; [vm_compute; reflexivity|]. split; [vm_compute; reflexivity|].
  vm_compute. discriminate.
Defined.

Lemma uncaught_parser_exception_witness :
  nonempty (strip (u "99999999999999999999999999999h")) = true
  /\ date_parser_parse Sample.this_year (Sample.parse_raising InvalidOperation)
       (strip (u "99999999999999999999999999999h")) false
     = Raises InvalidOperation
  /\ normalize_date Sample.this_year (Sample.parse_raising InvalidOperation)
       (VStr (u "99999999999999999999999999999h"))
     = Raises InvalidOperation.
Proof.
  split; [reflexivity|]. split; [reflexivity|].
  destruct (uncaught_parser_exception Sample.decimal Sample.casing Sample.casing
              Sample.ratio Sample.this_year (Sample.parse_raising InvalidOperation))
    as (_ & _ & _ & _ & H).
  apply (H (u "99999999999999999999999999999h") InvalidOperation);
    [reflexivity | reflexivity | discriminate | discriminate].
Defined.

Lemma sample_decimal_digits_plain : decimal_digits_plain Sample.decimal.
Proof. intros c H. exfalso. apply H. reflexivity. Defined.

Lemma point_before_digits_witness :
  decimal_digits_plain Sample.decimal
  /\ normalize_amount Sample.decimal (VStr (u "-$.50 USD"))
     = normalize_amount Sample.decimal (VStr (u "-$50 USD"))
  /\ normalize_amount Sample.decimal (VStr (u ".75"))
     = normalize_amount Sample.decimal (VStr (u "75"))
  /\ normalize_amount Sample.decimal (VStr (u ".75"))
     = Returns (Some (mkDecimal false 7500 (-2))).
Proof.
  destruct (point_before_digits Sample.decimal)
    as (_ & H & _ & _ & _ & _ & _ & _ & Hpoint & _).
  split; [exact sample_decimal_digits_plain|]. split.
  - apply (Hpoint sample_decimal_digits_plain (u "-$") (u "50 USD")). reflexivity.
  - apply (H (u "75")); [discriminate | reflexivity].
Defined.

Lemma point_before_digits_counterexample :
  search_number Sample.decimal (u ".5.5") = Some (u "5.5")
  /\ normalize_amount Sample.decimal (VStr (u ".5.5"))
     = Returns (Some (mkDecimal false 550 (-2)))
  /\ normalize_amount Sample.decimal (VStr (u "5"))
     = Returns (Some (mkDecimal false 500 (-2)))
  /\ normalize_amount Sample.decimal (VStr (u ".5.5"))
     <> normalize_amount Sample.decimal (VStr (u "5")).
Proof.
  split; [reflexivity|]. split; [reflexivity|]. split; [reflexivity|].
  vm_compute. discriminate.
Defined.

Lemma sample_parse_valid : parse_valid Sample.parse.
Proof. intros s d H. discriminate H. Defined.

Lemma sample_records_are_outputs :
  Forall (normalized_output Sample.decimal Sample.casing Sample.casing Sample.ratio
            Sample.this_year Sample.parse)
    [sample_valid_record; sample_invalid_record].
Proof.
  constructor; [|constructor; [|constructor]].
  - exists (VStr (u "1/5/23")), (VStr (u "uber")), (VStr (u "$5")). reflexivity.
  - exists (VStr (u "soon")), (VStr (u "Corner Shop")), (VStr (u "free")). reflexivity.
Defined.

Lemma normalize_amount_two_places_witness :
  normalize_amount Sample.decimal (VStr (u "$1,234.565"))
  = Returns (Some (mkDecimal false 123456 (-2)))
  /\ dexp (mkDecimal false 123456 (-2)) = (-2)%Z
  /\ (-100000000 <= signed_coeff (mkDecimal false 123456 (-2)) <= 100000000)%Z.
Proof.
  split; [reflexivity|].
  apply (normalize_amount_two_places Sample.decimal (VStr (u "$1,234.565"))).
  reflexivity.
Defined.

Lemma normalize_date_canonical_witness :
  normalize_date Sample.this_year Sample.parse (VStr (u "1/5/23"))
  = Returns (Some (u "2023-01-05"))
  /\ iso_shaped (u "2023-01-05") /\ length (u "2023-01-05") = 10%nat
  /\ exists d,
      u "2023-01-05" = strftime_iso d
      /\ (1900 <= year d <= Sample.this_year + 1)%Z.
Proof.
  split; [reflexivity|].
  apply (normalize_date_canonical Sample.this_year Sample.parse (VStr (u "1/5/23"))).
  reflexivity.
Defined.

Lemma normalize_date_idempotent_witness :
  parse_valid Sample.parse
  /\ normalize_date Sample.this_year Sample.parse (VStr (u "1/5/23"))
     = Returns (Some (u "2023-01-05"))
  /\ normalize_date Sample.this_year Sample.parse (VStr (u "2023-01-05"))
     = Returns (Some (u "2023-01-05")).
Proof.
  split; [exact sample_parse_valid|]. split; [reflexivity|].
  apply (normalize_date_idempotent Sample.this_year Sample.parse (VStr (u "1/5/23"))).
  - exact sample_parse_valid.
  - reflexivity.
Defined.

Lemma normalize_transaction_record_witness :
  normalize_transaction Sample.decimal Sample.casing Sample.casing Sample.ratio
    Sample.this_year Sample.parse (VStr (u "soon")) (VStr (u "Corner Shop"))
    (VStr (u "free")) = Returns sample_invalid_record
  /\ raw_date sample_invalid_record = VStr (u "soon")
  /\ (length (errors sample_invalid_record) <= 2)%nat.
Proof.
  split; [reflexivity|].
  pose proof (normalize_transaction_record Sample.decimal Sample.casing Sample.casing
                Sample.ratio Sample.this_year Sample.parse (VStr (u "soon"))
                (VStr (u "Corner Shop")) (VStr (u "free")) sample_invalid_record
                eq_refl) as H.
  split; [apply H|]. repeat apply proj2 in H. exact H.
Defined.

Lemma stats_of_normalized_records_witness :
  Forall (normalized_output Sample.decimal Sample.casing Sample.casing Sample.ratio
            Sample.this_year Sample.parse)
    [sample_valid_record; sample_invalid_record]
  /\ (date_errors (get_normalization_stats [sample_valid_record; sample_invalid_record])
      + amount_errors (get_normalization_stats [sample_valid_record; sample_invalid_record])
      = count_errors [sample_valid_record; sample_invalid_record])%Z.
Proof.
  split; [exact sample_records_are_outputs|].
  pose proof (stats_of_normalized_records Sample.decimal Sample.casing Sample.casing
                Sample.ratio Sample.this_year Sample.parse
                [sample_valid_record; sample_invalid_record]
                sample_records_are_outputs) as H.
  repeat apply proj2 in H. exact H.
Defined.

Lemma category_ignores_case_witness :
  same_up_to_ascii_case (u "STARBUCKS") (u "starbucks")
  /\ snd (normalize_merchant Sample.casing Sample.casing Sample.ratio
            (VStr (u "STARBUCKS")))
     = snd (normalize_merchant Sample.casing Sample.casing Sample.ratio
              (VStr (u "starbucks"))).
Proof.
  split; [reflexivity|].
  apply (category_ignores_case Sample.casing Sample.casing Sample.ratio
           (u "STARBUCKS") (u "starbucks")).
  reflexivity.
Defined.

Lemma amount_text_round_trip_witness :
  normalize_amount Sample.decimal (VStr (u "-$1,234.5"))
  = Returns (Some (mkDecimal true 123450 (-2)))
  /\ normalize_amount Sample.decimal (VStr (Decimal_str (mkDecimal true 123450 (-2))))
     = Returns (Some (mkDecimal true 123450 (-2))).
Proof.
  split; [reflexivity|].
  apply (amount_text_round_trip Sample.decimal (VStr (u "-$1,234.5"))).
  reflexivity.
Defined.

Lemma format_currency_round_trip_witness :
  forallb currency_symbol (u "$") = true
  /\ normalize_amount Sample.decimal (VStr (u "-$1,234.5"))
     = Returns (Some (mkDecimal true 123450 (-2)))
  /\ normalize_amount Sample.decimal
       (VStr (format_currency (Some (mkDecimal true 123450 (-2))) (u "$")))
     = Returns (Some (mkDecimal true 123450 (-2))).
Proof.
  split; [reflexivity|]. split; [reflexivity|].
  apply (proj1 (format_currency_round_trip Sample.decimal (u "$") eq_refl)
           (VStr (u "-$1,234.5"))).
  reflexivity.
Defined.

Lemma truncate_string_fits_witness :
  (Z.of_nat (length (u "...")) <= 10)%Z
  /\ (Z.of_nat (length (truncate_string (u "Starbucks Coffee Company") 10 (u "...")))
      <= 10)%Z.
Proof.
  split; [simpl; lia|].
  apply (truncate_string_fits (u "Starbucks Coffee Company") (u "...") 10).
  simpl. lia.
Defined.

Lemma truncate_string_short_limit_witness :
  (2 < Z.of_nat (length (u "...")))%Z /\ (2 < Z.of_nat (length (u "abcdefgh")))%Z
  /\ (2 < Z.of_nat (length (truncate_string (u "abcdefgh") 2 (u "..."))))%Z.
Proof.
  split; [simpl; lia|]. split; [simpl; lia|].
  apply (truncate_string_short_limit (u "abcdefgh") (u "...") 2); simpl; lia.
Defined.

Lemma parsed_rows_are_numbered_witness :
  parse_transactions_csv Sample.casing sample_rows = Transactions sample_transactions
  /\ StronglySorted N.lt (List.map t_row_number sample_transactions).
Proof.
  split; [reflexivity|].
  apply (parsed_rows_are_numbered Sample.casing sample_rows sample_transactions).
  reflexivity.
Defined.

Lemma sample_rows_are_reader_rows : Forall reader_row sample_rows.
Proof. repeat constructor. Defined.

Lemma extra_fields_fail_the_parse_witness :
  Forall reader_row sample_rows
  /\ ((exists transactions,
          parse_transactions_csv Sample.casing sample_rows = Transactions transactions)
      <-> Forall (fun r => has_extra_fields r = false) sample_rows).
Proof.
  split; [exact sample_rows_are_reader_rows|].
  apply (extra_fields_fail_the_parse Sample.casing sample_rows).
  exact sample_rows_are_reader_rows.
Defined.

Lemma validated_header_rejects_no_row_witness :
  missing_columns Sample.casing [u "Date"; u " Merchant"; u "AMOUNT"] = []
  /\ Forall (has_columns [u "Date"; u " Merchant"; u "AMOUNT"]) sample_rows
  /\ length sample_transactions
     = length (List.filter (fun r => negb (skipped r)) sample_rows).
Proof.
  assert (H : Forall (has_columns [u "Date"; u " Merchant"; u "AMOUNT"]) sample_rows).
  { unfold sample_rows.
    constructor; [|constructor; [|constructor; [|constructor]]];
      intros f [<- | [<- | [<- | []]]]; simpl; auto. }
  split; [reflexivity|]. split; [exact H|].
  apply (validated_header_rejects_no_row Sample.casing
           [u "Date"; u " Merchant"; u "AMOUNT"] sample_rows sample_transactions).
  - reflexivity.
  - exact H.
  - reflexivity.
Defined.

Lemma parsed_rows_are_normalized_witness :
  parse_contract Sample.parse
  /\ exists normalized_results,
      normalize_rows Sample.decimal Sample.casing Sample.casing Sample.ratio
        Sample.this_year Sample.parse sample_transactions = Returns normalized_results
      /\ Z.of_nat (length (cleaned_transactions normalized_results))
         = valid_transactions (get_normalization_stats (List.map snd normalized_results)).
Proof.
  split; [exact sample_parse_contract|].
  destruct (parsed_rows_are_normalized Sample.decimal Sample.casing Sample.casing
              Sample.ratio Sample.this_year Sample.parse sample_transactions
              sample_parse_contract) as (results & Hrows & _ & Hcount).
  exists results. split; [exact Hrows | exact Hcount].
Defined.

Lemma cleaned_rows_normalize_to_themselves_witness :
  parse_valid Sample.parse
  /\ In (mkCleaned (Some (u "2023-01-05")) (Some (u "Uber")) (u "5.00") (Some (u "uber")))
       (cleaned_transactions [(2%N, sample_valid_record); (3%N, sample_invalid_record)])
  /\ exists r,
      normalize_transaction Sample.decimal Sample.casing Sample.casing Sample.ratio
        Sample.this_year Sample.parse (VStr (u "2023-01-05")) (VStr (u "Uber"))
        (VStr (u "5.00")) = Returns r
      /\ is_valid r = true /\ errors r = [].
Proof.
  assert (Hin : In (mkCleaned (Some (u "2023-01-05")) (Some (u "Uber")) (u "5.00")
                      (Some (u "uber")))
                  (cleaned_transactions
                     [(2%N, sample_valid_record); (3%N, sample_invalid_record)]))
    by (left; reflexivity).
  split; [exact sample_parse_valid|]. split; [exact Hin|].
  destruct (cleaned_rows_normalize_to_themselves Sample.decimal Sample.casing
              Sample.casing Sample.ratio Sample.this_year Sample.parse
              [(2%N, sample_valid_record); (3%N, sample_invalid_record)]
              _ sample_parse_valid sample_records_are_outputs Hin)
    as (d & m & q & r & Hd & Hm & _ & Hr & Hv & He & _).
  injection Hd as <-. injection Hm as <-.
  exists r. split; [exact Hr|]. split; [exact Hv | exact He].
Defined.

Lemma analyzer_statistics_counts_witness :
  count_where is_valid [sample_invalid_record] = 0%Z
  /\ a_total_transactions
       (get_statistics (fun a _ => a) (fun a _ => a)
          (SpendingAnalyzer_init [sample_invalid_record])) = 0%Z
  /\ a_invalid_transactions
       (get_statistics (fun a _ => a) (fun a _ => a)
          (SpendingAnalyzer_init [sample_invalid_record])) = 1%Z.
Proof.
  split; [reflexivity|].
  destruct (analyzer_statistics_counts (fun a _ => a) (fun a _ => a)
              [sample_invalid_record]) as (_ & H & _).
  destruct (H eq_refl) as (Ht & _ & Hi & _).
  split; [exact Ht | exact Hi].
Defined.

Lemma analyzer_on_normalized_records_witness :
  Forall (normalized_output Sample.decimal Sample.casing Sample.casing Sample.ratio
            Sample.this_year Sample.parse)
    [sample_valid_record; sample_invalid_record]
  /\ (a_unique_categories
        (get_statistics (fun a _ => a) (fun a _ => a)
           (SpendingAnalyzer_init [sample_valid_record; sample_invalid_record]))
      <= 11)%Z.
Proof.
  split; [exact sample_records_are_outputs|].
  apply (analyzer_on_normalized_records Sample.decimal Sample.casing Sample.casing
           Sample.ratio Sample.this_year Sample.parse (fun a _ => a) (fun a _ => a)
           [sample_valid_record; sample_invalid_record] sample_records_are_outputs).
Defined.

Lemma empty_fields_become_errors_witness :
  normalize_rows Sample.decimal Sample.casing Sample.casing Sample.ratio
    Sample.this_year Sample.parse sample_transactions = Returns sample_results
  /\ (empty_amounts (get_parse_statistics sample_transactions)
      <= amount_errors (get_normalization_stats (List.map snd sample_results)))%Z.
Proof.
  assert (H : normalize_rows Sample.decimal Sample.casing Sample.casing Sample.ratio
                Sample.this_year Sample.parse sample_transactions
              = Returns sample_results) by (vm_compute; reflexivity).
  split; [exact H|].
  apply (empty_fields_become_errors Sample.decimal Sample.casing Sample.casing
           Sample.ratio Sample.this_year Sample.parse sample_transactions
           sample_results H).
Defined.

Lemma largest_and_smallest_witness :
  Forall (normalized_output Sample.decimal Sample.casing Sample.casing Sample.ratio
            Sample.this_year Sample.parse)
    [sample_valid_record; sample_invalid_record]
  /\ (0 < count_where is_valid [sample_valid_record; sample_invalid_record])%Z
  /\ exists t,
      In t [sample_valid_record; sample_invalid_record] /\ is_valid t = true
      /\ normalized_amount t
         = Some (a_largest_transaction
                   (get_statistics (fun a _ => a) (fun a _ => a)
                      (SpendingAnalyzer_init [sample_valid_record; sample_invalid_record]))).
Proof.
  split; [exact sample_records_are_outputs|]. split; [reflexivity|].
  apply (largest_and_smallest Sample.decimal Sample.casing Sample.casing Sample.ratio
           Sample.this_year Sample.parse (fun a _ => a) (fun a _ => a)
           [sample_valid_record; sample_invalid_record] sample_records_are_outputs).
  reflexivity.
Defined.

(** * Cases of [tests/test_normalizer.py]

    The assertions of the test suite that need no month name and no fuzzy
    score, evaluated on the sample parameters. *)

Module Tests.

Definition amount (s : string) : outcome (option Decimal) :=
  normalize_amount Sample.decimal (VStr (u s)).

Definition date (s : string) : outcome (option str) :=
  normalize_date Sample.this_year Sample.parse (VStr (u s)).

Definition dec (negative : bool) (cents : N) : outcome (option Decimal) :=
  Returns (Some (mkDecimal negative cents (-2))).

Example test_normalize_basic_format :
  amount "45.50" = dec false 4550 /\ amount "100.00" = dec false 10000
  /\ amount "0.01" = dec false 1.
Proof. repeat split. Qed.

Example test_normalize_with_dollar_sign :
  amount "$45.50" = dec false 4550 /\ amount "$ 45.50" = dec false 4550
  /\ amount "$100" = dec false 10000.
Proof. repeat split. Qed.

Example test_normalize_with_currency_text :
  amount "USD 45.50" = dec false 4550 /\ amount "45.50 USD" = dec false 4550
  /\ amount "45.50USD" = dec false 4550.
Proof. repeat split. Qed.

Example test_normalize_negative_amounts :
  amount "-$25.00" = dec true 2500 /\ amount "$-25.00" = dec true 2500
  /\ amount "-25.00" = dec true 2500.
Proof. repeat split. Qed.

Example test_normalize_inconsistent_decimals :
  amount "12.3" = dec false 1230 /\ amount "12.345" = dec false 1234
  /\ amount "12.346" = dec false 1235.
Proof. repeat split. Qed.

Example test_normalize_invalid_amount :
  amount "" = Returns None /\ amount "   " = Returns None
  /\ amount "Invalid" = Returns None /\ amount "Not a number" = Returns None.
Proof. repeat split. Qed.

Example test_normalize_non_usd_currency :
  normalize_amount Sample.decimal (VStr (165%N :: u "1000")) = dec false 100000
  /\ normalize_amount Sample.decimal (VStr (163%N :: u "45.50")) = dec false 4550.
Proof. repeat split. Qed.

Example test_normalize_unreasonable_amounts :
  amount "$999999999.99" = Returns None /\ amount "$-999999999.99" = Returns None.
Proof. repeat split. Qed.

Example test_normalize_iso_format :
  date "2023-01-15" = Returns (Some (u "2023-01-15"))
  /\ date "2023-12-31" = Returns (Some (u "2023-12-31")).
Proof. repeat split. Qed.

Example test_normalize_us_format :
  date "01/15/2023" = Returns (Some (u "2023-01-15"))
  /\ date "12/31/2023" = Returns (Some (u "2023-12-31")).
Proof. repeat split. Qed.

Example test_normalize_with_hyphens :
  date "15-01-2023" = Returns (Some (u "2023-01-15"))
  /\ date "01-15-2023" = Returns (Some (u "2023-01-15")).
Proof. repeat split. Qed.

Example test_normalize_whitespace_and_empty :
  date "  2023-01-15  " = Returns (Some (u "2023-01-15"))
  /\ date "" = Returns None /\ date "   " = Returns None.
Proof. repeat split. Qed.

Example test_normalize_unreasonable_years :
  date "1899-01-01" = Returns None /\ date "2100-01-01" = Returns None
  /\ date "2027-06-15" = Returns (Some (u "2027-06-15")).
Proof. repeat split. Qed.

Example test_normalize_empty_merchant :
  normalize_merchant Sample.casing Sample.casing Sample.ratio (VStr (u ""))
  = (u "Unknown", u "other")
  /\ normalize_merchant Sample.casing Sample.casing Sample.ratio (VStr (u "   "))
     = (u "Unknown", u "other").
Proof. repeat split. Qed.

Example test_normalize_very_long_name :
  let name := fst (normalize_merchant Sample.casing Sample.casing Sample.ratio
                     (VStr (repeat (chr "A") 100))) in
  length name = 53%nat /\ name = repeat (chr "A") 50 ++ u "...".
Proof. repeat split. Qed.

Example test_stats_empty_list :
  let s := get_normalization_stats [] in
  total_transactions s = 0%Z /\ valid_transactions s = 0%Z
  /\ invalid_transactions s = 0%Z /\ success_rate s = Int 0.
Proof. repeat split. Qed.

End Tests.
